(** * Segmentation dataset augmentation pipeline

    A shallow embedding of [segmentation_dataset_augmentation.py]: the
    script lists the image directory, pairs every image with its mask by
    a file-name convention, applies a fixed list of five Albumentations
    transforms and writes each result below a per-transform directory.

    The script is a sequence of effects on the file system and on standard
    output, so it is modelled as a state-and-exception computation over a
    [World].  OpenCV's codecs and the pixel arithmetic of Albumentations
    are not part of the script; they are an interface ([Externals]) that
    every definition and theorem is parametric in.

    File names are byte strings.  The script only inspects the ASCII
    characters [_], [.], [/] and the letters of [.jpg], so the model is
    exact for UTF-8 encoded names.  Paths are those of [posixpath]; the
    file system is a finite map from paths to directories and files. *)

From Stdlib Require Import QArith Ascii.
From stdpp Require Import gmap strings list fin_maps pretty.

(** ** Python string operations used by the script *)

Module Py.

(** [str.lower] on one character. *)
Definition lower_char (c : ascii) : ascii :=
  let n := nat_of_ascii c in
  if (65 <=? n)%nat && (n <=? 90)%nat then ascii_of_nat (n + 32) else c.

(** [s.lower()] *)
Fixpoint lower (s : string) : string :=
  match s with
  | EmptyString => EmptyString
  | String c s' => String (lower_char c) (lower s')
  end.

(** [s.endswith(suffix)] *)
Fixpoint endswith (s suffix : string) : bool :=
  if String.eqb s suffix then true
  else match s with
       | EmptyString => false
       | String _ s' => endswith s' suffix
       end.

(** [s.startswith(prefix)] *)
Fixpoint startswith (s prefix : string) {struct prefix} : bool :=
  match prefix, s with
  | EmptyString, _ => true
  | String p prefix', String c s' => Ascii.eqb p c && startswith s' prefix'
  | String _ _, EmptyString => false
  end.

(** [s.split(sep)] for a separator of one character: never empty. *)
Fixpoint split (sep : ascii) (s : string) : list string :=
  match s with
  | EmptyString => [EmptyString]
  | String c s' =>
      if Ascii.eqb c sep then EmptyString :: split sep s'
      else match split sep s' with
           | h :: t => String c h :: t
           | [] => [String c EmptyString]
           end
  end.

(** [s[:n]] for [0 <= n]. *)
Fixpoint take (n : nat) (s : string) : string :=
  match n, s with
  | S n', String c s' => String c (take n' s')
  | _, _ => EmptyString
  end.

(** [s[n:]] for [0 <= n]. *)
Fixpoint skip (n : nat) (s : string) : string :=
  match n, s with
  | S n', String _ s' => skip n' s'
  | _, _ => s
  end.

(** [s[:-k]] for [0 < k]: the string without its last [k] characters,
    empty when it has no more than [k]. *)
Definition drop_last (k : nat) (s : string) : string :=
  take (String.length s - k) s.

(** [sep in s] for a separator of one character. *)
Fixpoint contains (sep : ascii) (s : string) : bool :=
  match s with
  | EmptyString => false
  | String c s' => Ascii.eqb c sep || contains sep s'
  end.

(** [s.count(sep)] for a separator of one character. *)
Fixpoint count (sep : ascii) (s : string) : nat :=
  match s with
  | EmptyString => 0
  | String c s' => (if Ascii.eqb c sep then 1 else 0) + count sep s'
  end.

(** [os.path.join(a, b)] of [posixpath], two arguments. *)
Definition path_join (a b : string) : string :=
  if startswith b "/" then b
  else if String.eqb a "" || endswith a "/" then a +:+ b
  else a +:+ "/" +:+ b.

(** [str(n)] for a non-negative [int]. *)
Definition str (n : nat) : string := pretty n.

(** The exceptions the script can meet. *)
Inductive exn :=
| IndexError
| FileExistsError
| FileNotFoundError
| NotADirectoryError
| Cv2Error
| TransformError.

End Py.

(** ** Data model *)

(** A decoded raster, as the [numpy] array OpenCV returns: [shape] is
    [[h; w; 3]] for a colour image and [[h; w]] for a grayscale mask. *)
Record ndarray := { shape : list nat; data : list N }.

(** Height and width of a raster. *)
Definition dims (a : ndarray) : list nat := List.firstn 2 (shape a).

(** The second argument of [cv2.imread]. *)
Inductive imread_flag := IMREAD_COLOR | IMREAD_GRAYSCALE.

(** A keyword argument of a transform constructor. *)
Inductive arg :=
| Num (q : Q)
| Range (lo hi : Q)
| Flag (b : bool)
| Str (s : string)
| Cv2Const (name : string).

(** A transform object: its class and the keyword arguments it was
    built with. *)
Record transform := { class_name : string; kwargs : list (string * arg) }.

(** The two families of Albumentations transforms. *)
Inductive transform_kind := ImageOnlyTransform | DualTransform.

(** What the script takes from OpenCV and Albumentations: the codecs,
    the pixel operations of the transforms on either target, the random
    generator the transforms draw from, and whether a transform called
    with [mask=None] raises or hands the [None] back. *)
Record Externals := {
  imdecode : imread_flag -> list N -> option ndarray;
  imencode : string -> ndarray -> list N;
  apply_to_image : transform -> N -> ndarray -> ndarray;
  apply_to_mask : transform -> N -> ndarray -> ndarray;
  advance_rng : transform -> N -> N;
  rejects_none_mask : bool;
  apply_to_image_shape :
    forall t seed a, shape (apply_to_image t seed a) = shape a;
  apply_to_mask_shape :
    forall t seed a, shape (apply_to_mask t seed a) = shape a
}.

(** Modelled from the spec: the Albumentations class hierarchy, which is
    not part of the script.  Photometric transforms apply only to the
    image and pass the mask through unchanged; the geometric transform
    warps both.  [ShiftScaleRotate] is the geometric one of the five. *)
Definition base_class (t : transform) : transform_kind :=
  if String.eqb (class_name t) "ShiftScaleRotate" then DualTransform
  else ImageOnlyTransform.

(** Modelled from the spec: [transform(image=image, mask=mask)] with
    [p=1.0], so the transform is always applied.  The result is the
    dictionary with the keys [image] and [mask]. *)
Definition call (E : Externals) (t : transform) (seed : N)
    (image : ndarray) (mask : option ndarray)
  : Py.exn + (ndarray * option ndarray) :=
  match mask with
  | None =>
      if rejects_none_mask E then inl Py.TransformError
      else inr (apply_to_image E t seed image, None)
  | Some m =>
      inr (apply_to_image E t seed image,
           Some (match base_class t with
                 | ImageOnlyTransform => m
                 | DualTransform => apply_to_mask E t seed m
                 end))
  end.

(** ** The world the script runs in *)

(** An entry of the file system: a directory or a regular file. *)
Inductive node := Dir | File (bytes : list N).

(** The observable effects, each tagged with the line of the script
    that performs it. *)
Inductive event :=
| Print (line : nat) (text : string)
| Makedirs (line : nat) (path : string)
| Imwrite (line : nat) (path : string) (img : ndarray).

Record World := {
  fs : gmap string node;
  log : list event;
  counter : nat;
  rng : N
}.

Definition with_fs (w : World) (f : gmap string node) : World :=
  {| fs := f; log := log w; counter := counter w; rng := rng w |}.
Definition with_log (w : World) (l : list event) : World :=
  {| fs := fs w; log := l; counter := counter w; rng := rng w |}.
Definition with_counter (w : World) (k : nat) : World :=
  {| fs := fs w; log := log w; counter := k; rng := rng w |}.
Definition with_rng (w : World) (r : N) : World :=
  {| fs := fs w; log := log w; counter := counter w; rng := r |}.

(** Computations that read and change the world and may raise.  The
    world survives an exception: what was written stays written. *)
Definition M (A : Type) : Type := World -> (Py.exn + A) * World.

Definition ret {A} (a : A) : M A := fun w => (inr a, w).
Definition raise {A} (e : Py.exn) : M A := fun w => (inl e, w).
Definition bind {A B} (m : M A) (k : A -> M B) : M B :=
  fun w => match m w with
           | (inl e, w') => (inl e, w')
           | (inr a, w') => k a w'
           end.

Notation "'let!' x ':=' m 'in' k" := (bind m (fun x => k))
  (at level 10, x name, m at level 100, k at level 200).
Notation "m1 ';;;' m2" := (bind m1 (fun _ => m2))
  (at level 100, m2 at level 200, right associativity).

(** [for x in xs: body(x)] *)
Fixpoint for_each {A} (xs : list A) (body : A -> M unit) : M unit :=
  match xs with
  | [] => ret tt
  | x :: xs' => body x ;;; for_each xs' body
  end.

(** ** Operating-system and OpenCV calls *)

Module Os.

(** The position after the last slash: [Some (p[:i], p[i:])] with
    [i = p.rfind("/") + 1], [None] when [p] has no slash. *)
Fixpoint cut_last_slash (p : string) : option (string * string) :=
  match p with
  | EmptyString => None
  | String c p' =>
      match cut_last_slash p' with
      | Some (h, t) => Some (String c h, t)
      | None => if Ascii.eqb c "/" then Some ("/", p') else None
      end
  end.

(** [s.rstrip("/")] *)
Fixpoint rstrip_slash (s : string) : string :=
  match s with
  | EmptyString => EmptyString
  | String c s' =>
      match rstrip_slash s' with
      | EmptyString => if Ascii.eqb c "/" then EmptyString else String c EmptyString
      | r => String c r
      end
  end.

(** [os.path.split(p)] of [posixpath]. *)
Definition path_split (p : string) : string * string :=
  match cut_last_slash p with
  | None => ("", p)
  | Some (head, tail) =>
      match rstrip_slash head with
      | EmptyString => (head, tail)
      | stripped => (stripped, tail)
      end
  end.

(** [os.path.exists(p)] *)
Definition exists_ (f : gmap string node) (p : string) : bool :=
  match f !! p with Some _ => true | None => false end.

(** [os.path.isdir(p)] *)
Definition isdir (f : gmap string node) (p : string) : bool :=
  match f !! p with Some Dir => true | _ => false end.

(** [os.mkdir(p)]: the parent must be a directory (the working
    directory, for a bare name) and [p] must be free. *)
Definition mkdir (p : string) (f : gmap string node)
  : (Py.exn + unit) * gmap string node :=
  match f !! p with
  | Some _ => (inl Py.FileExistsError, f)
  | None =>
      let parent := fst (path_split p) in
      if String.eqb parent "" then (inr tt, <[p := Dir]> f)
      else match f !! parent with
           | Some Dir => (inr tt, <[p := Dir]> f)
           | Some (File _) => (inl Py.NotADirectoryError, f)
           | None => (inl Py.FileNotFoundError, f)
           end
  end.

(** The last step of [os.makedirs(name, exist_ok=True)]: [mkdir], whose
    error is swallowed when [name] is a directory afterwards. *)
Definition mkdir_exist_ok (name : string) (f : gmap string node)
  : (Py.exn + unit) * gmap string node :=
  match mkdir name f with
  | (inl e, f') => if isdir f' name then (inr tt, f') else (inl e, f')
  | ok => ok
  end.

(** [os.makedirs(name, exist_ok=True)].  The recursion of the library
    function is on the head of the path, which is shorter than the
    path; [fuel] bounds it by the length of the name. *)
Fixpoint makedirs_rec (fuel : nat) (name : string) (f : gmap string node)
  : (Py.exn + unit) * gmap string node :=
  let '(head, tail) :=
    let '(h, t) := path_split name in
    if String.eqb t "" then path_split h else (h, t) in
  if negb (String.eqb head "") && negb (String.eqb tail "")
     && negb (exists_ f head)
  then
    match fuel with
    | O => mkdir_exist_ok name f
    | S fuel' =>
        match makedirs_rec fuel' head f with
        | (inl Py.FileExistsError, f1) | (inr _, f1) =>
            if String.eqb tail "." then (inr tt, f1) else mkdir_exist_ok name f1
        | (inl e, f1) => (inl e, f1)
        end
    end
  else mkdir_exist_ok name f.

Definition makedirs (name : string) (f : gmap string node)
  : (Py.exn + unit) * gmap string node :=
  makedirs_rec (String.length name) name f.

End Os.

(** [print(text)] at line [line] of the script. *)
Definition print (line : nat) (text : string) : M unit :=
  fun w => (inr tt, with_log w (log w ++ [Print line text])).

(** What [cv2.imread(path, flag)] returns on the file system [f]:
    [None] when there is no regular file at [path] or its content does
    not decode. *)
Definition decoded (E : Externals) (f : gmap string node) (path : string)
    (flag : imread_flag) : option ndarray :=
  match f !! path with
  | Some (File bytes) => imdecode E flag bytes
  | _ => None
  end.

(** [cv2.imread(path, flag)] *)
Definition imread (E : Externals) (path : string) (flag : imread_flag)
  : M (option ndarray) :=
  fun w => (inr (decoded E (fs w) path flag), w).

(** [os.path.exists(path)] *)
Definition path_exists (path : string) : M bool :=
  fun w => (inr (Os.exists_ (fs w) path), w).

(** [os.makedirs(path, exist_ok=True)] at line [line]. *)
Definition makedirs (line : nat) (path : string) : M unit :=
  fun w =>
    let w1 := with_log w (log w ++ [Makedirs line path]) in
    let '(r, f) := Os.makedirs path (fs w) in
    (r, with_fs w1 f).

(** [cv2.imwrite(path, img)] at line [line], its result ignored as the
    script does.  An empty image raises; a path that is a directory
    cannot be opened for writing and the call returns [False] without
    effect; otherwise the file is created or overwritten.  The script
    calls it only after [makedirs] succeeded for the directory. *)
Definition imwrite (E : Externals) (line : nat) (path : string)
    (img : option ndarray) : M unit :=
  fun w =>
    match img with
    | None => (inl Py.Cv2Error, w)
    | Some a =>
        let w1 := with_log w (log w ++ [Imwrite line path a]) in
        (inr tt,
         if Os.isdir (fs w) path then w1
         else with_fs w1 (<[path := File (imencode E path a)]> (fs w)))
    end.

(** [transform(image=image, mask=mask)]: draws from the process-wide
    random generator. *)
Definition apply_transform (E : Externals) (t : transform)
    (image : ndarray) (mask : option ndarray)
  : M (ndarray * option ndarray) :=
  fun w =>
    match call E t (rng w) image mask with
    | inl e => (inl e, w)
    | inr r => (inr r, with_rng w (advance_rng E t (rng w)))
    end.

Definition get_counter : M nat := fun w => (inr (counter w), w).
Definition set_counter (k : nat) : M unit := fun w => (inr tt, with_counter w k).

(** ** The script *)

Definition IMAGE_DIR : string := "X".
Definition MASK_DIR : string := "y".
Definition OUT_IMAGE_ROOT : string := "augmented_x".
Definition OUT_MASK_ROOT : string := "augmented_y".
Definition IMAGE_EXTENSION : string := ".jpg".

Definition TRANSFORMATIONS : list transform := [
  {| class_name := "RandomBrightnessContrast";
     kwargs := [("brightness_limit", Num 0.35); ("contrast_limit", Num 0.35);
                ("brightness_by_max", Flag true); ("p", Num 1.0)] |};
  {| class_name := "Defocus";
     kwargs := [("radius", Range 1 2); ("alias_blur", Range 0.1 0.15);
                ("p", Num 1.0)] |};
  {| class_name := "GlassBlur";
     kwargs := [("sigma", Num 0.1); ("max_delta", Num 1); ("iterations", Num 1);
                ("mode", Str "fast"); ("p", Num 1.0)] |};
  {| class_name := "ISONoise";
     kwargs := [("color_shift", Range 0.02 0.03); ("intensity", Range 0.2 0.3);
                ("p", Num 1.0)] |};
  {| class_name := "ShiftScaleRotate";
     kwargs := [("shift_limit", Num 0.02); ("scale_limit", Num 0.2);
                ("rotate_limit", Num 5);
                ("interpolation", Cv2Const "INTER_LINEAR");
                ("border_mode", Cv2Const "BORDER_CONSTANT");
                ("value", Num 0); ("mask_value", Num 0); ("p", Num 1.0)] |}
].

(** Lines 136-139: the entries of the image directory whose lower-cased
    name ends with the extension, in the order [os.listdir] gave them. *)
Definition image_files (listing : list string) : list string :=
  List.filter (fun f => Py.endswith (Py.lower f) IMAGE_EXTENSION) listing.

(** Line 167: [image_name.split("_")[1].split(".")[0]]. *)
Definition base_id_of (image_name : string) : Py.exn + string :=
  match Py.split "_" image_name !! 1%nat with
  | None => inl Py.IndexError
  | Some segment =>
      match Py.split "." segment !! 0%nat with
      | None => inl Py.IndexError
      | Some id => inr id
      end
  end.

(** Line 168. *)
Definition mask_name_of (base_id : string) : string :=
  "mask_" +:+ base_id +:+ ".png".

(** Lines 192-195. *)
Definition out_image_path (image_name transform_name : string) : string :=
  Py.path_join (Py.path_join OUT_IMAGE_ROOT transform_name)
    (Py.drop_last 4 image_name +:+ "-" +:+ transform_name +:+ ".jpg").

(** Lines 197-200. *)
Definition out_mask_path (base_id transform_name : string) : string :=
  Py.path_join (Py.path_join OUT_MASK_ROOT transform_name)
    ("mask_" +:+ base_id +:+ "-" +:+ transform_name +:+ ".png").

(** Line 206. *)
Definition progress_line (k total : nat) (transform_name : string) : string :=
  "[" +:+ Py.str k +:+ "/" +:+ Py.str total +:+ "] Saved -> " +:+ transform_name.

(** Lines 179-207: the body of the loop over the transforms. *)
Definition augment_with (E : Externals) (total_outputs : nat)
    (image_name base_id : string) (image : ndarray) (mask : option ndarray)
    (t : transform) : M unit :=
  let transform_name := class_name t in
  let out_img_dir := Py.path_join OUT_IMAGE_ROOT transform_name in
  let out_mask_dir := Py.path_join OUT_MASK_ROOT transform_name in
  makedirs 185 out_img_dir ;;;
  makedirs 186 out_mask_dir ;;;
  let! augmented := apply_transform E t image mask in
  imwrite E 203 (out_image_path image_name transform_name)
    (Some (fst augmented)) ;;;
  imwrite E 204 (out_mask_path base_id transform_name) (snd augmented) ;;;
  let! k := get_counter in
  print 206 (progress_line k total_outputs transform_name) ;;;
  set_counter (k + 1).

(** Lines 158-207: the body of the loop over the images.  [continue]
    ends the body normally. *)
Definition process_image (E : Externals) (total_outputs : nat)
    (image_name : string) : M unit :=
  let image_path := Py.path_join IMAGE_DIR image_name in
  let! image := imread E image_path IMREAD_COLOR in
  match image with
  | None => print 162 ("[WARNING] Failed to read image: " +:+ image_name)
  | Some image =>
      match base_id_of image_name with
      | inl e => raise e
      | inr base_id =>
          let mask_name := mask_name_of base_id in
          let mask_path := Py.path_join MASK_DIR mask_name in
          let! found := path_exists mask_path in
          if negb found then print 172 ("[WARNING] Mask not found: " +:+ mask_path)
          else
            let! mask := imread E mask_path IMREAD_GRAYSCALE in
            for_each TRANSFORMATIONS
              (augment_with E total_outputs image_name base_id image mask)
      end
  end.

(** ["-" * n] *)
Fixpoint dashes (n : nat) : string :=
  match n with O => "" | S n' => String "-" (dashes n') end.

Definition newline : string := String (ascii_of_nat 10) "".

(** The whole script, lines 136-210, given the result of
    [os.listdir(IMAGE_DIR)]. *)
Definition main (E : Externals) (listing : list string) : M unit :=
  let image_files := image_files listing in
  let num_images := length image_files in
  let num_augs := length TRANSFORMATIONS in
  let total_outputs := num_images * num_augs in
  print 145 ("Detected images          : " +:+ Py.str num_images) ;;;
  print 146 ("Augmentations per image  : " +:+ Py.str num_augs) ;;;
  print 147 ("Total outputs to be saved: " +:+ Py.str total_outputs) ;;;
  print 148 (dashes 50) ;;;
  set_counter 1 ;;;
  for_each image_files (process_image E total_outputs) ;;;
  print 210 (newline +:+ "✅ Dataset augmentation completed successfully.").

(** The world before the script starts. *)
Definition boot (f : gmap string node) (seed : N) : World :=
  {| fs := f; log := []; counter := 0; rng := seed |}.

(** One run of the script: how it ended and the world it left. *)
Definition run (E : Externals) (listing : list string)
    (f : gmap string node) (seed : N) : (Py.exn + unit) * World :=
  main E listing (boot f seed).

(** ** Observations on a log *)

(** The texts printed at a given line of the script. *)
Definition printed_at (line : nat) (l : list event) : list string :=
  omap (fun e => match e with
                 | Print n text => if Nat.eqb n line then Some text else None
                 | _ => None
                 end) l.

(** Everything printed, in order: standard output. *)
Definition stdout (l : list event) : list string :=
  omap (fun e => match e with Print _ text => Some text | _ => None end) l.

(** The paths and rasters handed to [cv2.imwrite] at a given line. *)
Definition written_at (line : nat) (l : list event) : list (string * ndarray) :=
  omap (fun e => match e with
                 | Imwrite n path img =>
                     if Nat.eqb n line then Some (path, img) else None
                 | _ => None
                 end) l.

(** The paths handed to [cv2.imwrite], in order. *)
Definition written_paths (l : list event) : list string :=
  omap (fun e => match e with Imwrite _ path _ => Some path | _ => None end) l.

(** The directories asked of [os.makedirs], in order. *)
Definition made_dirs (l : list event) : list string :=
  omap (fun e => match e with Makedirs _ path => Some path | _ => None end) l.

(** The names of the transform classes, in list order. *)
Definition transform_names : list string := map class_name TRANSFORMATIONS.

(** The directories the script may create. *)
Definition out_dirs : list string :=
  [OUT_IMAGE_ROOT; OUT_MASK_ROOT]
  ++ map (Py.path_join OUT_IMAGE_ROOT) transform_names
  ++ map (Py.path_join OUT_MASK_ROOT) transform_names.

(** No regular file sits where the script needs a directory. *)
Definition unobstructed (f : gmap string node) : Prop :=
  forall d bytes, In d out_dirs -> f !! d <> Some (File bytes).

(** The mask a transform call hands back for a decoded mask. *)
Definition mask_result (E : Externals) (t : transform) (seed : N)
    (mask : ndarray) : ndarray :=
  match base_class t with
  | ImageOnlyTransform => mask
  | DualTransform => apply_to_mask E t seed mask
  end.

(** The effects of one completed pass of the transform loop body. *)
Definition saved_block (E : Externals) (total : nat) (image_name base_id : string)
    (image mask : ndarray) (t : transform) (k : nat) (seed : N) : list event :=
  [ Makedirs 185 (Py.path_join OUT_IMAGE_ROOT (class_name t));
    Makedirs 186 (Py.path_join OUT_MASK_ROOT (class_name t));
    Imwrite 203 (out_image_path image_name (class_name t))
      (apply_to_image E t seed image);
    Imwrite 204 (out_mask_path base_id (class_name t)) (mask_result E t seed mask);
    Print 206 (progress_line k total (class_name t)) ].

(** The effects of the transform loop over [ts], started with the
    counter at [k] and the random generator at [seed]. *)
Fixpoint saved_blocks (E : Externals) (total : nat) (image_name base_id : string)
    (image mask : ndarray) (ts : list transform) (k : nat) (seed : N)
  : list event :=
  match ts with
  | [] => []
  | t :: ts' =>
      saved_block E total image_name base_id image mask t k seed
      ++ saved_blocks E total image_name base_id image mask ts' (S k)
           (advance_rng E t seed)
  end.

(** ** A small instance of the external interface

    Files hold [h; w; p1; ...; p(h*w)]; anything else does not decode.
    The image operation adds the seed to every sample and the mask
    operation reverses the samples; both keep the shape. *)
Module Toy.

Definition decode (flag : imread_flag) (bytes : list N) : option ndarray :=
  match bytes with
  | h :: w :: px =>
      if Nat.eqb (length px) (N.to_nat h * N.to_nat w) then
        Some match flag with
             | IMREAD_COLOR =>
                 {| shape := [N.to_nat h; N.to_nat w; 3%nat];
                    data := flat_map (fun p => [p; p; p]) px |}
             | IMREAD_GRAYSCALE =>
                 {| shape := [N.to_nat h; N.to_nat w]; data := px |}
             end
      else None
  | _ => None
  end.

Definition encode (path : string) (a : ndarray) : list N :=
  map N.of_nat (shape a) ++ data a.

Definition brighten (t : transform) (seed : N) (a : ndarray) : ndarray :=
  {| shape := shape a; data := map (fun p => ((p + seed) mod 256)%N) (data a) |}.

Definition flip (t : transform) (seed : N) (a : ndarray) : ndarray :=
  {| shape := shape a; data := rev (data a) |}.

Definition externals (strict : bool) : Externals :=
  {| imdecode := decode;
     imencode := encode;
     apply_to_image := brighten;
     apply_to_mask := flip;
     advance_rng := fun _ seed => N.succ seed;
     rejects_none_mask := strict;
     apply_to_image_shape := fun _ _ _ => eq_refl;
     apply_to_mask_shape := fun _ _ _ => eq_refl |}.

(** A 2x2 picture, a 1x1 picture and a file that is no picture. *)
Definition picture_2x2 : node := File [2; 2; 10; 20; 30; 40]%N.
Definition picture_1x1 : node := File [1; 1; 255]%N.
Definition junk : node := File [7]%N.

(** One image with its mask; the same with a mask file that does not
    decode; the same with a mask of another size. *)
Definition paired_fs : gmap string node :=
  {[ "X/image_1.jpg" := picture_2x2; "y/mask_1.png" := picture_2x2 ]}.
Definition junk_mask_fs : gmap string node :=
  {[ "X/image_1.jpg" := picture_2x2; "y/mask_1.png" := junk ]}.
Definition small_mask_fs : gmap string node :=
  {[ "X/image_1.jpg" := picture_2x2; "y/mask_1.png" := picture_1x1 ]}.

(** An image without an underscore in its name, unreadable and
    readable; two images whose names yield the same id. *)
Definition unreadable_photo_fs : gmap string node :=
  {[ "X/photo.jpg" := junk ]}.
Definition photo_fs : gmap string node :=
  {[ "X/photo.jpg" := picture_2x2 ]}.
Definition copies_fs : gmap string node :=
  {[ "X/image_1.jpg" := picture_2x2; "X/image_1_copy.jpg" := picture_1x1;
     "y/mask_1.png" := picture_2x2 ]}.

(** The pair with a regular file named like the image output root; the
    pair listed after a readable image without an underscore. *)
Definition blocked_fs : gmap string node :=
  {[ "X/image_1.jpg" := picture_2x2; "y/mask_1.png" := picture_2x2;
     "augmented_x" := File [] ]}.
Definition photo_first_fs : gmap string node :=
  {[ "X/photo.jpg" := picture_2x2;
     "X/image_1.jpg" := picture_2x2; "y/mask_1.png" := picture_2x2 ]}.

(** The decoded 2x2 picture, in colour and in grayscale. *)
Definition colour_2x2 : ndarray :=
  {| shape := [2; 2; 3]%nat;
     data := [10; 10; 10; 20; 20; 20; 30; 30; 30; 40; 40; 40]%N |}.
Definition gray_2x2 : ndarray :=
  {| shape := [2; 2]%nat; data := [10; 20; 30; 40]%N |}.

End Toy.

(** ** Relations between file systems and between runs *)

(** The first step of [os.makedirs] on a path of two components: the
    directory [root] is created unless something is there. *)
Definition ensure_dir (root : string) (f : gmap string node) : gmap string node :=
  if Os.exists_ f root then f else <[root := Dir]> f.

(** A directory entry name, as [os.listdir] returns them: no slash. *)
Definition entry_name (s : string) : Prop := Py.contains "/" s = false.

(** The paths below the two output roots. *)
Definition under_outputs (p : string) : bool := Py.startswith p "augmented_".

(** The directory above [d] is there (or [d] is a bare name, directly
    in the working directory). *)
Definition parent_ready (F : gmap string node) (d : string) : Prop :=
  fst (Os.path_split d) = "" \/ F !! fst (Os.path_split d) = Some Dir.

(** [F] is what the script can make of [f]: nothing outside the output
    roots changes, a missing output directory may have been created
    below an existing parent, and elsewhere files may have been written
    but no directory was created, removed or replaced. *)
Definition grows (f F : gmap string node) : Prop :=
  (forall q, under_outputs q = false -> F !! q = f !! q)
  /\ (forall d, In d out_dirs ->
        F !! d = f !! d
        \/ (f !! d = None /\ F !! d = Some Dir /\ parent_ready F d))
  /\ (forall q, ~ In q out_dirs ->
        Os.isdir F q = Os.isdir f q /\ (is_Some (f !! q) -> is_Some (F !! q))).

(** An event without the raster it carries. *)
Definition erase (e : event) : event :=
  match e with
  | Imwrite n path _ => Imwrite n path {| shape := []; data := [] |}
  | _ => e
  end.

(** Two worlds at the same point of two runs of the script, the second
    run started on what the first one left. *)
Definition alike (w1 w2 : World) : Prop :=
  grows (fs w1) (fs w2)
  /\ counter w1 = counter w2
  /\ map erase (log w1) = map erase (log w2).

(** Results of two runs that agree on the control flow: the same
    exception, or values related by [Q]. *)
Definition alike_result {A} (Q : A -> A -> Prop) (r1 r2 : Py.exn + A) : Prop :=
  match r1, r2 with
  | inl e1, inl e2 => e1 = e2
  | inr a1, inr a2 => Q a1 a2
  | _, _ => False
  end.

(** [m1] in the first run and [m2] in the second behave alike: same
    outcome, alike worlds afterwards, and the second creates no entry
    that the first did not create. *)
Definition simulates {A} (Q : A -> A -> Prop) (m1 m2 : M A) : Prop :=
  forall w1 w2, alike w1 w2 ->
    alike_result Q (fst (m1 w1)) (fst (m2 w2))
    /\ alike (snd (m1 w1)) (snd (m2 w2))
    /\ dom (fs (snd (m2 w2))) ⊆ dom (fs w2) ∪ dom (fs (snd (m1 w1)))
    /\ dom (fs w1) ⊆ dom (fs (snd (m1 w1))).

(** The progress lines of consecutive saves, the first numbered [k]. *)
Fixpoint numbered (total k : nat) (names : list string) : list string :=
  match names with
  | [] => []
  | T :: names' => progress_line k total T :: numbered total (S k) names'
  end.

(** The effects of a pass of the loop body up to the image write. *)
Definition attempt_events (E : Externals) (image_name : string)
    (image : ndarray) (t : transform) (seed : N) : list event :=
  [ Makedirs 185 (Py.path_join OUT_IMAGE_ROOT (class_name t));
    Makedirs 186 (Py.path_join OUT_MASK_ROOT (class_name t));
    Imwrite 203 (out_image_path image_name (class_name t))
      (apply_to_image E t seed image) ].

(** A path the script may write for the listing: the image or the mask
    output of a discovered image under one of the transforms. *)
Definition output_path (listing : list string) (p : string) : Prop :=
  exists image_name T,
    In image_name (image_files listing) /\ In T transform_names
    /\ (p = out_image_path image_name T
        \/ exists base_id, base_id_of image_name = inr base_id
                           /\ p = out_mask_path base_id T).

(** What a stretch of the run from [w] to [w'] can have done: the file
    system grew, the saves were numbered on from the counter, one
    progress line per mask written, and every write went to an output
    path of the listing. *)
Definition progresses (total : nat) (listing : list string) (w w' : World)
  : Prop :=
  grows (fs w) (fs w')
  /\ exists evs Ts,
      log w' = log w ++ evs
      /\ printed_at 206 evs = numbered total (counter w) Ts
      /\ counter w' = counter w + length Ts
      /\ Forall (fun T => In T transform_names) Ts
      /\ length (written_at 204 evs) = length Ts
      /\ Forall (output_path listing) (written_paths evs).

(** Lines 145-148: the summary printed before the loop. *)
Definition header (listing : list string) : list event :=
  [ Print 145 ("Detected images          : "
               +:+ Py.str (length (image_files listing)));
    Print 146 ("Augmentations per image  : " +:+ Py.str (length TRANSFORMATIONS));
    Print 147 ("Total outputs to be saved: "
               +:+ Py.str (length (image_files listing) * length TRANSFORMATIONS));
    Print 148 (dashes 50) ].

(** The world when the loop over the images starts (line 156). *)
Definition started (listing : list string) (f : gmap string node) (seed : N)
  : World :=
  {| fs := f; log := header listing; counter := 1; rng := seed |}.

(** Line 210. *)
Definition completed : event :=
  Print 210 (newline +:+ "✅ Dataset augmentation completed successfully.").

(** The output paths as the specification writes them. *)
Definition image_output (image_name T : string) : string :=
  "augmented_x/" +:+ T +:+ "/" +:+ Py.drop_last 4 image_name
  +:+ "-" +:+ T +:+ ".jpg".

Definition mask_output (base_id T : string) : string :=
  "augmented_y/" +:+ T +:+ "/" +:+ "mask_" +:+ base_id
  +:+ "-" +:+ T +:+ ".png".

(** ** Concrete runs on the small instance *)
Module Scenario.

Definition first_transform : transform :=
  {| class_name := "RandomBrightnessContrast";
     kwargs := [("brightness_limit", Num 0.35); ("contrast_limit", Num 0.35);
                ("brightness_by_max", Flag true); ("p", Num 1.0)] |}.

(** The pass over the one image of [Toy.paired_fs]. *)
Definition paired_pass : (Py.exn + unit) * World :=
  process_image (Toy.externals false) 5 "image_1.jpg"
    (started ["image_1.jpg"] Toy.paired_fs 0).

(** The run on the mask file that does not decode, with a library that
    hands a [None] mask back. *)
Definition junk_mask_run : (Py.exn + unit) * World :=
  run (Toy.externals false) ["image_1.jpg"] Toy.junk_mask_fs 0.

(** The run on the 2x2 image with the 1x1 mask. *)
Definition small_mask_run : (Py.exn + unit) * World :=
  run (Toy.externals false) ["image_1.jpg"] Toy.small_mask_fs 0.

(** The run on an unreadable image whose name has no underscore. *)
Definition unreadable_photo_run : (Py.exn + unit) * World :=
  run (Toy.externals false) ["photo.jpg"] Toy.unreadable_photo_fs 0.

(** The run on two images whose names yield the id [1]. *)
Definition copies_run : (Py.exn + unit) * World :=
  run (Toy.externals false) ["image_1.jpg"; "image_1_copy.jpg"]
    Toy.copies_fs 0.

(** The run with a regular file in place of the image output root. *)
Definition blocked_run : (Py.exn + unit) * World :=
  run (Toy.externals false) ["image_1.jpg"] Toy.blocked_fs 0.

(** The run that meets a readable image without an underscore first. *)
Definition aborted_run : (Py.exn + unit) * World :=
  run (Toy.externals false) ["photo.jpg"; "image_1.jpg"] Toy.photo_first_fs 0.

End Scenario.

(** ** Skipped images *)

(** The warning event of an image that the loop body skips on the file
    system [f] (lines 161-163 and 171-173); [None] when the body goes
    past both checks or raises. *)
Definition skip_event (E : Externals) (f : gmap string node)
    (image_name : string) : option event :=
  match decoded E f (Py.path_join IMAGE_DIR image_name) IMREAD_COLOR with
  | None =>
      Some (Print 162 ("[WARNING] Failed to read image: " +:+ image_name))
  | Some _ =>
      match base_id_of image_name with
      | inl _ => None
      | inr base_id =>
          if Os.exists_ f (Py.path_join MASK_DIR (mask_name_of base_id))
          then None
          else Some (Print 172
                       ("[WARNING] Mask not found: "
                        +:+ Py.path_join MASK_DIR (mask_name_of base_id)))
      end
  end.

(** An image the loop body can save on the file system [f]: it decodes,
    its name yields an id, and the mask file of that id decodes. *)
Definition saveable (E : Externals) (f : gmap string node)
    (image_name : string) : Prop :=
  exists image base_id m,
    decoded E f (Py.path_join IMAGE_DIR image_name) IMREAD_COLOR = Some image
    /\ base_id_of image_name = inr base_id
    /\ decoded E f (Py.path_join MASK_DIR (mask_name_of base_id))
         IMREAD_GRAYSCALE = Some m.

(** ** What the writes leave on the file system *)

(** The raster of the last [cv2.imwrite] call on the path [p] in a
    log, [None] when the log has no write to [p]. *)
Fixpoint last_written (l : list event) (p : string) : option ndarray :=
  match l with
  | [] => None
  | e :: l' =>
      match last_written l' p with
      | Some a => Some a
      | None =>
          match e with
          | Imwrite _ q a => if String.eqb q p then Some a else None
          | _ => None
          end
      end
  end.

(** The entry at the path [q] once the writes of [evs] were made on
    the file system [f]: a path never written keeps its entry, a
    directory stays (the write fails), and any other path holds the
    encoding of the raster written last. *)
Definition after_writes (E : Externals) (f : gmap string node)
    (evs : list event) (q : string) : option node :=
  match last_written evs q with
  | Some a => if Os.isdir f q then Some Dir else Some (File (imencode E q a))
  | None => f !! q
  end.

(** From [w] to [w'] the log was extended, no write went to a path of
    an output directory, and outside the output directories the file
    system is what the writes make of it. *)
Definition settles (E : Externals) (w w' : World) : Prop :=
  exists evs,
    log w' = log w ++ evs
    /\ Forall (fun p => ~ In p out_dirs) (written_paths evs)
    /\ forall q, ~ In q out_dirs -> fs w' !! q = after_writes E (fs w) evs q.

Definition steady {A} (E : Externals) (m : M A) : Prop :=
  forall w, settles E w (snd (m w)).

(** The states of the random generator at the calls of the transforms
    [ts], the first call made in the state [seed]. *)
Fixpoint seeds (E : Externals) (ts : list transform) (seed : N) : list N :=
  match ts with
  | [] => []
  | t :: ts' => seed :: seeds E ts' (advance_rng E t seed)
  end.

(** No directory sits at an output file path of the image. *)
Definition writable (f : gmap string node) (image_name base_id : string)
  : Prop :=
  Forall (fun T => Os.isdir f (out_image_path image_name T) = false
                   /\ Os.isdir f (out_mask_path base_id T) = false)
    transform_names.

(** The written paths at which a regular file is found on [f]. *)
Definition files_among (f : gmap string node) (paths : list string)
  : list string :=
  List.filter (fun p => match f !! p with Some (File _) => true | _ => false end)
    paths.

(** ** Runs with something in the way *)
Module Obstacle.

(** The pair of [Toy.paired_fs] with a directory where the image output
    of [Defocus] goes. *)
Definition occupied_fs : gmap string node :=
  {[ "X/image_1.jpg" := Toy.picture_2x2; "y/mask_1.png" := Toy.picture_2x2;
     "augmented_x" := Dir; "augmented_x/Defocus" := Dir;
     "augmented_x/Defocus/image_1-Defocus.jpg" := Dir ]}.

Definition occupied_run : (Py.exn + unit) * World :=
  run (Toy.externals false) ["image_1.jpg"] occupied_fs 0.

(** The mask file that does not decode, with a regular file named like
    the image output root. *)
Definition blocked_junk_fs : gmap string node :=
  {[ "X/image_1.jpg" := Toy.picture_2x2; "y/mask_1.png" := Toy.junk;
     "augmented_x" := File [] ]}.

(** The run on it, with a library that rejects a [None] mask or hands
    it back. *)
Definition blocked_junk_run (strict : bool) : (Py.exn + unit) * World :=
  run (Toy.externals strict) ["image_1.jpg"] blocked_junk_fs 0.

End Obstacle.

(** ** The model on concrete inputs *)

Example split_image_1 : Py.split "_" "image_1.jpg" = ["image"; "1.jpg"].
Proof. reflexivity. Qed.
Example split_none : Py.split "_" "photo.jpg" = ["photo.jpg"].
Proof. reflexivity. Qed.
Example split_trailing : Py.split "_" "a_" = ["a"; ""].
Proof. reflexivity. Qed.
Example lower_JPG : Py.lower "IMG_7.JPG" = "img_7.jpg".
Proof. reflexivity. Qed.
Example drop_last_jpg : Py.drop_last 4 "image_1.jpg" = "image_1".
Proof. reflexivity. Qed.
Example join_xy : Py.path_join "X" "image_1.jpg" = "X/image_1.jpg".
Proof. reflexivity. Qed.
Example str_12 : Py.str 120 = "120".
Proof. reflexivity. Qed.
Example path_split_two : Os.path_split "augmented_x/Defocus" = ("augmented_x", "Defocus").
Proof. reflexivity. Qed.
Example path_split_bare : Os.path_split "augmented_x" = ("", "augmented_x").
Proof. reflexivity. Qed.
Example path_split_root : Os.path_split "/usr" = ("/", "usr").
Proof. reflexivity. Qed.
Example makedirs_fresh :
  Os.makedirs "augmented_x/Defocus" ∅
  = (inr tt, <["augmented_x/Defocus" := Dir]> (<["augmented_x" := Dir]> ∅)).
Proof. reflexivity. Qed.
Example makedirs_blocked :
  fst (Os.makedirs "augmented_x/Defocus" {["augmented_x" := File []]})
  = inl Py.NotADirectoryError.
Proof. reflexivity. Qed.
Example makedirs_again :
  Os.makedirs "augmented_x/Defocus"
    (<["augmented_x/Defocus" := Dir]> (<["augmented_x" := Dir]> ∅))
  = (inr tt, <["augmented_x/Defocus" := Dir]> (<["augmented_x" := Dir]> ∅)).
Proof. reflexivity. Qed.
Example base_id_image_1 : base_id_of "image_1.jpg" = inr "1".
Proof. reflexivity. Qed.
Example base_id_photo : base_id_of "photo.jpg" = inl Py.IndexError.
Proof. reflexivity. Qed.
Example discovered_upper_case :
  image_files ["image_1.jpg"; "notes.txt"; "IMAGE_2.JPG"; "jpg"]
  = ["image_1.jpg"; "IMAGE_2.JPG"].
Proof. reflexivity. Qed.
Example out_paths_image_1 :
  out_image_path "image_1.jpg" "Defocus" = "augmented_x/Defocus/image_1-Defocus.jpg"
  /\ out_mask_path "1" "Defocus" = "augmented_y/Defocus/mask_1-Defocus.png".
Proof. split; reflexivity. Qed.
Example paired_run_stdout :
  stdout (log (snd (run (Toy.externals false) ["image_1.jpg"] Toy.paired_fs 0)))
  = [ "Detected images          : 1";
      "Augmentations per image  : 5";
      "Total outputs to be saved: 5";
      "--------------------------------------------------";
      "[1/5] Saved -> RandomBrightnessContrast";
      "[2/5] Saved -> Defocus";
      "[3/5] Saved -> GlassBlur";
      "[4/5] Saved -> ISONoise";
      "[5/5] Saved -> ShiftScaleRotate";
      newline +:+ "✅ Dataset augmentation completed successfully." ].
Proof. vm_compute. reflexivity. Qed.
Example skipped_images_keep_the_total :
  stdout (log (snd (run (Toy.externals false)
                      ["image_1.jpg"; "image_2.jpg"; "image_3.jpg"]
                      (<["X/image_3.jpg" := Toy.picture_2x2]> Toy.paired_fs) 0)))
  = [ "Detected images          : 3";
      "Augmentations per image  : 5";
      "Total outputs to be saved: 15";
      "--------------------------------------------------";
      "[1/15] Saved -> RandomBrightnessContrast";
      "[2/15] Saved -> Defocus";
      "[3/15] Saved -> GlassBlur";
      "[4/15] Saved -> ISONoise";
      "[5/15] Saved -> ShiftScaleRotate";
      "[WARNING] Failed to read image: image_2.jpg";
      "[WARNING] Mask not found: y/mask_3.png";
      newline +:+ "✅ Dataset augmentation completed successfully." ].
Proof. vm_compute. reflexivity. Qed.

(** ** Facts about strings and paths *)

#[local] Arguments String.append !s1 s2 : simpl nomatch.

Section StringFacts.

Lemma append_assoc (a b c : string) : (a +:+ b) +:+ c = a +:+ (b +:+ c).
Proof. induction a as [|x a IH]; simpl; [reflexivity | now rewrite IH]. Qed.

Lemma count_append (sep : ascii) (a b : string) :
  Py.count sep (a +:+ b) = Py.count sep a + Py.count sep b.
Proof. induction a as [|x a IH]; simpl; [reflexivity | rewrite IH; lia]. Qed.

Lemma contains_take (sep : ascii) (n : nat) (s : string) :
  Py.contains sep s = false -> Py.contains sep (Py.take n s) = false.
Proof.
  revert n; induction s as [|c s IH]; intros [|n]; simpl; try reflexivity.
  intros H. apply orb_false_iff in H as [Hc Hs]. rewrite Hc. simpl. now apply IH.
Qed.

Lemma contains_drop_last (sep : ascii) (k : nat) (s : string) :
  Py.contains sep s = false -> Py.contains sep (Py.drop_last k s) = false.
Proof. apply contains_take. Qed.

Lemma startswith_append (a b prefix : string) :
  Py.startswith a prefix = true -> Py.startswith (a +:+ b) prefix = true.
Proof.
  revert a; induction prefix as [|p prefix IH]; intros a; [reflexivity|].
  destruct a as [|c a]; simpl; [discriminate|].
  intros H. apply andb_true_iff in H as [Hc Ha]. rewrite Hc. simpl. now apply IH.
Qed.

(** A relative first part and a second part without a leading slash
    are joined by one slash. *)
Lemma path_join_relative (a b : string) :
  Py.startswith b "/" = false ->
  String.eqb a "" || Py.endswith a "/" = false ->
  Py.path_join a b = a +:+ "/" +:+ b.
Proof. intros Hb Ha. unfold Py.path_join. now rewrite Hb, Ha. Qed.

Lemma startswith_slash_append (a b : string) :
  Py.contains "/" a = false -> Py.startswith b "/" = false ->
  Py.startswith (a +:+ b) "/" = false.
Proof.
  destruct a as [|c a]; [simpl; tauto|].
  change (String c a +:+ b) with (String c (a +:+ b)).
  unfold Py.contains, Py.startswith; fold Py.contains.
  intros H _. apply orb_false_iff in H as [Hc _].
  rewrite Ascii.eqb_sym, Hc. reflexivity.
Qed.

Lemma take_skip (n : nat) (s : string) : Py.take n s +:+ Py.skip n s = s.
Proof.
  revert n; induction s as [|c s IH]; intros [|n]; simpl; try reflexivity.
  now rewrite IH.
Qed.

Lemma length_lower (s : string) : String.length (Py.lower s) = String.length s.
Proof. induction s as [|c s IH]; simpl; [reflexivity | now rewrite IH]. Qed.

Lemma lower_skip (n : nat) (s : string) :
  Py.lower (Py.skip n s) = Py.skip n (Py.lower s).
Proof.
  revert n; induction s as [|c s IH]; intros [|n]; simpl; try reflexivity.
  apply IH.
Qed.

Lemma length_append (a b : string) :
  String.length (a +:+ b) = String.length a + String.length b.
Proof. induction a as [|c a IH]; simpl; [reflexivity | now rewrite IH]. Qed.

Lemma skip_append (a b : string) : Py.skip (String.length a) (a +:+ b) = b.
Proof. induction a as [|c a IH]; simpl; [now destruct b | exact IH]. Qed.

Lemma endswith_suffix (s suffix : string) :
  Py.endswith s suffix = true -> exists prefix, s = prefix +:+ suffix.
Proof.
  induction s as [|c s IH]; cbn [Py.endswith].
  - destruct (String.eqb_spec "" suffix) as [<- | _]; [|discriminate].
    intros _. now exists "".
  - destruct (String.eqb_spec (String c s) suffix) as [<- | _].
    + intros _. now exists "".
    + intros H. destruct (IH H) as [prefix ->]. now exists (String c prefix).
Qed.

(** A discovered name is a stem followed by four characters that spell
    the extension in some case; [name[:-4]] is the stem. *)
Lemma discovered_stem (image_name : string) :
  Py.endswith (Py.lower image_name) ".jpg" = true ->
  image_name
  = Py.drop_last 4 image_name
    +:+ Py.skip (String.length image_name - 4) image_name
  /\ Py.lower (Py.skip (String.length image_name - 4) image_name) = ".jpg".
Proof.
  intros H. split; [unfold Py.drop_last; now rewrite take_skip|].
  apply endswith_suffix in H as [prefix H].
  assert (Hlen : String.length image_name - 4 = String.length prefix).
  { rewrite <- (length_lower image_name), H, length_append. simpl. lia. }
  rewrite Hlen, lower_skip, H. apply skip_append.
Qed.

End StringFacts.

(** ** The paths of the script *)

Section PathFacts.

(** Case analysis on a transform name. *)
Ltac each_name H :=
  unfold transform_names in H; simpl in H;
  repeat (destruct H as [<- | H]; [ | ]); [ .. | destruct H ].

Lemma transform_names_classes (t : transform) :
  In t TRANSFORMATIONS -> In (class_name t) transform_names.
Proof. intros H. unfold transform_names. now apply in_map. Qed.

Lemma out_dir_image (T : string) :
  In T transform_names ->
  Py.path_join OUT_IMAGE_ROOT T = OUT_IMAGE_ROOT +:+ "/" +:+ T.
Proof. intros H. each_name H; reflexivity. Qed.

Lemma out_dir_mask (T : string) :
  In T transform_names ->
  Py.path_join OUT_MASK_ROOT T = OUT_MASK_ROOT +:+ "/" +:+ T.
Proof. intros H. each_name H; reflexivity. Qed.

Lemma out_dirs_image (T : string) :
  In T transform_names -> In (Py.path_join OUT_IMAGE_ROOT T) out_dirs.
Proof.
  intros H. unfold out_dirs. apply in_or_app. right. apply in_or_app. left.
  now apply in_map.
Qed.

Lemma out_dirs_mask (T : string) :
  In T transform_names -> In (Py.path_join OUT_MASK_ROOT T) out_dirs.
Proof.
  intros H. unfold out_dirs. apply in_or_app. right. apply in_or_app. right.
  now apply in_map.
Qed.

(** Case analysis on an output directory. *)
Ltac each_dir H :=
  unfold out_dirs, transform_names in H; simpl in H;
  repeat (destruct H as [<- | H]; [ | ]); [ .. | destruct H ].

Lemma out_dirs_one_slash (d : string) :
  In d out_dirs -> Py.count "/" d <= 1.
Proof. intros H. each_dir H; simpl; lia. Qed.

Lemma out_dirs_under_outputs (d : string) :
  In d out_dirs -> under_outputs d = true.
Proof. intros H. each_dir H; reflexivity. Qed.

(** The parent of an output directory is an output root, and the roots
    are bare names. *)
Lemma out_dirs_parent (d : string) :
  In d out_dirs ->
  fst (Os.path_split d) = ""
  \/ (In (fst (Os.path_split d)) [OUT_IMAGE_ROOT; OUT_MASK_ROOT]
      /\ fst (Os.path_split (fst (Os.path_split d))) = "").
Proof.
  intros H. each_dir H; vm_compute; tauto.
Qed.

Lemma out_image_path_eq (image_name T : string) :
  entry_name image_name -> In T transform_names ->
  out_image_path image_name T
  = Py.path_join OUT_IMAGE_ROOT T +:+ "/"
    +:+ Py.drop_last 4 image_name +:+ "-" +:+ T +:+ ".jpg".
Proof.
  intros Hn HT. unfold out_image_path. apply path_join_relative.
  - apply startswith_slash_append; [now apply contains_drop_last|].
    reflexivity.
  - each_name HT; reflexivity.
Qed.

Lemma out_mask_path_eq (base_id T : string) :
  In T transform_names ->
  out_mask_path base_id T
  = Py.path_join OUT_MASK_ROOT T +:+ "/"
    +:+ "mask_" +:+ base_id +:+ "-" +:+ T +:+ ".png".
Proof.
  intros HT. unfold out_mask_path. apply path_join_relative.
  - reflexivity.
  - each_name HT; reflexivity.
Qed.

Lemma out_image_path_spec (image_name T : string) :
  entry_name image_name -> In T transform_names ->
  out_image_path image_name T = image_output image_name T.
Proof.
  intros Hn HT. rewrite out_image_path_eq, out_dir_image by assumption.
  unfold image_output. now rewrite !append_assoc.
Qed.

Lemma out_mask_path_spec (base_id T : string) :
  In T transform_names -> out_mask_path base_id T = mask_output base_id T.
Proof.
  intros HT. rewrite out_mask_path_eq, out_dir_mask by assumption.
  unfold mask_output. now rewrite !append_assoc.
Qed.

Lemma out_image_path_under (image_name T : string) :
  entry_name image_name -> In T transform_names ->
  under_outputs (out_image_path image_name T) = true.
Proof.
  intros Hn HT. rewrite out_image_path_eq by assumption.
  unfold under_outputs. apply startswith_append.
  each_name HT; reflexivity.
Qed.

Lemma out_mask_path_under (base_id T : string) :
  In T transform_names -> under_outputs (out_mask_path base_id T) = true.
Proof.
  intros HT. rewrite out_mask_path_eq by assumption.
  unfold under_outputs. apply startswith_append.
  each_name HT; reflexivity.
Qed.

Lemma out_image_path_no_dir (image_name T : string) :
  entry_name image_name -> In T transform_names ->
  ~ In (out_image_path image_name T) out_dirs.
Proof.
  intros Hn HT Hin. apply out_dirs_one_slash in Hin.
  rewrite out_image_path_eq in Hin by assumption.
  rewrite !count_append in Hin.
  assert (1 <= Py.count "/" (Py.path_join OUT_IMAGE_ROOT T))
    by (each_name HT; simpl; lia).
  simpl in Hin. lia.
Qed.

Lemma out_mask_path_no_dir (base_id T : string) :
  In T transform_names -> ~ In (out_mask_path base_id T) out_dirs.
Proof.
  intros HT Hin. apply out_dirs_one_slash in Hin.
  rewrite out_mask_path_eq in Hin by assumption.
  rewrite !count_append in Hin.
  assert (1 <= Py.count "/" (Py.path_join OUT_MASK_ROOT T))
    by (each_name HT; simpl; lia).
  simpl in Hin. lia.
Qed.

(** What the script reads lies outside the output roots. *)
Lemma image_path_outside (image_name : string) :
  under_outputs (Py.path_join IMAGE_DIR image_name) = false.
Proof.
  unfold Py.path_join.
  destruct image_name as [|c s]; [reflexivity|].
  unfold Py.startswith at 1.
  destruct (Ascii.eqb_spec "/" c) as [<- | Hc]; simpl; reflexivity.
Qed.

Lemma mask_path_outside (base_id : string) :
  under_outputs (Py.path_join MASK_DIR (mask_name_of base_id)) = false.
Proof. reflexivity. Qed.

End PathFacts.

(** ** Creating directories *)

Section MakedirsFacts.

Implicit Types f F : gmap string node.

(** [os.makedirs] on a path of two components. *)
Lemma makedirs_two_level (root name p : string) f :
  Os.path_split p = (root, name) ->
  Os.path_split root = ("", root) ->
  root <> "" -> name <> "" -> name <> "." ->
  Os.makedirs p f = Os.mkdir_exist_ok p (ensure_dir root f).
Proof.
  intros Hp Hroot Hr Hn Hdot.
  apply String.eqb_neq in Hr, Hn, Hdot.
  unfold Os.makedirs, ensure_dir.
  destruct (String.length p) as [|fuel] eqn:Hlen.
  { destruct p; [|discriminate]. vm_compute in Hp.
    injection Hp as _ <-. discriminate. }
  cbn [Os.makedirs_rec]. rewrite Hp. cbv beta iota. rewrite Hn.
  cbv beta iota. rewrite ?Hn, ?Hr. cbn [negb andb].
  destruct (Os.exists_ f root) eqn:Hex; cbn [negb]; [reflexivity|].
  assert (Hrec : Os.makedirs_rec fuel root f = (inr tt, <[root := Dir]> f)).
  { assert (Hbody : Os.mkdir_exist_ok root f = (inr tt, <[root := Dir]> f)).
    { unfold Os.mkdir_exist_ok, Os.mkdir. unfold Os.exists_ in Hex.
      destruct (f !! root); [discriminate|]. now rewrite Hroot. }
    destruct fuel; cbn [Os.makedirs_rec]; rewrite Hroot; cbv beta iota;
      rewrite Hr; cbv beta iota; rewrite String.eqb_refl; exact Hbody. }
  rewrite Hrec, Hdot. reflexivity.
Qed.

(** [mkdir] with [exist_ok], by cases on what is at the path and at its
    parent. *)
Lemma mkdir_exist_ok_cases (root p : string) f :
  fst (Os.path_split p) = root -> root <> "" ->
  Os.mkdir_exist_ok p f
  = match f !! p with
    | Some Dir => (inr tt, f)
    | Some (File _) => (inl Py.FileExistsError, f)
    | None =>
        match f !! root with
        | Some Dir => (inr tt, <[p := Dir]> f)
        | Some (File _) => (inl Py.NotADirectoryError, f)
        | None => (inl Py.FileNotFoundError, f)
        end
    end.
Proof.
  intros Hp Hr. apply String.eqb_neq in Hr.
  unfold Os.mkdir_exist_ok, Os.mkdir, Os.isdir. rewrite Hp, Hr.
  destruct (f !! p) as [[|b]|] eqn:Hfp; rewrite ?Hfp; try reflexivity.
  destruct (f !! root) as [[|b]|]; rewrite ?Hfp; reflexivity.
Qed.

(** Every output directory below a root splits into the root and a
    transform name. *)
Lemma out_dir_split (root T : string) :
  In root [OUT_IMAGE_ROOT; OUT_MASK_ROOT] -> In T transform_names ->
  Os.path_split (Py.path_join root T) = (root, T)
  /\ Os.path_split root = ("", root)
  /\ root <> "" /\ T <> "" /\ T <> ".".
Proof.
  intros Hr HT. unfold transform_names in HT. simpl in Hr, HT.
  repeat (destruct Hr as [<- | Hr]; [ | ]); [ .. | destruct Hr ];
    repeat (destruct HT as [<- | HT]; [ | ]); try (destruct HT);
    repeat split; try reflexivity; discriminate.
Qed.

Lemma makedirs_out_dir (root T : string) f :
  In root [OUT_IMAGE_ROOT; OUT_MASK_ROOT] -> In T transform_names ->
  Os.makedirs (Py.path_join root T) f
  = let f1 := ensure_dir root f in
    match f1 !! Py.path_join root T with
    | Some Dir => (inr tt, f1)
    | Some (File _) => (inl Py.FileExistsError, f1)
    | None =>
        match f1 !! root with
        | Some Dir => (inr tt, <[Py.path_join root T := Dir]> f1)
        | Some (File _) => (inl Py.NotADirectoryError, f1)
        | None => (inl Py.FileNotFoundError, f1)
        end
    end.
Proof.
  intros Hr HT.
  destruct (out_dir_split root T Hr HT) as (Hp & Hroot & Hne & HTne & Hdot).
  rewrite (makedirs_two_level root T) by assumption.
  apply mkdir_exist_ok_cases; [now rewrite Hp | assumption].
Qed.

End MakedirsFacts.

(** ** How the file system can change *)

Section GrowsFacts.

Implicit Types f F : gmap string node.

Lemma grows_refl f : grows f f.
Proof. repeat split; auto. Qed.

Lemma parent_ready_insert_dir F (x d : string) :
  parent_ready F d -> parent_ready (<[x := Dir]> F) d.
Proof.
  intros [H | H]; [now left | right].
  destruct (decide (x = fst (Os.path_split d))) as [-> | Hne].
  - apply lookup_insert_eq.
  - now rewrite lookup_insert_ne.
Qed.

Lemma parent_ready_write F (q d : string) (bytes : list N) :
  Os.isdir F q = false ->
  parent_ready F d -> parent_ready (<[q := File bytes]> F) d.
Proof.
  intros Hq [H | H]; [now left | right].
  rewrite lookup_insert_ne; [assumption|].
  intros ->. unfold Os.isdir in Hq. now rewrite H in Hq.
Qed.

Lemma grows_trans f g h : grows f g -> grows g h -> grows f h.
Proof.
  intros (A1 & A2 & A3) (B1 & B2 & B3). split; [|split].
  - intros q Hq. now rewrite B1, A1.
  - intros d Hd.
    destruct (B2 d Hd) as [Hb | (Hb1 & Hb2 & Hb3)];
      destruct (A2 d Hd) as [Ha | (Ha1 & Ha2 & Ha3)].
    + left. congruence.
    + right. repeat split; [assumption | congruence |].
      destruct Ha3 as [Hp | Hp]; [now left |].
      destruct (out_dirs_parent d Hd) as [H0 | [Hroot _]]; [now left | right].
      assert (Hin : In (fst (Os.path_split d)) out_dirs).
      { unfold out_dirs. apply in_or_app. now left. }
      destruct (B2 _ Hin) as [Hb' | (Hb' & _)]; congruence.
    + right. repeat split; [congruence | assumption | assumption].
    + congruence.
  - intros q Hq. destruct (A3 q Hq) as [Ha Ha'], (B3 q Hq) as [Hb Hb'].
    split; [congruence | auto].
Qed.

Lemma grows_dom f F : grows f F -> dom f ⊆ dom F.
Proof.
  intros (A1 & A2 & A3) q Hq. apply elem_of_dom in Hq. apply elem_of_dom.
  destruct (under_outputs q) eqn:Hu; [|now rewrite A1].
  destruct (in_dec String.string_dec q out_dirs) as [Hin | Hout].
  - destruct (A2 q Hin) as [-> | (Hn & _)]; [assumption|].
    rewrite Hn in Hq. now destruct Hq.
  - now apply A3.
Qed.

Lemma grows_unobstructed f F : grows f F -> unobstructed f -> unobstructed F.
Proof.
  intros (_ & A2 & _) Hf d bytes Hd HF.
  destruct (A2 d Hd) as [He | (_ & He & _)]; [| congruence].
  rewrite He in HF. now apply (Hf d bytes).
Qed.

Lemma grows_dir_stays f F (d : string) :
  grows f F -> In d out_dirs -> f !! d = Some Dir -> F !! d = Some Dir.
Proof.
  intros (_ & A2 & _) Hd Hf.
  destruct (A2 d Hd) as [-> | (Hn & _)]; congruence.
Qed.

(** Both runs create the directory. *)
Lemma grows_mkdir_both f F (d : string) :
  In d out_dirs -> grows f F -> grows (<[d := Dir]> f) (<[d := Dir]> F).
Proof.
  intros Hd (A1 & A2 & A3). split; [|split].
  - intros q Hq. assert (d <> q).
    { intros ->. rewrite out_dirs_under_outputs in Hq by assumption. discriminate. }
    rewrite !lookup_insert_ne by assumption. now apply A1.
  - intros d' Hd'. destruct (decide (d = d')) as [<- | Hne].
    + left. now rewrite !lookup_insert_eq.
    + rewrite !lookup_insert_ne by assumption.
      destruct (A2 d' Hd') as [H | (H1 & H2 & H3)]; [now left | right].
      repeat split; try assumption. now apply parent_ready_insert_dir.
  - intros q Hq. assert (d <> q) by (intros ->; contradiction).
    unfold Os.isdir. rewrite !lookup_insert_ne by assumption. now apply A3.
Qed.

(** Only the first run creates the directory: the second finds it. *)
Lemma grows_mkdir_left f F (d : string) :
  In d out_dirs -> F !! d = Some Dir -> grows f F -> grows (<[d := Dir]> f) F.
Proof.
  intros Hd HF (A1 & A2 & A3). split; [|split].
  - intros q Hq. assert (d <> q).
    { intros ->. rewrite out_dirs_under_outputs in Hq by assumption. discriminate. }
    rewrite lookup_insert_ne by assumption. now apply A1.
  - intros d' Hd'. destruct (decide (d = d')) as [<- | Hne].
    + left. now rewrite lookup_insert_eq.
    + rewrite lookup_insert_ne by assumption. now apply A2.
  - intros q Hq. assert (d <> q) by (intros ->; contradiction).
    unfold Os.isdir. rewrite lookup_insert_ne by assumption. now apply A3.
Qed.

(** A missing output directory is created below a ready parent. *)
Lemma grows_mkdir f (d : string) :
  In d out_dirs -> f !! d = None -> parent_ready (<[d := Dir]> f) d ->
  grows f (<[d := Dir]> f).
Proof.
  intros Hd Hf Hp. split; [|split].
  - intros q Hq. assert (d <> q).
    { intros ->. rewrite out_dirs_under_outputs in Hq by assumption. discriminate. }
    now rewrite lookup_insert_ne.
  - intros d' Hd'. destruct (decide (d = d')) as [<- | Hne].
    + right. rewrite lookup_insert_eq. auto.
    + left. now rewrite lookup_insert_ne.
  - intros q Hq. assert (d <> q) by (intros ->; contradiction).
    unfold Os.isdir. now rewrite lookup_insert_ne.
Qed.

(** Both runs write the file, possibly with different content. *)
Lemma grows_write_both f F (q : string) (b1 b2 : list N) :
  ~ In q out_dirs -> under_outputs q = true -> Os.isdir F q = false ->
  grows f F -> grows (<[q := File b1]> f) (<[q := File b2]> F).
Proof.
  intros Hq Hu HF (A1 & A2 & A3). split; [|split].
  - intros q' Hq'. assert (q <> q') by (intros ->; congruence).
    rewrite !lookup_insert_ne by assumption. now apply A1.
  - intros d Hd. assert (q <> d) by (intros ->; contradiction).
    rewrite !lookup_insert_ne by assumption.
    destruct (A2 d Hd) as [H' | (H1 & H2 & H3)]; [now left | right].
    repeat split; try assumption. now apply parent_ready_write.
  - intros q' Hq'. unfold Os.isdir. destruct (decide (q = q')) as [<- | Hne].
    + rewrite !lookup_insert_eq. eauto.
    + rewrite !lookup_insert_ne by assumption. now apply A3.
Qed.

Lemma grows_write f (q : string) (bytes : list N) :
  ~ In q out_dirs -> under_outputs q = true -> Os.isdir f q = false ->
  grows f (<[q := File bytes]> f).
Proof.
  intros Hq Hu Hf. split; [|split].
  - intros q' Hq'. assert (q <> q') by (intros ->; congruence).
    now rewrite lookup_insert_ne.
  - intros d Hd. assert (q <> d) by (intros ->; contradiction).
    left. now rewrite lookup_insert_ne.
  - intros q' Hq'. unfold Os.isdir in *. destruct (decide (q = q')) as [<- | Hne].
    + rewrite lookup_insert_eq. destruct (f !! q) as [[|]|]; try discriminate; eauto.
    + now rewrite lookup_insert_ne.
Qed.

End GrowsFacts.

(** ** [os.makedirs] on the output directories *)

Section MakedirsOnOutputs.

Implicit Types f F : gmap string node.

Variables root T : string.
Hypothesis root_ok : In root [OUT_IMAGE_ROOT; OUT_MASK_ROOT].
Hypothesis name_ok : In T transform_names.

Local Abbreviation d := (Py.path_join root T).

Lemma root_in_out_dirs : In root out_dirs.
Proof. unfold out_dirs. apply in_or_app. now left. Qed.

Lemma dir_in_out_dirs : In d out_dirs.
Proof.
  simpl in root_ok. destruct root_ok as [<- | [<- | []]].
  - now apply out_dirs_image.
  - now apply out_dirs_mask.
Qed.

Lemma dir_parent : fst (Os.path_split d) = root /\ root <> "".
Proof.
  destruct (out_dir_split root T root_ok name_ok) as (-> & _ & H & _).
  now split.
Qed.

Lemma root_parent : fst (Os.path_split root) = "".
Proof.
  destruct (out_dir_split root T root_ok name_ok) as (_ & -> & _).
  reflexivity.
Qed.

Lemma ensure_dir_has f : is_Some (ensure_dir root f !! root).
Proof.
  unfold ensure_dir, Os.exists_.
  destruct (f !! root) eqn:H; [rewrite H; eauto|].
  rewrite lookup_insert_eq. eauto.
Qed.

Lemma ensure_dir_grows f : grows f (ensure_dir root f).
Proof.
  unfold ensure_dir, Os.exists_.
  destruct (f !! root) eqn:H; [apply grows_refl|].
  apply grows_mkdir; [apply root_in_out_dirs | assumption |].
  left. apply root_parent.
Qed.

Lemma ensure_dir_alike f F :
  grows f F -> grows (ensure_dir root f) (ensure_dir root F).
Proof.
  intros G. pose proof G as (_ & A2 & _).
  specialize (A2 root root_in_out_dirs).
  unfold ensure_dir, Os.exists_.
  destruct (f !! root) as [x|] eqn:Hf, (F !! root) as [y|] eqn:HF;
    try assumption.
  - destruct A2 as [? | (? & _)]; discriminate.
  - destruct A2 as [? | (_ & A2 & _)]; [discriminate|].
    apply grows_mkdir_left; [apply root_in_out_dirs | congruence | assumption].
  - apply grows_mkdir_both; [apply root_in_out_dirs | assumption].
Qed.

Lemma ensure_dir_dom f F :
  dom (ensure_dir root F) ⊆ dom F ∪ dom (ensure_dir root f).
Proof.
  pose proof (ensure_dir_has f) as Hs. apply elem_of_dom in Hs.
  unfold ensure_dir at 1. destruct (Os.exists_ F root); [set_solver|].
  rewrite dom_insert_L. set_solver.
Qed.

(** Whatever [os.makedirs] does, the file system only grows. *)
Lemma makedirs_out_grows f : grows f (snd (Os.makedirs d f)).
Proof.
  rewrite makedirs_out_dir by assumption. cbv zeta.
  pose proof (ensure_dir_grows f) as G.
  destruct dir_parent as [Hpar Hne].
  destruct (ensure_dir root f !! d) as [[|b]|] eqn:Hd; try exact G.
  destruct (ensure_dir root f !! root) as [[|b]|] eqn:Hr; try exact G.
  simpl. eapply grows_trans; [exact G|].
  apply grows_mkdir; [apply dir_in_out_dirs | assumption |].
  apply parent_ready_insert_dir. right. now rewrite Hpar.
Qed.

(** It succeeds when no regular file is in the way. *)
Lemma makedirs_out_ok f : unobstructed f -> fst (Os.makedirs d f) = inr tt.
Proof.
  intros Hu. rewrite makedirs_out_dir by assumption. cbv zeta.
  pose proof (grows_unobstructed _ _ (ensure_dir_grows f) Hu) as Hu1.
  destruct (ensure_dir root f !! d) as [[|b]|] eqn:Hd; [reflexivity | |].
  { exfalso. exact (Hu1 d b dir_in_out_dirs Hd). }
  destruct (ensure_dir_has f) as [x Hx]. rewrite Hx.
  destruct x as [|b]; [reflexivity|].
  exfalso. exact (Hu1 root b root_in_out_dirs Hx).
Qed.

(** After a successful call the directory is there. *)
Lemma makedirs_out_made f :
  fst (Os.makedirs d f) = inr tt -> snd (Os.makedirs d f) !! d = Some Dir.
Proof.
  rewrite makedirs_out_dir by assumption. cbv zeta.
  destruct (ensure_dir root f !! d) as [[|b]|] eqn:Hd; simpl;
    [now intros _ | discriminate |].
  destruct (ensure_dir root f !! root) as [[|b]|]; simpl; try discriminate.
  intros _. apply lookup_insert_eq.
Qed.

(** The second run meets the outcome of the first. *)
Lemma makedirs_out_alike f F :
  grows f F ->
  fst (Os.makedirs d f) = fst (Os.makedirs d F)
  /\ grows (snd (Os.makedirs d f)) (snd (Os.makedirs d F))
  /\ dom (snd (Os.makedirs d F)) ⊆ dom F ∪ dom (snd (Os.makedirs d f)).
Proof.
  intros G. rewrite !makedirs_out_dir by assumption. cbv zeta.
  pose proof (ensure_dir_alike f F G) as G1.
  pose proof (ensure_dir_dom f F) as Hdom.
  pose proof G1 as (_ & A2 & _).
  pose proof (A2 d dir_in_out_dirs) as Ad.
  pose proof (A2 root root_in_out_dirs) as Ar.
  destruct dir_parent as [Hpar Hne].
  destruct (ensure_dir_has f) as [x Hx].
  set (f1 := ensure_dir root f) in *. set (F1 := ensure_dir root F) in *.
  clearbody f1 F1.
  destruct Ar as [Ar | (Ar & _)]; [|congruence].
  rewrite Hx in Ar.
  destruct (f1 !! d) as [[|b]|] eqn:Hd.
  - destruct Ad as [Ad | (Ad & _)]; [|discriminate]. rewrite Ad. simpl. auto.
  - destruct Ad as [Ad | (Ad & _)]; [|discriminate]. rewrite Ad. simpl. auto.
  - destruct Ad as [Ad | (_ & Ad & Hready)].
    + rewrite Ad, Hx, Ar. destruct x as [|b]; simpl; auto.
      split; [reflexivity|]. split.
      * apply grows_mkdir_both; [apply dir_in_out_dirs | assumption].
      * rewrite !dom_insert_L. set_solver.
    + rewrite Ad. destruct Hready as [H0 | Hready]; [congruence|].
      rewrite Hpar, Ar in Hready. injection Hready as ->.
      rewrite Hx. simpl. split; [reflexivity|]. split.
      * apply grows_mkdir_left; [apply dir_in_out_dirs | assumption | assumption].
      * rewrite dom_insert_L. set_solver.
Qed.

End MakedirsOnOutputs.

(** ** Ensuring an output directory *)

Section EnsureOutputDirectory.

Variables root T : string.
Hypothesis root_ok : In root [OUT_IMAGE_ROOT; OUT_MASK_ROOT].
Hypothesis name_ok : In T transform_names.

Local Abbreviation d := (Py.path_join root T).

Lemma dir_is_not_root : d <> root.
Proof.
  intros Heq.
  destruct (out_dir_split root T root_ok name_ok) as (Hs & Hs' & Hne & _).
  rewrite Heq, Hs' in Hs. injection Hs as H1 H2. congruence.
Qed.

(** Whatever was there stays as it was. *)
Lemma makedirs_out_extends (f : gmap string node) (p : string) (x : node) :
  f !! p = Some x -> snd (Os.makedirs d f) !! p = Some x.
Proof.
  intros Hp. rewrite makedirs_out_dir by assumption. cbv zeta.
  assert (H1 : ensure_dir root f !! p = Some x).
  { unfold ensure_dir, Os.exists_. destruct (f !! root) eqn:Hroot; [exact Hp|].
    rewrite lookup_insert_ne; [exact Hp | congruence]. }
  destruct (ensure_dir root f !! d) as [[|b]|] eqn:Hd; cbn [snd]; try exact H1.
  destruct (ensure_dir root f !! root) as [[|b]|]; cbn [snd]; try exact H1.
  rewrite lookup_insert_ne; [exact H1 | congruence].
Qed.

(** After a success the output root is there as well. *)
Lemma makedirs_out_root (f : gmap string node) :
  is_Some (snd (Os.makedirs d f) !! root).
Proof.
  rewrite makedirs_out_dir by assumption. cbv zeta.
  destruct (ensure_dir_has root f) as [y Hy].
  destruct (ensure_dir root f !! d) as [[|b]|]; cbn [snd]; eauto.
  rewrite Hy. destruct y; cbn [snd]; eauto.
  rewrite lookup_insert_ne by (intros Heq; now apply dir_is_not_root).
  eauto.
Qed.

Lemma makedirs_out_again (f : gmap string node) :
  fst (Os.makedirs d f) = inr tt ->
  Os.makedirs d (snd (Os.makedirs d f)) = (inr tt, snd (Os.makedirs d f)).
Proof.
  intros Hok.
  pose proof (makedirs_out_made root T root_ok name_ok f Hok) as Hmade.
  destruct (makedirs_out_root f) as [y Hy].
  rewrite (makedirs_out_dir root T (snd (Os.makedirs d f)) root_ok name_ok).
  cbv zeta.
  assert (He : ensure_dir root (snd (Os.makedirs d f)) = snd (Os.makedirs d f)).
  { unfold ensure_dir, Os.exists_. now rewrite Hy. }
  rewrite He, Hmade. reflexivity.
Qed.

Lemma makedirs_out_ok_iff (f : gmap string node) :
  fst (Os.makedirs d f) = inr tt
  <-> ~ (exists bytes, f !! d = Some (File bytes))
      /\ ~ (f !! d = None /\ exists bytes, f !! root = Some (File bytes)).
Proof.
  rewrite makedirs_out_dir by assumption. cbv zeta.
  unfold ensure_dir, Os.exists_.
  assert (Hrd : root <> d) by (intros Heq; now apply dir_is_not_root).
  destruct (f !! root) as [[|b]|] eqn:Hroot; cbv beta iota;
    rewrite ?(lookup_insert_ne f root d Dir Hrd);
    destruct (f !! d) as [[|b']|] eqn:Hd;
    rewrite ?Hroot, ?lookup_insert_eq; cbn [fst];
    (split;
     [ intros H; split; [intros [? ?] | intros [? [? ?]]]; congruence
     | intros [H1 H2];
       first [ reflexivity
             | solve [exfalso; apply H1; eauto]
             | solve [exfalso; apply H2; split; eauto] ] ]).
Qed.

(** Only the root and the directory itself can change. *)
Lemma makedirs_out_frame (f : gmap string node) (q : string) :
  q <> root -> q <> d -> snd (Os.makedirs d f) !! q = f !! q.
Proof.
  intros Hr Hd. rewrite makedirs_out_dir by assumption. cbv zeta.
  assert (H1 : ensure_dir root f !! q = f !! q).
  { unfold ensure_dir. destruct (Os.exists_ f root); [reflexivity|].
    now rewrite lookup_insert_ne. }
  destruct (ensure_dir root f !! d) as [[|b]|]; cbn [snd]; try exact H1.
  destruct (ensure_dir root f !! root) as [[|b]|]; cbn [snd]; try exact H1.
  now rewrite lookup_insert_ne.
Qed.

End EnsureOutputDirectory.

(** ** Running the operations *)

Ltac world_simpl :=
  cbn [fst snd fs log counter rng with_rng with_fs with_log with_counter].

Section Operations.

Context (E : Externals).

Lemma bind_run {A B} (m : M A) (k : A -> M B) (w : World) :
  bind m k w = match m w with
               | (inl e, w') => (inl e, w')
               | (inr a, w') => k a w'
               end.
Proof. reflexivity. Qed.

Lemma makedirs_run (line : nat) (d : string) (w : World) :
  makedirs line d w
  = (fst (Os.makedirs d (fs w)),
     {| fs := snd (Os.makedirs d (fs w));
        log := log w ++ [Makedirs line d];
        counter := counter w; rng := rng w |}).
Proof. unfold makedirs. now destruct (Os.makedirs d (fs w)). Qed.

Lemma imwrite_run (line : nat) (p : string) (a : ndarray) (w : World) :
  imwrite E line p (Some a) w
  = (inr tt,
     {| fs := if Os.isdir (fs w) p then fs w
              else <[p := File (imencode E p a)]> (fs w);
        log := log w ++ [Imwrite line p a];
        counter := counter w; rng := rng w |}).
Proof. unfold imwrite. now destruct (Os.isdir (fs w) p). Qed.

Lemma imwrite_grows (p : string) (a : ndarray) (f : gmap string node) :
  ~ In p out_dirs -> under_outputs p = true ->
  grows f (if Os.isdir f p then f else <[p := File (imencode E p a)]> f).
Proof.
  intros Hp Hu. destruct (Os.isdir f p) eqn:Hd; [apply grows_refl|].
  now apply grows_write.
Qed.

Lemma apply_transform_some (t : transform) (image m : ndarray) (w : World) :
  apply_transform E t image (Some m) w
  = (inr (apply_to_image E t (rng w) image, Some (mask_result E t (rng w) m)),
     with_rng w (advance_rng E t (rng w))).
Proof. reflexivity. Qed.

Lemma apply_transform_none (t : transform) (image : ndarray) (w : World) :
  apply_transform E t image None w
  = if rejects_none_mask E then (inl Py.TransformError, w)
    else (inr (apply_to_image E t (rng w) image, None),
          with_rng w (advance_rng E t (rng w))).
Proof.
  unfold apply_transform, call. now destruct (rejects_none_mask E).
Qed.

Lemma imwrite_present (p : string) (bytes : list N) (f : gmap string node) :
  is_Some ((if Os.isdir f p then f else <[p := File bytes]> f) !! p).
Proof.
  unfold Os.isdir. destruct (f !! p) as [[|b]|] eqn:H.
  - rewrite H. eauto.
  - rewrite lookup_insert_eq. eauto.
  - rewrite lookup_insert_eq. eauto.
Qed.

Lemma grows_present (f F : gmap string node) (p : string) :
  grows f F -> is_Some (f !! p) -> is_Some (F !! p).
Proof.
  intros G H. apply elem_of_dom. apply (grows_dom _ _ G). now apply elem_of_dom.
Qed.

Lemma grows_decoded (f F : gmap string node) (p : string) (flag : imread_flag) :
  grows f F -> under_outputs p = false ->
  decoded E F p flag = decoded E f p flag
  /\ Os.exists_ F p = Os.exists_ f p.
Proof.
  intros (A1 & _) Hp. unfold decoded, Os.exists_. now rewrite (A1 p Hp).
Qed.

Lemma printed_at_app (line : nat) (a b : list event) :
  printed_at line (a ++ b) = printed_at line a ++ printed_at line b.
Proof. apply omap_app. Qed.

Lemma stdout_app (a b : list event) : stdout (a ++ b) = stdout a ++ stdout b.
Proof. apply omap_app. Qed.

Lemma written_at_app (line : nat) (a b : list event) :
  written_at line (a ++ b) = written_at line a ++ written_at line b.
Proof. apply omap_app. Qed.

Lemma written_paths_app (a b : list event) :
  written_paths (a ++ b) = written_paths a ++ written_paths b.
Proof. apply omap_app. Qed.

Lemma made_dirs_app (a b : list event) :
  made_dirs (a ++ b) = made_dirs a ++ made_dirs b.
Proof. apply omap_app. Qed.

Lemma numbered_app (total k : nat) (a b : list string) :
  numbered total k (a ++ b)
  = numbered total k a ++ numbered total (k + length a) b.
Proof.
  revert k; induction a as [|T a IH]; intros k; simpl.
  - now rewrite Nat.add_0_r.
  - rewrite IH. do 3 f_equal. lia.
Qed.

End Operations.

(** ** Stretches of a run *)

Section Progress.

Variables (total : nat) (listing : list string).

Lemma progresses_refl (w : World) : progresses total listing w w.
Proof.
  split; [apply grows_refl|]. exists [], []. simpl.
  rewrite app_nil_r, Nat.add_0_r. repeat split; constructor.
Qed.

Lemma progresses_trans (w1 w2 w3 : World) :
  progresses total listing w1 w2 -> progresses total listing w2 w3 ->
  progresses total listing w1 w3.
Proof.
  intros (G1 & evs1 & Ts1 & L1 & P1 & C1 & N1 & W1 & O1)
         (G2 & evs2 & Ts2 & L2 & P2 & C2 & N2 & W2 & O2).
  split; [eapply grows_trans; eassumption|].
  exists (evs1 ++ evs2), (Ts1 ++ Ts2). repeat split.
  - rewrite L2, L1. now rewrite app_assoc.
  - rewrite printed_at_app, numbered_app, P1, P2, C1. reflexivity.
  - rewrite C2, C1, length_app. lia.
  - apply Forall_app. now split.
  - rewrite written_at_app, !length_app. lia.
  - rewrite written_paths_app. apply Forall_app. now split.
Qed.

(** A step that only prints somewhere else than line 206. *)
Lemma progresses_print (line : nat) (text : string) (w : World) :
  line <> 206%nat -> progresses total listing w (snd (print line text w)).
Proof.
  intros Hl. split; [apply grows_refl|]. exists [Print line text], [].
  unfold print. world_simpl. cbn.
  apply Nat.eqb_neq in Hl. rewrite Hl, Nat.add_0_r.
  repeat split; constructor.
Qed.

Lemma for_each_progresses {A} (xs : list A) (body : A -> M unit) :
  (forall x w, In x xs -> progresses total listing w (snd (body x w))) ->
  forall w, progresses total listing w (snd (for_each xs body w)).
Proof.
  induction xs as [|x xs IH]; intros Hbody w; simpl.
  - apply progresses_refl.
  - rewrite bind_run. specialize (Hbody x w) as Hx.
    destruct (body x w) as [[e|[]] w1]; simpl in *.
    + apply Hx. now left.
    + eapply progresses_trans; [apply Hx; now left|].
      apply IH. intros y w' Hy. apply Hbody. now right.
Qed.

End Progress.

(** ** The loop over the transforms *)

Section TransformLoop.

Context (E : Externals).
Variables (total : nat) (image_name base_id : string) (image : ndarray).
Hypothesis name_ok : entry_name image_name.

Let in_image_root : In OUT_IMAGE_ROOT [OUT_IMAGE_ROOT; OUT_MASK_ROOT].
Proof. simpl; auto. Qed.
Let in_mask_root : In OUT_MASK_ROOT [OUT_IMAGE_ROOT; OUT_MASK_ROOT].
Proof. simpl; auto. Qed.

(** One pass of the loop body: either it completes, with the five
    effects of a save, or it raises after at most the image write. *)
Lemma augment_with_summary (mask : option ndarray) (t : transform) (w : World) :
  In t TRANSFORMATIONS ->
  let out := augment_with E total image_name base_id image mask t w in
  grows (fs w) (fs (snd out))
  /\ ((fst out = inr tt
       /\ exists m, mask = Some m
          /\ log (snd out)
             = log w ++ saved_block E total image_name base_id image m t
                          (counter w) (rng w)
          /\ counter (snd out) = S (counter w)
          /\ rng (snd out) = advance_rng E t (rng w)
          /\ is_Some (fs (snd out) !! out_image_path image_name (class_name t))
          /\ is_Some (fs (snd out) !! out_mask_path base_id (class_name t)))
      \/ (exists e j, fst out = inl e
          /\ 0 < j <= 3
          /\ log (snd out)
             = log w ++ firstn j (attempt_events E image_name image t (rng w))
          /\ counter (snd out) = counter w
          /\ (mask <> None -> j <= 2 /\ ~ unobstructed (fs w)))).
Proof.
  intros Ht. pose proof (transform_names_classes t Ht) as HT.
  pose proof (makedirs_out_grows _ _ in_image_root HT (fs w)) as G1.
  pose proof (makedirs_out_ok _ _ in_image_root HT (fs w)) as K1.
  cbv zeta. unfold augment_with, attempt_events, saved_block.
  rewrite bind_run, makedirs_run.
  destruct (Os.makedirs (Py.path_join OUT_IMAGE_ROOT (class_name t)) (fs w))
    as [[e1|[]] f1]; cbn [fst snd] in *.
  { split; [exact G1|]. right. exists e1, 1%nat. cbn.
    repeat split; auto; try lia. intros Hu. now specialize (K1 Hu). }
  pose proof (makedirs_out_grows _ _ in_mask_root HT f1) as G2.
  pose proof (makedirs_out_ok _ _ in_mask_root HT f1) as K2.
  rewrite bind_run, makedirs_run. cbn [fs log counter rng].
  destruct (Os.makedirs (Py.path_join OUT_MASK_ROOT (class_name t)) f1)
    as [[e2|[]] f2]; cbn [fst snd fs log counter rng] in *.
  { split; [eapply grows_trans; eassumption|]. right. exists e2, 2%nat.
    cbn. rewrite <- app_assoc. repeat split; auto; try lia.
    intros Hu. apply (grows_unobstructed _ _ G1) in Hu. now specialize (K2 Hu). }
  assert (G12 : grows (fs w) f2) by (eapply grows_trans; eassumption).
  pose proof (imwrite_grows E _ (apply_to_image E t (rng w) image) f2
                (out_image_path_no_dir _ _ name_ok HT)
                (out_image_path_under _ _ name_ok HT)) as G3.
  set (f3 := if Os.isdir f2 (out_image_path image_name (class_name t))
             then f2 else _) in G3.
  destruct mask as [m|].
  - pose proof (imwrite_grows E _ (mask_result E t (rng w) m) f3
                  (out_mask_path_no_dir base_id _ HT)
                  (out_mask_path_under base_id _ HT)) as G4.
    rewrite bind_run, apply_transform_some.
    world_simpl. rewrite bind_run, imwrite_run. world_simpl. fold f3.
    rewrite bind_run, imwrite_run. world_simpl.
    unfold get_counter, print, set_counter. rewrite !bind_run. world_simpl.
    split.
    + eapply grows_trans; [exact G12|]. eapply grows_trans; [exact G3|].
      exact G4.
    + left. split; [reflexivity|]. exists m.
      split; [reflexivity|]. split; [now rewrite <- !app_assoc|].
      split; [lia|]. split; [reflexivity|]. split.
      * apply (grows_present _ _ _ G4). apply imwrite_present.
      * apply imwrite_present.
  - rewrite bind_run, apply_transform_none.
    destruct (rejects_none_mask E); world_simpl.
    + split; [exact G12|]. right. exists Py.TransformError, 2%nat.
      cbn. rewrite <- app_assoc. repeat split; auto; try lia; congruence.
    + rewrite bind_run, imwrite_run. world_simpl. fold f3.
      rewrite bind_run. unfold imwrite at 1. world_simpl.
      split; [eapply grows_trans; eassumption|].
      right. exists Py.Cv2Error, 3%nat.
      cbn. rewrite <- !app_assoc. repeat split; auto; try lia; congruence.
Qed.

(** The loop body on a mask that did not decode, with the output
    directories free: both directories are made, then the call raises,
    in the transform or in the mask write. *)
Lemma augment_with_none (t : transform) (w : World) :
  In t TRANSFORMATIONS -> unobstructed (fs w) ->
  let out := augment_with E total image_name base_id image None t w in
  exists e j,
    fst out = inl e
    /\ ((rejects_none_mask E = true /\ e = Py.TransformError /\ j = 2%nat)
        \/ (rejects_none_mask E = false /\ e = Py.Cv2Error /\ j = 3%nat))
    /\ log (snd out)
       = log w ++ firstn j (attempt_events E image_name image t (rng w))
    /\ fs (snd out) !! Py.path_join OUT_IMAGE_ROOT (class_name t) = Some Dir
    /\ fs (snd out) !! Py.path_join OUT_MASK_ROOT (class_name t) = Some Dir
    /\ counter (snd out) = counter w.
Proof.
  intros Ht Hu. pose proof (transform_names_classes t Ht) as HT.
  pose proof (makedirs_out_grows _ _ in_image_root HT (fs w)) as G1.
  pose proof (makedirs_out_ok _ _ in_image_root HT (fs w) Hu) as K1.
  pose proof (makedirs_out_made _ _ in_image_root HT (fs w) K1) as D1.
  cbv zeta. unfold augment_with, attempt_events.
  rewrite bind_run, makedirs_run.
  destruct (Os.makedirs (Py.path_join OUT_IMAGE_ROOT (class_name t)) (fs w))
    as [r1 f1]; cbn [fst snd] in *. subst r1.
  apply (grows_unobstructed _ _ G1) in Hu.
  pose proof (makedirs_out_grows _ _ in_mask_root HT f1) as G2.
  pose proof (makedirs_out_ok _ _ in_mask_root HT f1 Hu) as K2.
  pose proof (makedirs_out_made _ _ in_mask_root HT f1 K2) as D2.
  rewrite bind_run, makedirs_run. cbn [fs log counter rng].
  destruct (Os.makedirs (Py.path_join OUT_MASK_ROOT (class_name t)) f1)
    as [r2 f2]; cbn [fst snd fs log counter rng] in *. subst r2.
  apply (grows_dir_stays _ _ _ G2 (out_dirs_image _ HT)) in D1.
  pose proof (imwrite_grows E _ (apply_to_image E t (rng w) image) f2
                (out_image_path_no_dir _ _ name_ok HT)
                (out_image_path_under _ _ name_ok HT)) as G3.
  set (f3 := if Os.isdir f2 (out_image_path image_name (class_name t))
             then f2 else _) in G3.
  rewrite bind_run, apply_transform_none.
  destruct (rejects_none_mask E); world_simpl.
  - exists Py.TransformError, 2%nat. cbn. rewrite <- app_assoc.
    repeat split; auto.
  - rewrite bind_run, imwrite_run. world_simpl. fold f3.
    rewrite bind_run. unfold imwrite at 1. world_simpl.
    exists Py.Cv2Error, 3%nat. cbn. rewrite <- !app_assoc.
    repeat split; auto.
    + exact (grows_dir_stays _ _ _ G3 (out_dirs_image _ HT) D1).
    + exact (grows_dir_stays _ _ _ G3 (out_dirs_mask _ HT) D2).
Qed.

(** With a decoded mask and the output directories free, the loop runs
    through and leaves exactly the effects of its saves. *)
Lemma transform_loop_ok (m : ndarray) (ts : list transform) :
  (forall t, In t ts -> In t TRANSFORMATIONS) ->
  forall w, unobstructed (fs w) ->
  let out := for_each ts
               (augment_with E total image_name base_id image (Some m)) w in
  fst out = inr tt
  /\ log (snd out)
     = log w ++ saved_blocks E total image_name base_id image m ts
                  (counter w) (rng w)
  /\ counter (snd out) = counter w + length ts
  /\ grows (fs w) (fs (snd out))
  /\ Forall (fun t => is_Some (fs (snd out)
                                !! out_image_path image_name (class_name t))
                      /\ is_Some (fs (snd out)
                                   !! out_mask_path base_id (class_name t))) ts.
Proof.
  induction ts as [|t ts IH]; intros Hts w Hu; cbv zeta; simpl.
  - rewrite app_nil_r, Nat.add_0_r. do 3 (split; [reflexivity|]).
    split; [apply grows_refl | constructor].
  - rewrite bind_run.
    destruct (augment_with_summary (Some m) t w (Hts t (or_introl eq_refl)))
      as [G [(R & m' & Hm & L & C & S & P1 & P2)
            | (e & j & _ & _ & _ & _ & Hno)]].
    2:{ destruct Hno as [_ Hno]; [discriminate | contradiction]. }
    injection Hm as <-.
    destruct (augment_with E total image_name base_id image (Some m) t w)
      as [r w1]; simpl in *. subst r.
    destruct (IH (fun t' H => Hts t' (or_intror H)) w1
                (grows_unobstructed _ _ G Hu)) as (R' & L' & C' & G' & F').
    split; [|split; [|split; [|split]]].
    + exact R'.
    + rewrite L', L, C, S. now rewrite <- app_assoc.
    + rewrite C', C. lia.
    + eapply grows_trans; eassumption.
    + constructor; [|exact F'].
      split; eapply grows_present; eassumption.
Qed.

(** Conversely, a loop that runs through had a decoded mask and left
    exactly the effects of its saves. *)
Lemma transform_loop_returns (mask : option ndarray) (ts : list transform) :
  (forall t, In t ts -> In t TRANSFORMATIONS) -> ts <> [] ->
  forall w,
  let out := for_each ts (augment_with E total image_name base_id image mask) w in
  fst out = inr tt ->
  exists m, mask = Some m
    /\ log (snd out)
       = log w ++ saved_blocks E total image_name base_id image m ts
                    (counter w) (rng w)
    /\ counter (snd out) = counter w + length ts.
Proof.
  induction ts as [|t ts IH]; intros Hts Hne w; [contradiction|].
  cbv zeta. cbn [for_each]. rewrite bind_run.
  destruct (augment_with_summary mask t w (Hts t (or_introl eq_refl)))
    as [_ [(R & m & Hm & L & C & S & _) | (e & j & R & _)]];
    destruct (augment_with E total image_name base_id image mask t w)
      as [r w1]; cbn [fst snd] in *; subst r; [|discriminate].
  intros Hout. exists m. split; [exact Hm|].
  destruct ts as [|t' ts].
  - cbn [for_each saved_blocks length]. unfold ret. cbn [fst snd].
    rewrite app_nil_r. split; [exact L | lia].
  - destruct (IH (fun x H => Hts x (or_intror H)) ltac:(discriminate) w1 Hout)
      as (m' & Hm' & L' & C').
    assert (m' = m) by congruence. subst m'.
    split.
    + rewrite L', L, C, S. now rewrite <- app_assoc.
    + rewrite C', C. cbn [length]. lia.
Qed.

Variable listing : list string.
Hypothesis discovered : In image_name (image_files listing).
Hypothesis id_ok : base_id_of image_name = inr base_id.

Lemma augment_with_progresses (mask : option ndarray) (t : transform) (w : World) :
  In t TRANSFORMATIONS ->
  progresses total listing w
    (snd (augment_with E total image_name base_id image mask t w)).
Proof.
  intros Ht. pose proof (transform_names_classes t Ht) as HT.
  assert (Himg : output_path listing (out_image_path image_name (class_name t))).
  { exists image_name, (class_name t). auto. }
  assert (Hmask : output_path listing (out_mask_path base_id (class_name t))).
  { exists image_name, (class_name t). repeat split; auto. right. eauto. }
  destruct (augment_with_summary mask t w Ht)
    as [G [(R & m & Hm & L & C & S & _) | (e & j & _ & Hj & L & C & _)]].
  - split; [exact G|].
    exists (saved_block E total image_name base_id image m t (counter w) (rng w)),
           [class_name t].
    cbn. repeat split; auto; try lia; repeat constructor; auto.
  - split; [exact G|].
    exists (firstn j (attempt_events E image_name image t (rng w))), [].
    rewrite Nat.add_0_r.
    destruct j as [|[|[|[|j]]]]; try lia; cbn; repeat split; auto;
      repeat constructor; auto.
Qed.

Lemma transform_loop_progresses (mask : option ndarray) (w : World) :
  progresses total listing w
    (snd (for_each TRANSFORMATIONS
            (augment_with E total image_name base_id image mask) w)).
Proof.
  apply for_each_progresses. intros t w' Ht. now apply augment_with_progresses.
Qed.

End TransformLoop.

(** ** What the saves of one image look like *)

Section SavedBlocks.

Context (E : Externals).
Variables (total : nat) (image_name base_id : string) (image mask : ndarray).

Local Abbreviation blocks :=
  (saved_blocks E total image_name base_id image mask).

Lemma blocks_image_writes (ts : list transform) (k : nat) (seed : N) :
  map fst (written_at 203 (blocks ts k seed))
  = map (fun t => out_image_path image_name (class_name t)) ts.
Proof.
  revert k seed; induction ts as [|t ts IH]; intros k seed; [reflexivity|].
  cbn [saved_blocks]. rewrite written_at_app, map_app, IH. reflexivity.
Qed.

Lemma blocks_mask_writes (ts : list transform) (k : nat) (seed : N) :
  map fst (written_at 204 (blocks ts k seed))
  = map (fun t => out_mask_path base_id (class_name t)) ts.
Proof.
  revert k seed; induction ts as [|t ts IH]; intros k seed; [reflexivity|].
  cbn [saved_blocks]. rewrite written_at_app, map_app, IH. reflexivity.
Qed.

Lemma blocks_written_paths (ts : list transform) (k : nat) (seed : N) :
  written_paths (blocks ts k seed)
  = flat_map (fun t => [out_image_path image_name (class_name t);
                        out_mask_path base_id (class_name t)]) ts.
Proof.
  revert k seed; induction ts as [|t ts IH]; intros k seed; [reflexivity|].
  cbn [saved_blocks]. rewrite written_paths_app, IH. reflexivity.
Qed.

Lemma blocks_made_dirs (ts : list transform) (k : nat) (seed : N) :
  made_dirs (blocks ts k seed)
  = flat_map (fun t => [Py.path_join OUT_IMAGE_ROOT (class_name t);
                        Py.path_join OUT_MASK_ROOT (class_name t)]) ts.
Proof.
  revert k seed; induction ts as [|t ts IH]; intros k seed; [reflexivity|].
  cbn [saved_blocks]. rewrite made_dirs_app, IH. reflexivity.
Qed.

Lemma blocks_progress (ts : list transform) (k : nat) (seed : N) :
  stdout (blocks ts k seed) = numbered total k (map class_name ts)
  /\ printed_at 206 (blocks ts k seed) = numbered total k (map class_name ts).
Proof.
  revert k seed; induction ts as [|t ts IH]; intros k seed; [now split|].
  cbn [saved_blocks]. rewrite stdout_app, printed_at_app.
  destruct (IH (S k) (advance_rng E t seed)) as [-> ->]. now split.
Qed.

End SavedBlocks.

(** ** The loop over the images *)

Section BaseId.

Lemma split_head (sep : ascii) (s : string) :
  exists h t, Py.split sep s = h :: t.
Proof.
  induction s as [|c s (h & t & IH)]; simpl; [eauto|].
  destruct (Ascii.eqb c sep); [eauto|]. rewrite IH. eauto.
Qed.

Lemma split_second (sep : ascii) (s : string) :
  Py.contains sep s = false <-> Py.split sep s !! 1%nat = None.
Proof.
  induction s as [|c s IH]; simpl; [tauto|].
  destruct (Ascii.eqb c sep); simpl.
  - destruct (split_head sep s) as (h & t & ->). simpl. split; discriminate.
  - destruct (split_head sep s) as (h & t & Hs). rewrite Hs in *. exact IH.
Qed.

Lemma split_at_separator (sep : ascii) (a rest : string) :
  Py.contains sep a = false ->
  Py.split sep (a +:+ String sep rest) = a :: Py.split sep rest.
Proof.
  induction a as [|c a IH]; intros H.
  - change ("" +:+ String sep rest) with (String sep rest).
    cbn [Py.split]. now rewrite Ascii.eqb_refl.
  - change (String c a +:+ String sep rest)
      with (String c (a +:+ String sep rest)).
    cbn [Py.split Py.contains] in *. apply orb_false_iff in H as [Hc Ha].
    rewrite Hc, (IH Ha). reflexivity.
Qed.

Lemma split_no_separator (sep : ascii) (s : string) :
  Py.contains sep s = false -> Py.split sep s = [s].
Proof.
  induction s as [|c s IH]; [reflexivity|].
  cbn [Py.split Py.contains]. intros H.
  apply orb_false_iff in H as [Hc Hs]. now rewrite Hc, (IH Hs).
Qed.

(** The id is extracted exactly from the names with an underscore. *)
Lemma base_id_of_underscore (image_name : string) :
  Py.contains "_" image_name = true <->
  exists base_id, base_id_of image_name = inr base_id.
Proof.
  unfold base_id_of.
  destruct (Py.split "_" image_name !! 1%nat) as [segment|] eqn:H.
  - destruct (split_head "." segment) as (h & t & ->). simpl. split; [eauto|].
    intros _. destruct (Py.contains "_" image_name) eqn:Hc; [reflexivity|].
    apply split_second in Hc. congruence.
  - apply split_second in H. rewrite H. split; [discriminate|].
    intros [? ?]; discriminate.
Qed.

Lemma base_id_of_no_underscore (image_name : string) :
  Py.contains "_" image_name = false ->
  base_id_of image_name = inl Py.IndexError.
Proof.
  intros H. unfold base_id_of. apply split_second in H. now rewrite H.
Qed.

End BaseId.

Section ProcessImage.

Context (E : Externals).
Variable total : nat.

Lemma process_image_undecodable (image_name : string) (w : World) :
  decoded E (fs w) (Py.path_join IMAGE_DIR image_name) IMREAD_COLOR = None ->
  process_image E total image_name w
  = (inr tt,
     with_log w (log w ++ [Print 162 ("[WARNING] Failed to read image: "
                                      +:+ image_name)])).
Proof.
  intros H. unfold process_image. rewrite bind_run. unfold imread.
  now rewrite H.
Qed.

Lemma process_image_malformed (image_name : string) (image : ndarray)
    (e : Py.exn) (w : World) :
  decoded E (fs w) (Py.path_join IMAGE_DIR image_name) IMREAD_COLOR = Some image ->
  base_id_of image_name = inl e ->
  process_image E total image_name w = (inl e, w).
Proof.
  intros H Hid. unfold process_image. rewrite bind_run. unfold imread.
  now rewrite H, Hid.
Qed.

Lemma process_image_no_mask (image_name base_id : string) (image : ndarray)
    (w : World) :
  decoded E (fs w) (Py.path_join IMAGE_DIR image_name) IMREAD_COLOR = Some image ->
  base_id_of image_name = inr base_id ->
  Os.exists_ (fs w) (Py.path_join MASK_DIR (mask_name_of base_id)) = false ->
  process_image E total image_name w
  = (inr tt,
     with_log w (log w ++ [Print 172 ("[WARNING] Mask not found: "
                             +:+ Py.path_join MASK_DIR (mask_name_of base_id))])).
Proof.
  intros H Hid Hex. unfold process_image. rewrite bind_run. unfold imread.
  rewrite H, Hid, bind_run. unfold path_exists. now rewrite Hex.
Qed.

Lemma process_image_paired (image_name base_id : string) (image : ndarray)
    (w : World) :
  decoded E (fs w) (Py.path_join IMAGE_DIR image_name) IMREAD_COLOR = Some image ->
  base_id_of image_name = inr base_id ->
  Os.exists_ (fs w) (Py.path_join MASK_DIR (mask_name_of base_id)) = true ->
  process_image E total image_name w
  = for_each TRANSFORMATIONS
      (augment_with E total image_name base_id image
         (decoded E (fs w) (Py.path_join MASK_DIR (mask_name_of base_id))
            IMREAD_GRAYSCALE)) w.
Proof.
  intros H Hid Hex. unfold process_image. rewrite bind_run. unfold imread.
  rewrite H, Hid, bind_run. unfold path_exists. rewrite Hex.
  cbn [negb]. now rewrite bind_run.
Qed.

Variable listing : list string.

Lemma process_image_progresses (image_name : string) (w : World) :
  entry_name image_name -> In image_name (image_files listing) ->
  progresses total listing w (snd (process_image E total image_name w)).
Proof.
  intros Hn Hin.
  destruct (decoded E (fs w) (Py.path_join IMAGE_DIR image_name) IMREAD_COLOR)
    as [image|] eqn:Himg.
  2:{ rewrite process_image_undecodable by assumption.
      now apply (progresses_print total listing 162). }
  destruct (base_id_of image_name) as [e|base_id] eqn:Hid.
  { rewrite (process_image_malformed _ image e) by assumption.
    apply progresses_refl. }
  destruct (Os.exists_ (fs w) (Py.path_join MASK_DIR (mask_name_of base_id)))
    eqn:Hex.
  - rewrite (process_image_paired _ base_id image) by assumption.
    now apply transform_loop_progresses.
  - rewrite (process_image_no_mask _ base_id image) by assumption.
    now apply (progresses_print total listing 172).
Qed.

End ProcessImage.

(** ** Telling output paths apart *)

Section Collisions.

Lemma append_inj_l (a x y : string) : a +:+ x = a +:+ y -> x = y.
Proof.
  induction a as [|c a IH]; [auto|].
  change (String c a +:+ x) with (String c (a +:+ x)).
  change (String c a +:+ y) with (String c (a +:+ y)).
  intros [= H]. auto.
Qed.

Lemma append_inj_r (x y c : string) : x +:+ c = y +:+ c -> x = y.
Proof.
  revert y; induction x as [|a x IH]; intros [|b y] H.
  - reflexivity.
  - apply (f_equal String.length) in H.
    change (String b y +:+ c) with (String b (y +:+ c)) in H.
    change ("" +:+ c) with c in H.
    cbn [String.length] in H. rewrite length_append in H. lia.
  - apply (f_equal String.length) in H.
    change (String a x +:+ c) with (String a (x +:+ c)) in H.
    change ("" +:+ c) with c in H.
    cbn [String.length] in H. rewrite length_append in H. lia.
  - change (String a x +:+ c) with (String a (x +:+ c)) in H.
    change (String b y +:+ c) with (String b (y +:+ c)) in H.
    injection H as -> H. f_equal. now apply IH.
Qed.

(** Two strings cut at their first slash agree part by part. *)
Lemma first_slash_unique (a b x y : string) :
  Py.contains "/" a = false -> Py.contains "/" b = false ->
  a +:+ "/" +:+ x = b +:+ "/" +:+ y -> a = b /\ x = y.
Proof.
  intros Ha Hb H.
  assert (Hab : a = b).
  { pose proof (f_equal (Py.split "/") H) as Hs.
    change (a +:+ "/" +:+ x) with (a +:+ String "/" x) in Hs.
    change (b +:+ "/" +:+ y) with (b +:+ String "/" y) in Hs.
    rewrite !split_at_separator in Hs by assumption. now injection Hs. }
  subst b. split; [reflexivity|].
  apply append_inj_l in H. now apply (append_inj_l "/").
Qed.

Lemma transform_names_no_slash (T : string) :
  In T transform_names -> Py.contains "/" T = false.
Proof.
  unfold transform_names. cbn. intros H.
  repeat (destruct H as [<- | H]; [reflexivity|]). destruct H.
Qed.

End Collisions.

(** ** The whole run *)

Section Run.

Context (E : Externals).
Variable listing : list string.

Local Abbreviation total := (length (image_files listing) * length TRANSFORMATIONS).

Lemma run_unfold (f : gmap string node) (seed : N) :
  run E listing f seed
  = match for_each (image_files listing) (process_image E total)
            (started listing f seed) with
    | (inl e, w) => (inl e, w)
    | (inr _, w) => (inr tt, with_log w (log w ++ [completed]))
    end.
Proof. reflexivity. Qed.

Lemma images_entry_names (image_name : string) :
  Forall entry_name listing -> In image_name (image_files listing) ->
  entry_name image_name.
Proof.
  intros Hall Hin. apply filter_In in Hin as [Hin _].
  rewrite Forall_forall in Hall. apply Hall. now apply list_elem_of_In.
Qed.

Lemma image_loop_progresses (names : list string) (w : World) :
  Forall entry_name listing ->
  (forall x, In x names -> In x (image_files listing)) ->
  progresses total listing w
    (snd (for_each names (process_image E total) w)).
Proof.
  intros Hall Hsub. apply for_each_progresses. intros x w' Hx.
  apply process_image_progresses; [|now apply Hsub].
  apply images_entry_names; [assumption | now apply Hsub].
Qed.

Lemma run_progresses (f : gmap string node) (seed : N) :
  Forall entry_name listing ->
  progresses total listing (started listing f seed)
    (snd (run E listing f seed)).
Proof.
  intros Hall. rewrite run_unfold.
  pose proof (image_loop_progresses (image_files listing)
                (started listing f seed) Hall (fun x H => H)) as P.
  destruct (for_each (image_files listing) (process_image E total)
              (started listing f seed)) as [[e|[]] w]; simpl in *; [exact P|].
  eapply progresses_trans; [exact P|].
  exact (progresses_print total listing 210 _ w ltac:(discriminate)).
Qed.

(** A decodable image whose name has no underscore stops the loop over
    the images, unless something else stopped it before. *)
Lemma image_loop_fatal (f : gmap string node) (image_name : string)
    (image : ndarray) (names : list string) :
  Forall entry_name listing ->
  Py.contains "_" image_name = false ->
  decoded E f (Py.path_join IMAGE_DIR image_name) IMREAD_COLOR = Some image ->
  (forall x, In x names -> In x (image_files listing)) ->
  In image_name names ->
  forall w, grows f (fs w) ->
  exists e, fst (for_each names (process_image E total) w) = inl e.
Proof.
  intros Hall Hno Himg. induction names as [|x names IH]; intros Hsub Hin w G.
  { destruct Hin. }
  cbn [for_each]. rewrite bind_run.
  destruct (String.string_dec x image_name) as [-> | Hne].
  - rewrite (process_image_malformed E total image_name image Py.IndexError).
    + eauto.
    + destruct (grows_decoded E f (fs w) _ IMREAD_COLOR G
                  (image_path_outside image_name)) as [-> _]. exact Himg.
    + now apply base_id_of_no_underscore.
  - assert (Hx : In x (image_files listing)) by (apply Hsub; now left).
    pose proof (process_image_progresses E total listing x w
                  (images_entry_names x Hall Hx) Hx) as [G1 _].
    destruct (process_image E total x w) as [[e|[]] w1]; cbn [fst snd] in *.
    + eauto.
    + apply IH.
      * intros y Hy. apply Hsub. now right.
      * destruct Hin as [-> | Hin]; [contradiction | exact Hin].
      * eapply grows_trans; eassumption.
Qed.

(** A paired image with a decoded mask and free output directories is
    processed to the end: five saves. *)
Lemma process_image_saved (n : nat) (image_name base_id : string)
    (image m : ndarray) (w : World) :
  entry_name image_name ->
  decoded E (fs w) (Py.path_join IMAGE_DIR image_name) IMREAD_COLOR = Some image ->
  base_id_of image_name = inr base_id ->
  Os.exists_ (fs w) (Py.path_join MASK_DIR (mask_name_of base_id)) = true ->
  decoded E (fs w) (Py.path_join MASK_DIR (mask_name_of base_id))
    IMREAD_GRAYSCALE = Some m ->
  unobstructed (fs w) ->
  let out := process_image E n image_name w in
  fst out = inr tt
  /\ log (snd out)
     = log w ++ saved_blocks E n image_name base_id image m TRANSFORMATIONS
                  (counter w) (rng w)
  /\ counter (snd out) = counter w + length TRANSFORMATIONS
  /\ grows (fs w) (fs (snd out))
  /\ Forall (fun t => is_Some (fs (snd out)
                                !! out_image_path image_name (class_name t))
                      /\ is_Some (fs (snd out)
                                   !! out_mask_path base_id (class_name t)))
       TRANSFORMATIONS.
Proof.
  intros Hn Himg Hid Hex Hmask Hu. cbv zeta.
  rewrite (process_image_paired E n _ base_id image) by assumption.
  rewrite Hmask. now apply transform_loop_ok.
Qed.

End Run.

(** ** Running the script again *)

Ltac sim_split := split; [|split; [|split]].

(** The worlds stay as they are. *)
Ltac sim_still Hw := sim_split; [ | exact Hw | set_solver | set_solver ].

Section Simulation.

Context (E : Externals).

Lemma simulates_ret {A} (Q : A -> A -> Prop) (a b : A) :
  Q a b -> simulates Q (ret a) (ret b).
Proof.
  intros HQ w1 w2 Hw. unfold ret. cbn [fst snd].
  sim_still Hw. exact HQ.
Qed.

Lemma simulates_raise {A} (Q : A -> A -> Prop) (e : Py.exn) :
  simulates Q (raise e) (raise e).
Proof.
  intros w1 w2 Hw. unfold raise. cbn [fst snd].
  sim_still Hw. reflexivity.
Qed.

Lemma simulates_bind {A B} (Q : A -> A -> Prop) (Q' : B -> B -> Prop)
    (m1 m2 : M A) (k1 k2 : A -> M B) :
  simulates Q m1 m2 ->
  (forall a b, Q a b -> simulates Q' (k1 a) (k2 b)) ->
  simulates Q' (bind m1 k1) (bind m2 k2).
Proof.
  intros Hm Hk w1 w2 Hw. rewrite !bind_run.
  destruct (Hm w1 w2 Hw) as (R & Hw' & D & D1).
  destruct (m1 w1) as [[e1|a] w1'], (m2 w2) as [[e2|b] w2'];
    cbn [fst snd alike_result] in *; try contradiction.
  - auto.
  - destruct (Hk a b R w1' w2' Hw') as (R2 & Hw2 & D2 & D12).
    sim_split; [exact R2 | exact Hw2 | set_solver | set_solver].
Qed.

Lemma simulates_for_each {A} (xs : list A) (body1 body2 : A -> M unit) :
  (forall x, In x xs -> simulates eq (body1 x) (body2 x)) ->
  simulates eq (for_each xs body1) (for_each xs body2).
Proof.
  induction xs as [|x xs IH]; intros H; cbn [for_each].
  - now apply simulates_ret.
  - eapply simulates_bind; [apply H; now left|].
    intros _ _ _. apply IH. intros y Hy. apply H. now right.
Qed.

Lemma simulates_print (line : nat) (text : string) :
  simulates eq (print line text) (print line text).
Proof.
  intros w1 w2 (G & C & L). unfold print. world_simpl. cbn [alike_result].
  sim_split; [reflexivity | | set_solver | set_solver].
  split; [exact G|]. split; [exact C|]. world_simpl. now rewrite !map_app, L.
Qed.

Lemma simulates_imread (p : string) (flag : imread_flag) :
  under_outputs p = false -> simulates eq (imread E p flag) (imread E p flag).
Proof.
  intros Hp w1 w2 Hw. pose proof Hw as (G & _). unfold imread.
  cbn [fst snd alike_result].
  destruct (grows_decoded E _ _ p flag G Hp) as [-> _].
  sim_still Hw. reflexivity.
Qed.

Lemma simulates_path_exists (p : string) :
  under_outputs p = false -> simulates eq (path_exists p) (path_exists p).
Proof.
  intros Hp w1 w2 Hw. pose proof Hw as (G & _). unfold path_exists.
  cbn [fst snd alike_result].
  destruct (grows_decoded E _ _ p IMREAD_COLOR G Hp) as [_ ->].
  sim_still Hw. reflexivity.
Qed.

Lemma simulates_makedirs (line : nat) (root T : string) :
  In root [OUT_IMAGE_ROOT; OUT_MASK_ROOT] -> In T transform_names ->
  simulates eq (makedirs line (Py.path_join root T))
    (makedirs line (Py.path_join root T)).
Proof.
  intros Hr HT w1 w2 (G & C & L). rewrite !makedirs_run. cbn [fst snd].
  destruct (makedirs_out_alike root T Hr HT _ _ G) as (R & G' & D).
  pose proof (grows_dom _ _ (makedirs_out_grows root T Hr HT (fs w1))) as D1.
  rewrite <- R.
  split; [|split; [|split]].
  - now destruct (Os.makedirs (Py.path_join root T) (fs w1)).1.
  - split; [exact G'|]. split; [exact C|]. world_simpl. now rewrite !map_app, L.
  - exact D.
  - exact D1.
Qed.

Lemma simulates_apply_transform (t : transform) (image : ndarray)
    (mask : option ndarray) :
  simulates (fun r1 r2 => snd r1 = None <-> snd r2 = None)
    (apply_transform E t image mask) (apply_transform E t image mask).
Proof.
  intros w1 w2 Hw. pose proof Hw as (G & C & L). destruct mask as [m|].
  - rewrite !apply_transform_some. world_simpl. cbn [alike_result].
    sim_split; [split; discriminate | | set_solver | set_solver].
    split; [exact G|]. split; [exact C | exact L].
  - rewrite !apply_transform_none.
    destruct (rejects_none_mask E); world_simpl; cbn [alike_result].
    + sim_still Hw. reflexivity.
    + sim_split; [tauto | | set_solver | set_solver].
      split; [exact G|]. split; [exact C | exact L].
Qed.

Lemma simulates_imwrite (line : nat) (p : string) (a1 a2 : option ndarray) :
  ~ In p out_dirs -> under_outputs p = true ->
  (a1 = None <-> a2 = None) ->
  simulates eq (imwrite E line p a1) (imwrite E line p a2).
Proof.
  intros Hp Hu Ha w1 w2 Hw. pose proof Hw as (G & C & L).
  destruct a1 as [a1|], a2 as [a2|];
    try (exfalso; destruct Ha as [H1 H2]; (now specialize (H1 eq_refl))
                                          || (now specialize (H2 eq_refl))).
  - rewrite !imwrite_run. cbn [fst snd alike_result fs].
    pose proof G as (_ & _ & A3). destruct (A3 p Hp) as [Hd _].
    rewrite Hd.
    destruct (Os.isdir (fs w1) p) eqn:Hdir.
    + sim_split; [reflexivity | | set_solver | set_solver].
      split; [exact G|]. split; [exact C|]. world_simpl.
      now rewrite !map_app, L.
    + split; [reflexivity|]. split; [|split].
      * split; [|split; [exact C|]].
        -- world_simpl. apply grows_write_both; try assumption; congruence.
        -- world_simpl. now rewrite !map_app, L.
      * rewrite !dom_insert_L. set_solver.
      * rewrite dom_insert_L. set_solver.
  - unfold imwrite. cbn [fst snd alike_result].
    sim_still Hw. reflexivity.
Qed.

Lemma simulates_get_counter : simulates eq get_counter get_counter.
Proof.
  intros w1 w2 Hw. pose proof Hw as (_ & C & _). unfold get_counter.
  cbn [fst snd alike_result]. sim_still Hw. exact C.
Qed.

Lemma simulates_set_counter (k : nat) :
  simulates eq (set_counter k) (set_counter k).
Proof.
  intros w1 w2 (G & C & L). unfold set_counter. world_simpl.
  cbn [alike_result]. sim_split; [reflexivity | | set_solver | set_solver].
  split; [exact G|]. split; [reflexivity | exact L].
Qed.

Variable total : nat.

Lemma simulates_augment_with (image_name base_id : string) (image : ndarray)
    (mask : option ndarray) (t : transform) :
  entry_name image_name -> In t TRANSFORMATIONS ->
  simulates eq (augment_with E total image_name base_id image mask t)
    (augment_with E total image_name base_id image mask t).
Proof.
  intros Hn Ht. pose proof (transform_names_classes t Ht) as HT.
  unfold augment_with.
  eapply simulates_bind;
    [apply simulates_makedirs; [simpl; auto | exact HT] | intros _ _ _].
  eapply simulates_bind;
    [apply simulates_makedirs; [simpl; auto | exact HT] | intros _ _ _].
  eapply simulates_bind; [apply simulates_apply_transform | intros r1 r2 Hr].
  eapply simulates_bind.
  { apply simulates_imwrite;
      [now apply out_image_path_no_dir | now apply out_image_path_under |].
    split; discriminate. }
  intros _ _ _.
  eapply simulates_bind.
  { apply simulates_imwrite;
      [now apply out_mask_path_no_dir | now apply out_mask_path_under
      | exact Hr]. }
  intros _ _ _.
  eapply simulates_bind; [apply simulates_get_counter | intros k ? <-].
  eapply simulates_bind; [apply simulates_print | intros _ _ _].
  apply simulates_set_counter.
Qed.

Lemma simulates_process_image (image_name : string) :
  entry_name image_name ->
  simulates eq (process_image E total image_name)
    (process_image E total image_name).
Proof.
  intros Hn. unfold process_image.
  eapply simulates_bind;
    [apply simulates_imread, image_path_outside | intros image ? <-].
  destruct image as [image|]; [|apply simulates_print].
  destruct (base_id_of image_name) as [e|base_id]; [apply simulates_raise|].
  eapply simulates_bind;
    [apply simulates_path_exists, mask_path_outside | intros found ? <-].
  destruct found; cbn [negb]; [|apply simulates_print].
  eapply simulates_bind;
    [apply simulates_imread, mask_path_outside | intros mask ? <-].
  apply simulates_for_each. intros t Ht. now apply simulates_augment_with.
Qed.

End Simulation.

Section Rerun.

Context (E : Externals).
Variable listing : list string.
Hypothesis listing_ok : Forall entry_name listing.

Lemma simulates_main : simulates eq (main E listing) (main E listing).
Proof.
  unfold main.
  do 4 (eapply simulates_bind; [apply simulates_print | intros _ _ _]).
  eapply simulates_bind; [apply simulates_set_counter | intros _ _ _].
  eapply simulates_bind; [|intros _ _ _; apply simulates_print].
  apply simulates_for_each. intros x Hx. apply simulates_process_image.
  now apply images_entry_names with (listing := listing).
Qed.

Lemma erase_written_paths (l : list event) :
  written_paths (map erase l) = written_paths l.
Proof.
  induction l as [|[] l IH]; cbn; rewrite ?IH; try reflexivity;
    unfold written_paths in *; cbn; now rewrite ?IH.
Qed.

Lemma erase_made_dirs (l : list event) :
  made_dirs (map erase l) = made_dirs l.
Proof.
  induction l as [|[] l IH]; cbn; rewrite ?IH; try reflexivity;
    unfold made_dirs in *; cbn; now rewrite ?IH.
Qed.

Lemma erase_stdout (l : list event) : stdout (map erase l) = stdout l.
Proof.
  induction l as [|[] l IH]; cbn; rewrite ?IH; try reflexivity;
    unfold stdout in *; cbn; now rewrite ?IH.
Qed.

End Rerun.

(** ** What the writes leave behind *)

Section LastWritten.

Lemma last_written_app (a b : list event) (p : string) :
  last_written (a ++ b) p
  = match last_written b p with
    | Some x => Some x
    | None => last_written a p
    end.
Proof.
  induction a as [|e a IH]; cbn [last_written app].
  - now destruct (last_written b p).
  - rewrite IH. now destruct (last_written b p).
Qed.

Lemma written_paths_cons (e : event) (l : list event) :
  written_paths (e :: l)
  = match e with
    | Imwrite _ path _ => path :: written_paths l
    | _ => written_paths l
    end.
Proof. now destruct e. Qed.

Lemma last_written_path (l : list event) (p : string) (a : ndarray) :
  last_written l p = Some a -> In p (written_paths l).
Proof.
  revert a. induction l as [|e l IH]; intros a; cbn [last_written];
    [discriminate|].
  rewrite written_paths_cons.
  destruct (last_written l p) as [b|].
  - intros _. specialize (IH b eq_refl). destruct e; auto. now right.
  - destruct e as [n t|n d|n q b]; try discriminate.
    destruct (String.eqb_spec q p) as [->|]; [|discriminate].
    intros _. now left.
Qed.

Lemma last_written_none (l : list event) (p : string) :
  ~ In p (written_paths l) -> last_written l p = None.
Proof.
  intros H. destruct (last_written l p) as [a|] eqn:Hl; [|reflexivity].
  exfalso. apply H. eapply last_written_path, Hl.
Qed.

Lemma written_path_last (l : list event) (p : string) :
  In p (written_paths l) -> exists a, last_written l p = Some a.
Proof.
  induction l as [|e l IH]; [intros []|].
  rewrite written_paths_cons. cbn [last_written]. intros H.
  destruct (last_written l p) as [b|] eqn:Hl; [eauto|].
  destruct e as [n t|n d|n q b].
  - destruct (IH H) as [a Ha]. discriminate.
  - destruct (IH H) as [a Ha]. discriminate.
  - destruct H as [->|H].
    + rewrite String.eqb_refl. eauto.
    + destruct (IH H) as [a Ha]. discriminate.
Qed.

(** A path written once holds the raster of that write. *)
Lemma last_written_once (l : list event) (n : nat) (p : string) (a : ndarray) :
  List.NoDup (written_paths l) -> In (Imwrite n p a) l ->
  last_written l p = Some a.
Proof.
  induction l as [|e l IH]; [intros _ []|].
  rewrite written_paths_cons. cbn [last_written]. intros Hnd [->|Hin].
  - apply List.NoDup_cons_iff in Hnd as [Hp _].
    rewrite (last_written_none l p Hp). now rewrite String.eqb_refl.
  - assert (Hl : List.NoDup (written_paths l)).
    { destruct e; [assumption | assumption |].
      now apply List.NoDup_cons_iff in Hnd as [_ ?]. }
    now rewrite (IH Hl Hin).
Qed.

Lemma written_at_in (line : nat) (l : list event) (p : string) (a : ndarray) :
  In (p, a) (written_at line l) -> In (Imwrite line p a) l.
Proof.
  induction l as [|e l IH]; [intros []|].
  unfold written_at.
  change (omap ?g (e :: l)) with (match g e with
                                  | Some y => y :: omap g l
                                  | None => omap g l
                                  end).
  fold (written_at line l).
  destruct e as [n t|n d|n q b]; try (intros H; right; now apply IH).
  destruct (Nat.eqb_spec n line) as [->|].
  - intros [[= -> ->]|H]; [now left | right; now apply IH].
  - intros H; right; now apply IH.
Qed.

End LastWritten.

Section Settling.

Context (E : Externals).

Lemma after_writes_nil (f : gmap string node) (q : string) :
  after_writes E f [] q = f !! q.
Proof. reflexivity. Qed.

Lemma settles_same (w w' : World) :
  fs w' = fs w -> log w' = log w -> settles E w w'.
Proof.
  intros Hf Hl. exists []. rewrite app_nil_r.
  split; [exact Hl|]. split; [apply List.Forall_nil|].
  intros q _. now rewrite Hf.
Qed.

Lemma settles_refl (w : World) : settles E w w.
Proof. now apply settles_same. Qed.

(** A directory, once there or not, stays so. *)
Lemma settles_isdir (w w' : World) (q : string) :
  settles E w w' -> ~ In q out_dirs -> Os.isdir (fs w') q = Os.isdir (fs w) q.
Proof.
  intros (evs & _ & _ & H) Hq. unfold Os.isdir at 1. rewrite (H q Hq).
  unfold after_writes. destruct (last_written evs q); [|reflexivity].
  now destruct (Os.isdir (fs w) q).
Qed.

Lemma settles_trans (w1 w2 w3 : World) :
  settles E w1 w2 -> settles E w2 w3 -> settles E w1 w3.
Proof.
  intros H12 H23. pose proof (fun q => settles_isdir w1 w2 q H12) as Hdir.
  destruct H12 as (e1 & L1 & P1 & F1), H23 as (e2 & L2 & P2 & F2).
  exists (e1 ++ e2). split; [rewrite L2, L1; now rewrite <- app_assoc|].
  split; [rewrite written_paths_app; now apply Forall_app|].
  intros q Hq. rewrite (F2 q Hq). unfold after_writes.
  rewrite last_written_app.
  destruct (last_written e2 q) as [a|].
  - now rewrite (Hdir q Hq).
  - rewrite (F1 q Hq). reflexivity.
Qed.

Lemma steady_ret {A} (a : A) : steady E (ret a).
Proof. intros w. apply settles_refl. Qed.

Lemma steady_raise {A} (e : Py.exn) : steady E (@raise A e).
Proof. intros w. apply settles_refl. Qed.

Lemma steady_bind {A B} (m : M A) (k : A -> M B) :
  steady E m -> (forall a, steady E (k a)) -> steady E (bind m k).
Proof.
  intros Hm Hk w. rewrite bind_run. specialize (Hm w).
  destruct (m w) as [[e|a] w1]; cbn [snd] in *; [exact Hm|].
  eapply settles_trans; [exact Hm | apply Hk].
Qed.

Lemma steady_for_each {A} (xs : list A) (body : A -> M unit) :
  (forall x, In x xs -> steady E (body x)) -> steady E (for_each xs body).
Proof.
  induction xs as [|x xs IH]; intros Hbody; cbn [for_each].
  - apply steady_ret.
  - apply steady_bind; [apply Hbody; now left|].
    intros _. apply IH. intros y Hy. apply Hbody. now right.
Qed.

Lemma steady_print (line : nat) (text : string) : steady E (print line text).
Proof.
  intros w. exists [Print line text]. split; [reflexivity|].
  split; [apply List.Forall_nil|]. intros q _. reflexivity.
Qed.

Lemma steady_imread (path : string) (flag : imread_flag) :
  steady E (imread E path flag).
Proof. intros w. apply settles_refl. Qed.

Lemma steady_path_exists (path : string) : steady E (path_exists path).
Proof. intros w. apply settles_refl. Qed.

Lemma steady_get_counter : steady E get_counter.
Proof. intros w. apply settles_refl. Qed.

Lemma steady_set_counter (k : nat) : steady E (set_counter k).
Proof. intros w. now apply settles_same. Qed.

Lemma steady_apply_transform (t : transform) (image : ndarray)
    (mask : option ndarray) :
  steady E (apply_transform E t image mask).
Proof.
  intros w. unfold apply_transform.
  destruct (call E t (rng w) image mask); now apply settles_same.
Qed.

Lemma steady_makedirs (line : nat) (root T : string) :
  In root [OUT_IMAGE_ROOT; OUT_MASK_ROOT] -> In T transform_names ->
  steady E (makedirs line (Py.path_join root T)).
Proof.
  intros Hr HT w. rewrite makedirs_run. cbn [snd].
  exists [Makedirs line (Py.path_join root T)]. split; [reflexivity|].
  split; [apply List.Forall_nil|]. intros q Hq. world_simpl.
  rewrite after_writes_nil || unfold after_writes; cbn [last_written].
  apply makedirs_out_frame; try assumption.
  - intros ->. apply Hq. now apply root_in_out_dirs.
  - intros ->. apply Hq. now apply dir_in_out_dirs.
Qed.

Lemma steady_imwrite (line : nat) (p : string) (img : option ndarray) :
  ~ In p out_dirs -> steady E (imwrite E line p img).
Proof.
  intros Hp w. destruct img as [a|]; [|apply settles_refl].
  rewrite imwrite_run. cbn [snd].
  exists [Imwrite line p a]. split; [reflexivity|].
  split; [now repeat constructor|]. intros q Hq. world_simpl.
  unfold after_writes. cbn [last_written].
  destruct (String.eqb_spec p q) as [->|Hne].
  - unfold Os.isdir. destruct (fs w !! q) as [[|b]|] eqn:Hf;
      [exact Hf | apply lookup_insert_eq..].
  - destruct (Os.isdir (fs w) p); [reflexivity|].
    now apply lookup_insert_ne.
Qed.

Lemma steady_augment_with (total : nat) (image_name base_id : string)
    (image : ndarray) (mask : option ndarray) (t : transform) :
  entry_name image_name -> In t TRANSFORMATIONS ->
  steady E (augment_with E total image_name base_id image mask t).
Proof.
  intros Hn Ht. pose proof (transform_names_classes t Ht) as HT.
  unfold augment_with.
  apply steady_bind; [apply steady_makedirs; simpl; auto|]. intros _.
  apply steady_bind; [apply steady_makedirs; simpl; auto|]. intros _.
  apply steady_bind; [apply steady_apply_transform|]. intros r.
  apply steady_bind;
    [apply steady_imwrite; now apply out_image_path_no_dir|]. intros _.
  apply steady_bind;
    [apply steady_imwrite; now apply out_mask_path_no_dir|]. intros _.
  apply steady_bind; [apply steady_get_counter|]. intros k.
  apply steady_bind; [apply steady_print|]. intros _.
  apply steady_set_counter.
Qed.

Lemma steady_process_image (total : nat) (image_name : string) :
  entry_name image_name -> steady E (process_image E total image_name).
Proof.
  intros Hn. unfold process_image.
  apply steady_bind; [apply steady_imread|]. intros [image|];
    [|apply steady_print].
  destruct (base_id_of image_name) as [e|base_id]; [apply steady_raise|].
  apply steady_bind; [apply steady_path_exists|]. intros found.
  destruct found; cbn [negb]; [|apply steady_print].
  apply steady_bind; [apply steady_imread|]. intros mask.
  apply steady_for_each. intros t Ht. now apply steady_augment_with.
Qed.

Lemma steady_main (listing : list string) :
  Forall entry_name listing -> steady E (main E listing).
Proof.
  intros Hall. unfold main.
  do 4 (apply steady_bind; [apply steady_print|]; intros _).
  apply steady_bind; [apply steady_set_counter|]. intros _.
  apply steady_bind; [|intros _; apply steady_print].
  apply steady_for_each. intros x Hx. apply steady_process_image.
  now apply (images_entry_names listing).
Qed.

(** What a stretch of the run has written is on the file system: a
    path handed to [cv2.imwrite] holds the encoding of the raster
    written last, unless a directory sits there; any other path outside
    the output directories holds what it held. *)
Lemma settles_written (w w' : World) (evs : list event) :
  settles E w w' -> log w' = log w ++ evs ->
  (forall p a, last_written evs p = Some a ->
     fs w' !! p
     = if Os.isdir (fs w) p then Some Dir
       else Some (File (imencode E p a)))
  /\ (forall q, ~ In q out_dirs -> last_written evs q = None ->
        fs w' !! q = fs w !! q).
Proof.
  intros (evs' & L & P & F) Hl. rewrite L in Hl.
  apply app_inv_head in Hl. subst evs'. split.
  - intros p a Hp. rewrite F.
    + unfold after_writes. now rewrite Hp.
    + rewrite Forall_forall in P. apply P.
      apply list_elem_of_In. eapply last_written_path, Hp.
  - intros q Hq Hn. rewrite (F q Hq). unfold after_writes. now rewrite Hn.
Qed.

Lemma run_settles (listing : list string) (f : gmap string node) (seed : N) :
  Forall entry_name listing ->
  settles E (boot f seed) (snd (run E listing f seed)).
Proof. intros Hall. now apply steady_main. Qed.

End Settling.

(** ** The ten output paths of an image *)

Section OutputPaths.

Context (E : Externals).

(** The ten output paths of an image are pairwise distinct. *)
Lemma out_paths_distinct (image_name base_id : string) :
  entry_name image_name ->
  List.NoDup (flat_map (fun t => [out_image_path image_name (class_name t);
                                  out_mask_path base_id (class_name t)])
                TRANSFORMATIONS).
Proof.
  intros Hn.
  assert (Hi : forall T, In T transform_names ->
                 out_image_path image_name T = image_output image_name T).
  { intros T HT. now apply out_image_path_spec. }
  assert (Hm : forall T, In T transform_names ->
                 out_mask_path base_id T = mask_output base_id T).
  { intros T HT. now apply out_mask_path_spec. }
  unfold TRANSFORMATIONS. cbn [flat_map class_name app].
  rewrite !Hi, !Hm by (unfold transform_names; cbn; tauto).
  cbv [image_output mask_output String.append].
  repeat (apply List.NoDup_cons;
          [cbn [In]; intros H;
           repeat (destruct H as [H|H]; [discriminate H|]); destruct H|]).
  apply List.NoDup_nil.
Qed.

(** The rasters written for an image: each transform applied to the
    decoded image and mask, in the state of the random generator that
    the transforms before it left. *)
Lemma blocks_images (total : nat) (image_name base_id : string)
    (image mask : ndarray) (ts : list transform) (k : nat) (seed : N) :
  written_at 203 (saved_blocks E total image_name base_id image mask ts k seed)
  = map (fun '(t, s) => (out_image_path image_name (class_name t),
                         apply_to_image E t s image))
      (combine ts (seeds E ts seed)).
Proof.
  revert k seed; induction ts as [|t ts IH]; intros k seed; [reflexivity|].
  cbn [saved_blocks seeds combine map]. rewrite written_at_app, IH.
  reflexivity.
Qed.

Lemma blocks_masks (total : nat) (image_name base_id : string)
    (image mask : ndarray) (ts : list transform) (k : nat) (seed : N) :
  written_at 204 (saved_blocks E total image_name base_id image mask ts k seed)
  = map (fun '(t, s) => (out_mask_path base_id (class_name t),
                         mask_result E t s mask))
      (combine ts (seeds E ts seed)).
Proof.
  revert k seed; induction ts as [|t ts IH]; intros k seed; [reflexivity|].
  cbn [saved_blocks seeds combine map]. rewrite written_at_app, IH.
  reflexivity.
Qed.

(** Every event of the saves of an image that is a write is one of the
    two writes of a transform. *)
Lemma blocks_writes (total : nat) (image_name base_id : string)
    (image mask : ndarray) (ts : list transform) (k : nat) (seed : N)
    (p : string) (a : ndarray) :
  In (p, a) (written_at 203 (saved_blocks E total image_name base_id image
                               mask ts k seed)
             ++ written_at 204 (saved_blocks E total image_name base_id image
                                  mask ts k seed)) ->
  exists n, In (Imwrite n p a)
              (saved_blocks E total image_name base_id image mask ts k seed).
Proof.
  intros H. apply in_app_or in H as [H|H]; apply written_at_in in H; eauto.
Qed.

(** The random generator after a completed transform loop: every
    transform of the list has drawn from it, in list order. *)
Lemma transform_loop_rng (total : nat) (image_name base_id : string)
    (image : ndarray) (mask : option ndarray) (ts : list transform) :
  entry_name image_name ->
  (forall t, In t ts -> In t TRANSFORMATIONS) ->
  forall w,
  fst (for_each ts (augment_with E total image_name base_id image mask) w)
  = inr tt ->
  rng (snd (for_each ts (augment_with E total image_name base_id image mask) w))
  = fold_left (fun s t => advance_rng E t s) ts (rng w).
Proof.
  intros Hn. induction ts as [|t ts IH]; intros Hts w; [reflexivity|].
  cbn [for_each fold_left]. rewrite bind_run.
  destruct (augment_with_summary E total image_name base_id image Hn mask t w
              (Hts t (or_introl eq_refl)))
    as [_ [(R & m & Hm & L & C & S & _) | (e & j & R & _)]];
    destruct (augment_with E total image_name base_id image mask t w)
      as [r w1]; cbn [fst snd] in *; subst r; [|discriminate].
  intros Hout. rewrite <- S. apply IH; [|exact Hout].
  intros x Hx. apply Hts. now right.
Qed.

End OutputPaths.

(** ** The directories of a completed pass *)

Section MadeDirectories.

Context (E : Externals).
Variables (total : nat) (image_name base_id : string) (image : ndarray).
Hypothesis name_ok : entry_name image_name.

Let image_root_ok : In OUT_IMAGE_ROOT [OUT_IMAGE_ROOT; OUT_MASK_ROOT].
Proof. simpl; auto. Qed.
Let mask_root_ok : In OUT_MASK_ROOT [OUT_IMAGE_ROOT; OUT_MASK_ROOT].
Proof. simpl; auto. Qed.

(** A pass of the loop body that completes leaves both directories of
    its transform. *)
Lemma augment_with_dirs (mask : option ndarray) (t : transform) (w : World) :
  In t TRANSFORMATIONS ->
  let out := augment_with E total image_name base_id image mask t w in
  fst out = inr tt ->
  fs (snd out) !! Py.path_join OUT_IMAGE_ROOT (class_name t) = Some Dir
  /\ fs (snd out) !! Py.path_join OUT_MASK_ROOT (class_name t) = Some Dir.
Proof.
  intros Ht. pose proof (transform_names_classes t Ht) as HT.
  pose proof (makedirs_out_made _ _ image_root_ok HT (fs w)) as D1.
  cbv zeta. unfold augment_with.
  rewrite bind_run, makedirs_run.
  destruct (Os.makedirs (Py.path_join OUT_IMAGE_ROOT (class_name t)) (fs w))
    as [[e1|[]] f1]; cbn [fst snd] in *; [discriminate|].
  specialize (D1 eq_refl).
  pose proof (makedirs_out_grows _ _ mask_root_ok HT f1) as G2.
  pose proof (makedirs_out_made _ _ mask_root_ok HT f1) as D2.
  rewrite bind_run, makedirs_run. cbn [fs log counter rng].
  destruct (Os.makedirs (Py.path_join OUT_MASK_ROOT (class_name t)) f1)
    as [[e2|[]] f2]; cbn [fst snd fs log counter rng] in *; [discriminate|].
  specialize (D2 eq_refl).
  apply (grows_dir_stays _ _ _ G2 (out_dirs_image _ HT)) in D1.
  pose proof (imwrite_grows E _ (apply_to_image E t (rng w) image) f2
                (out_image_path_no_dir _ _ name_ok HT)
                (out_image_path_under _ _ name_ok HT)) as G3.
  set (f3 := if Os.isdir f2 (out_image_path image_name (class_name t))
             then f2 else _) in G3.
  destruct mask as [m|].
  - pose proof (imwrite_grows E _ (mask_result E t (rng w) m) f3
                  (out_mask_path_no_dir base_id _ HT)
                  (out_mask_path_under base_id _ HT)) as G4.
    rewrite bind_run, apply_transform_some.
    world_simpl. rewrite bind_run, imwrite_run. world_simpl. fold f3.
    rewrite bind_run, imwrite_run. world_simpl.
    unfold get_counter, print, set_counter. rewrite !bind_run. world_simpl.
    intros _. split.
    + apply (grows_dir_stays _ _ _ G4 (out_dirs_image _ HT)).
      exact (grows_dir_stays _ _ _ G3 (out_dirs_image _ HT) D1).
    + apply (grows_dir_stays _ _ _ G4 (out_dirs_mask _ HT)).
      exact (grows_dir_stays _ _ _ G3 (out_dirs_mask _ HT) D2).
  - rewrite bind_run, apply_transform_none.
    destruct (rejects_none_mask E); world_simpl; [discriminate|].
    rewrite bind_run, imwrite_run. world_simpl.
    rewrite bind_run. unfold imwrite at 1. world_simpl. discriminate.
Qed.

(** A transform loop that completes leaves the directories of all its
    transforms. *)
Lemma transform_loop_dirs (mask : option ndarray) (ts : list transform) :
  (forall t, In t ts -> In t TRANSFORMATIONS) ->
  forall w,
  let out := for_each ts
               (augment_with E total image_name base_id image mask) w in
  fst out = inr tt ->
  grows (fs w) (fs (snd out))
  /\ Forall (fun t =>
               fs (snd out) !! Py.path_join OUT_IMAGE_ROOT (class_name t)
               = Some Dir
               /\ fs (snd out) !! Py.path_join OUT_MASK_ROOT (class_name t)
                  = Some Dir) ts.
Proof.
  induction ts as [|t ts IH]; intros Hts w; cbv zeta.
  - intros _. split; [apply grows_refl | apply List.Forall_nil].
  - cbn [for_each]. rewrite bind_run.
    pose proof (Hts t (or_introl eq_refl)) as Ht.
    pose proof (transform_names_classes t Ht) as HT.
    destruct (augment_with_summary E total image_name base_id image name_ok
                mask t w Ht) as [G _].
    pose proof (augment_with_dirs mask t w Ht) as D. cbv zeta in D.
    destruct (augment_with E total image_name base_id image mask t w)
      as [[e|[]] w1]; cbn [fst snd] in *; [discriminate|].
    intros Hout. destruct (D eq_refl) as [D1 D2].
    destruct (IH (fun x H => Hts x (or_intror H)) w1 Hout) as [G' F].
    split; [eapply grows_trans; eassumption|].
    apply List.Forall_cons; [|exact F]. split.
    + exact (grows_dir_stays _ _ _ G' (out_dirs_image _ HT) D1).
    + exact (grows_dir_stays _ _ _ G' (out_dirs_mask _ HT) D2).
Qed.

(** With a decoded mask, whatever is in the way: the passes that
    complete are those of a prefix of the list, in list order, and the
    pass that raises, if any, has written and printed nothing. *)
Lemma transform_loop_prefix (m : ndarray) (ts : list transform) :
  (forall t, In t ts -> In t TRANSFORMATIONS) ->
  forall w,
  let out := for_each ts
               (augment_with E total image_name base_id image (Some m)) w in
  exists k tail,
    k <= length ts
    /\ log (snd out)
       = log w ++ saved_blocks E total image_name base_id image m
                    (firstn k ts) (counter w) (rng w) ++ tail
    /\ written_at 203 tail = [] /\ written_at 204 tail = []
    /\ stdout tail = []
    /\ (fst out = inr tt <-> k = length ts)
    /\ (fst out = inr tt -> tail = []).
Proof.
  induction ts as [|t ts IH]; intros Hts w; cbv zeta.
  - exists 0%nat, []. cbn. unfold ret. cbn [fst snd].
    rewrite app_nil_r. repeat split; auto.
  - cbn [for_each]. rewrite bind_run.
    destruct (augment_with_summary E total image_name base_id image name_ok
                (Some m) t w (Hts t (or_introl eq_refl)))
      as [_ [(R & m' & Hm & L & C & Hs & _) | (e & j & R & Hj & L & _ & Hno)]];
      destruct (augment_with E total image_name base_id image (Some m) t w)
        as [r w1]; cbn [fst snd] in *; subst r.
    + injection Hm as <-.
      destruct (IH (fun x H => Hts x (or_intror H)) w1)
        as (k & tail & Hk & L' & A & B & P & Q & T).
      exists (S k), tail. cbn [length firstn saved_blocks].
      split; [lia|]. split.
      { rewrite L', L, C, Hs. now rewrite <- !app_assoc. }
      split; [exact A|]. split; [exact B|]. split; [exact P|].
      split; [|exact T].
      rewrite Q. split; [intros ->; reflexivity | intros [=]; assumption].
    + destruct (Hno ltac:(discriminate)) as [Hle _].
      exists 0%nat, (firstn j (attempt_events E image_name image t (rng w))).
      cbn [firstn saved_blocks length app].
      split; [lia|]. split; [exact L|].
      destruct j as [|[|[|j]]]; try lia; cbn;
        (repeat split; auto; try discriminate).
Qed.

End MadeDirectories.

(** ** A paired image, settled *)

Section PairedImage.

Context (E : Externals).
Variables (total : nat) (image_name base_id : string) (image m : ndarray).
Variable w : World.
Hypothesis name_ok : entry_name image_name.
Hypothesis image_ok :
  decoded E (fs w) (Py.path_join IMAGE_DIR image_name) IMREAD_COLOR = Some image.
Hypothesis id_ok : base_id_of image_name = inr base_id.
Hypothesis mask_there :
  Os.exists_ (fs w) (Py.path_join MASK_DIR (mask_name_of base_id)) = true.
Hypothesis mask_ok :
  decoded E (fs w) (Py.path_join MASK_DIR (mask_name_of base_id))
    IMREAD_GRAYSCALE = Some m.
Hypothesis free : unobstructed (fs w).

Local Abbreviation out := (process_image E total image_name w).
Local Abbreviation saves :=
  (saved_blocks E total image_name base_id image m TRANSFORMATIONS
     (counter w) (rng w)).

Lemma process_image_files :
  List.NoDup (written_paths saves)
  /\ (forall p a, In (p, a) (written_at 203 saves ++ written_at 204 saves) ->
        fs (snd out) !! p
        = if Os.isdir (fs w) p then Some Dir
          else Some (File (imencode E p a)))
  /\ (forall p, In p (written_paths saves) ->
        exists a, fs (snd out) !! p
                  = if Os.isdir (fs w) p then Some Dir
                    else Some (File (imencode E p a)))
  /\ (forall q, ~ In q out_dirs -> ~ In q (written_paths saves) ->
        fs (snd out) !! q = fs w !! q).
Proof.
  destruct (process_image_saved E total image_name base_id image m w
              name_ok image_ok id_ok mask_there mask_ok free) as (_ & L & _).
  pose proof (steady_process_image E total image_name name_ok w) as S.
  destruct (settles_written E _ _ _ S L) as [W F].
  assert (Hnd : List.NoDup (written_paths saves)).
  { rewrite blocks_written_paths. now apply out_paths_distinct. }
  split; [exact Hnd|]. split; [|split].
  - intros p a Hin. apply blocks_writes in Hin as [n Hin].
    apply W. eapply last_written_once; eassumption.
  - intros p Hp. apply written_path_last in Hp as [a Ha]. exists a.
    now apply W.
  - intros q Hq Hn. apply F; [exact Hq|]. now apply last_written_none.
Qed.

Lemma process_image_dirs :
  Forall (fun t =>
            fs (snd out) !! Py.path_join OUT_IMAGE_ROOT (class_name t) = Some Dir
            /\ fs (snd out) !! Py.path_join OUT_MASK_ROOT (class_name t)
               = Some Dir) TRANSFORMATIONS.
Proof.
  destruct (process_image_saved E total image_name base_id image m w
              name_ok image_ok id_ok mask_there mask_ok free) as (R & _).
  rewrite (process_image_paired E total image_name base_id image) in *
    by assumption.
  now apply (transform_loop_dirs E total image_name base_id image name_ok
               _ TRANSFORMATIONS (fun t H => H) w).
Qed.

Lemma process_image_rng :
  rng (snd out) = fold_left (fun s t => advance_rng E t s) TRANSFORMATIONS (rng w).
Proof.
  destruct (process_image_saved E total image_name base_id image m w
              name_ok image_ok id_ok mask_there mask_ok free) as (R & _).
  rewrite (process_image_paired E total image_name base_id image) in *
    by assumption.
  now apply (transform_loop_rng E total image_name base_id image _
               TRANSFORMATIONS name_ok (fun t H => H) w).
Qed.

(** With no directory at an output file path, every write was made. *)
Lemma writable_saves (p : string) :
  writable (fs w) image_name base_id ->
  In p (written_paths saves) -> Os.isdir (fs w) p = false.
Proof.
  intros Hw. rewrite blocks_written_paths. intros Hin.
  apply in_flat_map in Hin as (t & Ht & Hp).
  unfold writable in Hw. rewrite Forall_forall in Hw.
  destruct (Hw (class_name t)) as [H1 H2].
  { apply list_elem_of_In. now apply transform_names_classes. }
  destruct Hp as [<- | [<- | []]]; assumption.
Qed.

Lemma written_at_paths (line : nat) (l : list event) (p : string) (a : ndarray) :
  In (p, a) (written_at line l) -> In p (written_paths l).
Proof.
  intros H. apply written_at_in in H.
  induction l as [|e l IH]; [destruct H|].
  rewrite written_paths_cons. destruct H as [-> | H]; [now left|].
  destruct e; auto. right. auto.
Qed.

End PairedImage.

(** * The claims of the specification *)

Lemma toy_paired_unobstructed : unobstructed Toy.paired_fs.
Proof.
  intros d bytes Hd. unfold out_dirs, transform_names in Hd. simpl in Hd.
  repeat (destruct Hd as [<- | Hd]; [vm_compute; discriminate|]).
  destruct Hd.
Qed.

(** ** C1: the outputs of a paired image *)

Lemma toy_paired_writable : writable Toy.paired_fs "image_1.jpg" "1".
Proof.
  unfold writable, transform_names. cbn [map TRANSFORMATIONS class_name].
  repeat (apply List.Forall_cons; [split; vm_compute; reflexivity|]).
  apply List.Forall_nil.
Qed.

(** C1 as stated fails.  The image decodes and the expected mask file
    exists, but the mask file does not decode: the run stops in the
    first pass of the transform loop and no mask output is written at
    all.  The same pair is not written either when a regular file sits
    where an output directory is needed, or when the run has stopped on
    an earlier image.  And with a directory where an output file goes,
    the run completes after its ten calls of [cv2.imwrite], but the
    call on that path writes nothing: four image files are there, not
    five. *)
Lemma paired_outputs_need_decodable_mask :
  (image_files ["image_1.jpg"] = ["image_1.jpg"]
   /\ decoded (Toy.externals false) Toy.junk_mask_fs "X/image_1.jpg"
        IMREAD_COLOR
      = Some Toy.colour_2x2
   /\ Os.exists_ Toy.junk_mask_fs "y/mask_1.png" = true
   /\ ~ (length (written_at 203 (log (snd Scenario.junk_mask_run))) = 5%nat
         /\ length (written_at 204 (log (snd Scenario.junk_mask_run))) = 5%nat)
   /\ fst Scenario.junk_mask_run = inl Py.Cv2Error
   /\ written_at 204 (log (snd Scenario.junk_mask_run)) = [])
  /\ (decoded (Toy.externals false) Toy.blocked_fs "X/image_1.jpg" IMREAD_COLOR
      = Some Toy.colour_2x2
      /\ decoded (Toy.externals false) Toy.blocked_fs "y/mask_1.png"
           IMREAD_GRAYSCALE
         = Some Toy.gray_2x2
      /\ fst Scenario.blocked_run = inl Py.NotADirectoryError
      /\ written_paths (log (snd Scenario.blocked_run)) = [])
  /\ (In "image_1.jpg" (image_files ["photo.jpg"; "image_1.jpg"])
      /\ decoded (Toy.externals false) Toy.photo_first_fs "X/image_1.jpg"
           IMREAD_COLOR
         = Some Toy.colour_2x2
      /\ decoded (Toy.externals false) Toy.photo_first_fs "y/mask_1.png"
           IMREAD_GRAYSCALE
         = Some Toy.gray_2x2
      /\ fst Scenario.aborted_run = inl Py.IndexError
      /\ written_paths (log (snd Scenario.aborted_run)) = [])
  /\ (decoded (Toy.externals false) Obstacle.occupied_fs "X/image_1.jpg"
        IMREAD_COLOR
      = Some Toy.colour_2x2
      /\ decoded (Toy.externals false) Obstacle.occupied_fs "y/mask_1.png"
           IMREAD_GRAYSCALE
         = Some Toy.gray_2x2
      /\ fst Obstacle.occupied_run = inr tt
      /\ length (written_at 203 (log (snd Obstacle.occupied_run))) = 5%nat
      /\ fs (snd Obstacle.occupied_run)
         !! "augmented_x/Defocus/image_1-Defocus.jpg" = Some Dir
      /\ files_among (fs (snd Obstacle.occupied_run))
           (map fst (written_at 203 (log (snd Obstacle.occupied_run))))
         = ["augmented_x/RandomBrightnessContrast/image_1-RandomBrightnessContrast.jpg";
            "augmented_x/GlassBlur/image_1-GlassBlur.jpg";
            "augmented_x/ISONoise/image_1-ISONoise.jpg";
            "augmented_x/ShiftScaleRotate/image_1-ShiftScaleRotate.jpg"]).
Proof.
  vm_compute. repeat split; try reflexivity; auto.
  intros [H _]. discriminate.
Qed.

(** C1, amended: for a discovered image that decodes, whose expected
    mask file exists and decodes, with no regular file where an output
    directory is needed and no directory where an output file goes, the
    pass over the image returns normally after exactly five image
    writes and five mask writes, one per transform and in the order of
    the transform list, at [augmented_x/<T>/<stem>-<T>.jpg] and
    [augmented_y/<T>/mask_<id>-<T>.png].  The ten paths are pairwise
    distinct and each holds afterwards a regular file, the encoding of
    the raster written to it; the ten directories [augmented_x/<T>] and
    [augmented_y/<T>] are there, and outside the output directories no
    other path has changed.  The stem is the name without its
    four-character extension. *)
Theorem paired_image_outputs (E : Externals) (total : nat)
    (image_name base_id : string) (image m : ndarray) (w : World) :
  entry_name image_name ->
  Py.endswith (Py.lower image_name) IMAGE_EXTENSION = true ->
  decoded E (fs w) (Py.path_join IMAGE_DIR image_name) IMREAD_COLOR = Some image ->
  base_id_of image_name = inr base_id ->
  Os.exists_ (fs w) (Py.path_join MASK_DIR (mask_name_of base_id)) = true ->
  decoded E (fs w) (Py.path_join MASK_DIR (mask_name_of base_id))
    IMREAD_GRAYSCALE = Some m ->
  unobstructed (fs w) ->
  writable (fs w) image_name base_id ->
  let out := process_image E total image_name w in
  fst out = inr tt
  /\ (exists evs,
        log (snd out) = log w ++ evs
        /\ map fst (written_at 203 evs)
           = map (image_output image_name) transform_names
        /\ map fst (written_at 204 evs)
           = map (mask_output base_id) transform_names
        /\ length (written_paths evs) = 10%nat
        /\ List.NoDup (written_paths evs)
        /\ (forall p a,
              In (p, a) (written_at 203 evs ++ written_at 204 evs) ->
              fs (snd out) !! p = Some (File (imencode E p a)))
        /\ Forall (fun p => exists a,
                     fs (snd out) !! p = Some (File (imencode E p a)))
             (written_paths evs)
        /\ (forall q, ~ In q out_dirs -> ~ In q (written_paths evs) ->
              fs (snd out) !! q = fs w !! q))
  /\ Forall (fun T =>
               fs (snd out) !! Py.path_join OUT_IMAGE_ROOT T = Some Dir
               /\ fs (snd out) !! Py.path_join OUT_MASK_ROOT T = Some Dir)
       transform_names
  /\ length transform_names = 5%nat
  /\ image_name
     = Py.drop_last 4 image_name
       +:+ Py.skip (String.length image_name - 4) image_name
  /\ Py.lower (Py.skip (String.length image_name - 4) image_name) = ".jpg".
Proof.
  intros Hn Hext Himg Hid Hex Hmask Hu Hw.
  destruct (process_image_saved E total image_name base_id image m w
              Hn Himg Hid Hex Hmask Hu) as (R & L & _).
  destruct (process_image_files E total image_name base_id image m w
              Hn Himg Hid Hex Hmask Hu) as (Hnd & W & P & F).
  pose proof (process_image_dirs E total image_name base_id image m w
                Hn Himg Hid Hex Hmask Hu) as D.
  pose proof (writable_saves E total image_name base_id image m w) as Hfree.
  cbv zeta. split; [exact R|].
  split; [|split; [|split; [reflexivity|]]].
  - eexists. split; [exact L|].
    split; [|split; [|split; [|split; [|split; [|split]]]]].
    + rewrite blocks_image_writes. unfold transform_names. rewrite map_map.
      apply map_ext_in. intros t Ht. apply out_image_path_spec; [assumption|].
      now apply transform_names_classes.
    + rewrite blocks_mask_writes. unfold transform_names. rewrite map_map.
      apply map_ext_in. intros t Ht. apply out_mask_path_spec.
      now apply transform_names_classes.
    + rewrite blocks_written_paths. reflexivity.
    + exact Hnd.
    + intros p a Hin. rewrite (W p a Hin), Hfree; [reflexivity | exact Hw |].
      apply in_app_or in Hin as [H|H]; eapply written_at_paths; exact H.
    + apply Forall_forall. intros p Hp. apply list_elem_of_In in Hp.
      destruct (P p Hp) as [a Ha]. exists a.
      rewrite Ha, Hfree; [reflexivity | exact Hw | exact Hp].
    + exact F.
  - unfold transform_names. apply List.Forall_map. exact D.
  - now apply discovered_stem.
Qed.

(** A run that meets the hypotheses of C1 as amended. *)
Lemma paired_image_outputs_witness :
  fst Scenario.paired_pass = inr tt
  /\ map fst (written_at 203 (log (snd Scenario.paired_pass)))
     = map (image_output "image_1.jpg") transform_names
  /\ fs (snd Scenario.paired_pass) !! Py.path_join OUT_IMAGE_ROOT "Defocus"
     = Some Dir.
Proof.
  destruct (paired_image_outputs (Toy.externals false) 5 "image_1.jpg" "1"
              Toy.colour_2x2 Toy.gray_2x2
              (started ["image_1.jpg"] Toy.paired_fs 0)
              eq_refl eq_refl eq_refl eq_refl eq_refl eq_refl
              toy_paired_unobstructed toy_paired_writable)
    as (R & (evs & L & W & _) & D & _).
  unfold Scenario.paired_pass.
  split; [exact R|]. split; [rewrite L; rewrite written_at_app; exact W|].
  apply List.Forall_cons_iff in D as [_ D].
  apply List.Forall_cons_iff in D as [[D _] _]. exact D.
Defined.

(** ** C2: the dimensions of an emitted pair *)

Lemma mask_result_shape (E : Externals) (t : transform) (seed : N) (m : ndarray) :
  shape (mask_result E t seed m) = shape m.
Proof.
  unfold mask_result. destruct (base_class t); [reflexivity|].
  apply apply_to_mask_shape.
Qed.

(** C2 as stated fails: nothing compares the two rasters.  A 2x2 image
    paired with a 1x1 mask is processed to the end, and every emitted
    mask is 1x1 beside a 2x2 image. *)
Lemma mismatched_pair_is_emitted :
  fst Scenario.small_mask_run = inr tt
  /\ map (fun e => dims (snd e))
       (written_at 203 (log (snd Scenario.small_mask_run)))
     = [[2; 2]; [2; 2]; [2; 2]; [2; 2]; [2; 2]]%nat
  /\ map (fun e => dims (snd e))
       (written_at 204 (log (snd Scenario.small_mask_run)))
     = [[1; 1]; [1; 1]; [1; 1]; [1; 1]; [1; 1]]%nat
  /\ map (fun e => dims (snd e))
       (written_at 204 (log (snd Scenario.small_mask_run)))
     <> map (fun e => dims (snd e))
          (written_at 203 (log (snd Scenario.small_mask_run))).
Proof. vm_compute. repeat split; discriminate. Qed.

(** C2, amended: when the decoded mask has the height and width of the
    decoded image, every pass of the transform loop, for every
    transform, emits a mask with the height and width of the image it
    emits, which are those of the input. *)
Theorem emitted_pair_same_dims (E : Externals) (total : nat)
    (image_name base_id : string) (image m : ndarray) (t : transform)
    (w : World) :
  entry_name image_name -> In t TRANSFORMATIONS ->
  dims m = dims image ->
  let out := augment_with E total image_name base_id image (Some m) t w in
  forall evs, log (snd out) = log w ++ evs ->
  forall p_image a p_mask b,
    In (p_image, a) (written_at 203 evs) ->
    In (p_mask, b) (written_at 204 evs) ->
    dims b = dims a /\ dims a = dims image.
Proof.
  intros Hn Ht Hdims out evs Hlog p_image a p_mask b Ha Hb. subst out.
  destruct (augment_with_summary E total image_name base_id image Hn
              (Some m) t w Ht)
    as [_ [(_ & m' & Hm & L & _) | (e & j & _ & Hj & L & _ & _)]];
    rewrite L in Hlog; apply app_inv_head in Hlog; subst evs.
  - injection Hm as <-. cbn in Ha, Hb.
    destruct Ha as [Ha | []], Hb as [Hb | []].
    injection Ha as _ <-. injection Hb as _ <-.
    unfold dims. rewrite mask_result_shape, apply_to_image_shape.
    now split.
  - destruct j as [|[|[|[|j]]]]; try lia; cbn in Hb; destruct Hb.
Qed.

Lemma emitted_pair_same_dims_witness :
  dims (mask_result (Toy.externals false) Scenario.first_transform 0
          Toy.gray_2x2)
  = dims (apply_to_image (Toy.externals false) Scenario.first_transform 0
            Toy.colour_2x2)
  /\ dims (apply_to_image (Toy.externals false) Scenario.first_transform 0
             Toy.colour_2x2)
     = dims Toy.colour_2x2.
Proof.
  exact (emitted_pair_same_dims (Toy.externals false) 5 "image_1.jpg" "1"
           Toy.colour_2x2 Toy.gray_2x2 Scenario.first_transform
           (boot Toy.paired_fs 0)
           eq_refl (or_introl eq_refl) eq_refl
           (saved_block (Toy.externals false) 5 "image_1.jpg" "1"
              Toy.colour_2x2 Toy.gray_2x2 Scenario.first_transform 0 0)
           eq_refl
           _ _ _ _ (or_introl eq_refl) (or_introl eq_refl)).
Defined.

(** ** C3: photometric transforms leave the mask alone *)

(** C3: called on an image and a mask, each of the four photometric
    transforms hands back the input mask itself, whatever the image
    operation does; the geometric [ShiftScaleRotate], the last of the
    list, hands back what the library's mask operation makes of it, and
    that can differ from the input. *)
Theorem photometric_mask_unchanged :
  map class_name (firstn 4 TRANSFORMATIONS)
  = ["RandomBrightnessContrast"; "Defocus"; "GlassBlur"; "ISONoise"]
  /\ Forall (fun t => forall E image m w,
               fst (apply_transform E t image (Some m) w)
               = inr (apply_to_image E t (rng w) image, Some m))
       (firstn 4 TRANSFORMATIONS)
  /\ Forall (fun t => class_name t = "ShiftScaleRotate"
                      /\ forall E image m w,
                           fst (apply_transform E t image (Some m) w)
                           = inr (apply_to_image E t (rng w) image,
                                  Some (apply_to_mask E t (rng w) m)))
       (skipn 4 TRANSFORMATIONS)
  /\ length (skipn 4 TRANSFORMATIONS) = 1%nat
  /\ (exists E t m seed, In t (skipn 4 TRANSFORMATIONS)
                         /\ apply_to_mask E t seed m <> m).
Proof.
  split; [reflexivity|]. split; [|split; [|split; [reflexivity|]]].
  - repeat constructor.
  - repeat constructor.
  - exists (Toy.externals false), (List.last TRANSFORMATIONS
                                     {| class_name := ""; kwargs := [] |}),
           {| shape := [1; 2]%nat; data := [1; 2]%N |}, 0%N.
    split; [simpl; auto | discriminate].
Qed.

(** ** C6: the transform list and its order *)

(** C6: the list has exactly five configurations, in the order
    brightness/contrast, defocus, glass blur, ISO noise and, last,
    [ShiftScaleRotate] with shift limit 0.02, scale limit 0.2, rotate
    limit 5, linear interpolation and constant border fill 0.  A paired
    image is taken through them in this order.  Whatever is in the way,
    the transforms applied are the first [k] of the list, in list
    order, and all five exactly when the pass completes: the rasters
    written for the transform [t] are what the call of [t] on the
    decoded image and mask returns, in the state the random generator
    was left in by the transforms before [t].  So every transform is
    applied to the decoded pair itself, the four photometric ones hand
    the mask back, and [ShiftScaleRotate], applied last, is the one
    whose mask operation is used.  With no regular file where an output
    directory is needed the pass completes: its events are the saves of
    the five transforms one after the other, and the random generator
    has been advanced by all five, in list order. *)
Theorem transforms_fixed_order (E : Externals) (total : nat)
    (image_name base_id : string) (image m : ndarray) (w : World) :
  entry_name image_name ->
  decoded E (fs w) (Py.path_join IMAGE_DIR image_name) IMREAD_COLOR = Some image ->
  base_id_of image_name = inr base_id ->
  Os.exists_ (fs w) (Py.path_join MASK_DIR (mask_name_of base_id)) = true ->
  decoded E (fs w) (Py.path_join MASK_DIR (mask_name_of base_id))
    IMREAD_GRAYSCALE = Some m ->
  length TRANSFORMATIONS = 5%nat
  /\ transform_names
     = ["RandomBrightnessContrast"; "Defocus"; "GlassBlur"; "ISONoise";
        "ShiftScaleRotate"]
  /\ last TRANSFORMATIONS
     = Some {| class_name := "ShiftScaleRotate";
               kwargs := [("shift_limit", Num 0.02); ("scale_limit", Num 0.2);
                          ("rotate_limit", Num 5);
                          ("interpolation", Cv2Const "INTER_LINEAR");
                          ("border_mode", Cv2Const "BORDER_CONSTANT");
                          ("value", Num 0); ("mask_value", Num 0);
                          ("p", Num 1.0)] |}
  /\ (forall t s,
        call E t s image (Some m)
        = inr (apply_to_image E t s image, Some (mask_result E t s m)))
  /\ Forall (fun t => forall s, mask_result E t s m = m)
       (firstn 4 TRANSFORMATIONS)
  /\ Forall (fun t => forall s, mask_result E t s m = apply_to_mask E t s m)
       (skipn 4 TRANSFORMATIONS)
  /\ (exists k evs,
        k <= 5
        /\ log (snd (process_image E total image_name w)) = log w ++ evs
        /\ written_at 203 evs
           = map (fun '(t, s) => (out_image_path image_name (class_name t),
                                  apply_to_image E t s image))
               (combine (firstn k TRANSFORMATIONS)
                  (seeds E (firstn k TRANSFORMATIONS) (rng w)))
        /\ written_at 204 evs
           = map (fun '(t, s) => (out_mask_path base_id (class_name t),
                                  mask_result E t s m))
               (combine (firstn k TRANSFORMATIONS)
                  (seeds E (firstn k TRANSFORMATIONS) (rng w)))
        /\ stdout evs = numbered total (counter w) (firstn k transform_names)
        /\ (fst (process_image E total image_name w) = inr tt <-> k = 5%nat))
  /\ (unobstructed (fs w) ->
      fst (process_image E total image_name w) = inr tt
      /\ exists evs,
           log (snd (process_image E total image_name w)) = log w ++ evs
           /\ evs = saved_blocks E total image_name base_id image m
                      TRANSFORMATIONS (counter w) (rng w)
           /\ written_at 203 evs
              = map (fun '(t, s) => (out_image_path image_name (class_name t),
                                     apply_to_image E t s image))
                  (combine TRANSFORMATIONS (seeds E TRANSFORMATIONS (rng w)))
           /\ written_at 204 evs
              = map (fun '(t, s) => (out_mask_path base_id (class_name t),
                                     mask_result E t s m))
                  (combine TRANSFORMATIONS (seeds E TRANSFORMATIONS (rng w)))
           /\ rng (snd (process_image E total image_name w))
              = fold_left (fun s t => advance_rng E t s) TRANSFORMATIONS (rng w)
           /\ made_dirs evs
              = flat_map (fun T => [Py.path_join OUT_IMAGE_ROOT T;
                                    Py.path_join OUT_MASK_ROOT T])
                  transform_names
           /\ map fst (written_at 203 evs)
              = map (out_image_path image_name) transform_names
           /\ map fst (written_at 204 evs)
              = map (out_mask_path base_id) transform_names
           /\ stdout evs = numbered total (counter w) transform_names).
Proof.
  intros Hn Himg Hid Hex Hmask.
  do 3 (split; [reflexivity|]).
  split; [intros t s; reflexivity|].
  split; [repeat constructor|]. split; [repeat constructor|].
  split.
  - rewrite (process_image_paired E total image_name base_id image)
      by assumption.
    rewrite Hmask.
    destruct (transform_loop_prefix E total image_name base_id image Hn m
                TRANSFORMATIONS (fun t H => H) w)
      as (k & tail & Hk & L & A & B & P & Q & _).
    exists k. eexists. split; [exact Hk|]. split; [exact L|].
    rewrite !written_at_app, stdout_app, A, B, P, !app_nil_r.
    split; [apply blocks_images|]. split; [apply blocks_masks|].
    split; [|exact Q].
    destruct (blocks_progress E total image_name base_id image m
                (firstn k TRANSFORMATIONS) (counter w) (rng w)) as [-> _].
    unfold transform_names. now rewrite List.firstn_map.
  - intros Hu.
    destruct (process_image_saved E total image_name base_id image m w
                Hn Himg Hid Hex Hmask Hu) as (R & L & _).
    pose proof (process_image_rng E total image_name base_id image m w
                  Hn Himg Hid Hex Hmask Hu) as Hrng.
    split; [exact R|].
    eexists. split; [exact L|]. split; [reflexivity|].
    split; [apply blocks_images|]. split; [apply blocks_masks|].
    split; [exact Hrng|].
    rewrite blocks_made_dirs, blocks_image_writes, blocks_mask_writes.
    destruct (blocks_progress E total image_name base_id image m
                TRANSFORMATIONS (counter w) (rng w)) as [-> _].
    repeat split.
Qed.

Lemma transforms_fixed_order_witness :
  exists evs,
    log (snd (process_image (Toy.externals false) 5 "image_1.jpg"
                (boot Toy.paired_fs 0)))
    = evs
    /\ stdout evs = numbered 5 0 transform_names
    /\ written_at 203 evs
       = map (fun '(t, s) => (out_image_path "image_1.jpg" (class_name t),
                              Toy.brighten t s Toy.colour_2x2))
           (combine TRANSFORMATIONS [0; 1; 2; 3; 4]%N).
Proof.
  destruct (transforms_fixed_order (Toy.externals false) 5 "image_1.jpg" "1"
              Toy.colour_2x2 Toy.gray_2x2 (boot Toy.paired_fs 0)
              eq_refl eq_refl eq_refl eq_refl eq_refl)
    as (_ & _ & _ & _ & _ & _ & _ & U).
  destruct (U toy_paired_unobstructed)
    as (_ & evs & L & _ & I & _ & _ & _ & _ & _ & S).
  exists evs. split; [exact L|]. split; [exact S | exact I].
Defined.

(** ** C4: the two skip conditions *)

(** C4: an image that does not decode, and a decoded image whose
    expected mask path does not exist, are handled alike: one warning
    line is printed and nothing else changes, no directory, no file, no
    counter; the loop goes on with the next image.  These are the only
    two ways to leave the loop body normally without output: a body
    that returns has met one of them or has saved the image under all
    five transforms. *)
Theorem skip_conditions (E : Externals) (total : nat) (image_name : string)
    (rest : list string) (w : World) :
  entry_name image_name ->
  let out := process_image E total image_name w in
  let image_path := Py.path_join IMAGE_DIR image_name in
  let mask_path_of := fun base_id => Py.path_join MASK_DIR (mask_name_of base_id) in
  (decoded E (fs w) image_path IMREAD_COLOR = None ->
   out = (inr tt,
          with_log w (log w ++ [Print 162 ("[WARNING] Failed to read image: "
                                           +:+ image_name)])))
  /\ (forall image base_id,
        decoded E (fs w) image_path IMREAD_COLOR = Some image ->
        base_id_of image_name = inr base_id ->
        Os.exists_ (fs w) (mask_path_of base_id) = false ->
        out = (inr tt,
               with_log w (log w ++ [Print 172 ("[WARNING] Mask not found: "
                                                +:+ mask_path_of base_id)])))
  /\ (fst out = inr tt ->
      decoded E (fs w) image_path IMREAD_COLOR = None
      \/ (exists image base_id,
            decoded E (fs w) image_path IMREAD_COLOR = Some image
            /\ base_id_of image_name = inr base_id
            /\ Os.exists_ (fs w) (mask_path_of base_id) = false)
      \/ (exists image base_id m,
            decoded E (fs w) image_path IMREAD_COLOR = Some image
            /\ base_id_of image_name = inr base_id
            /\ decoded E (fs w) (mask_path_of base_id) IMREAD_GRAYSCALE = Some m
            /\ log (snd out)
               = log w ++ saved_blocks E total image_name base_id image m
                            TRANSFORMATIONS (counter w) (rng w)
            /\ counter (snd out) = counter w + 5))
  /\ (fst out = inr tt ->
      for_each (image_name :: rest) (process_image E total) w
      = for_each rest (process_image E total) (snd out)).
Proof.
  intros Hn. cbv zeta. split; [|split; [|split]].
  - apply process_image_undecodable.
  - intros image base_id. apply process_image_no_mask.
  - destruct (decoded E (fs w) (Py.path_join IMAGE_DIR image_name) IMREAD_COLOR)
      as [image|] eqn:Himg; [|now left].
    destruct (base_id_of image_name) as [e|base_id] eqn:Hid.
    { rewrite (process_image_malformed E total image_name image e)
        by assumption. discriminate. }
    destruct (Os.exists_ (fs w) (Py.path_join MASK_DIR (mask_name_of base_id)))
      eqn:Hex; [|right; left; eauto].
    rewrite (process_image_paired E total image_name base_id image)
      by assumption.
    intros Hout. right. right.
    destruct (transform_loop_returns E total image_name base_id image Hn _
                TRANSFORMATIONS (fun t H => H) ltac:(discriminate) w Hout)
      as (m & Hm & L & C).
    exists image, base_id, m. auto.
  - intros Hout. cbn [for_each]. rewrite bind_run.
    destruct (process_image E total image_name w) as [[e|[]] w1];
      cbn [fst snd] in *; [discriminate | reflexivity].
Qed.

Lemma skip_conditions_witness :
  process_image (Toy.externals false) 5 "photo.jpg"
    (boot Toy.unreadable_photo_fs 0)
  = (inr tt,
     with_log (boot Toy.unreadable_photo_fs 0)
       [Print 162 "[WARNING] Failed to read image: photo.jpg"]).
Proof.
  exact (proj1 (skip_conditions (Toy.externals false) 5 "photo.jpg" []
                  (boot Toy.unreadable_photo_fs 0) eq_refl) eq_refl).
Defined.

(** ** C5: a name without the underscore *)

(** C5 as stated fails: a discovered name without an underscore whose
    image does not decode is skipped with the warning, before the id is
    ever extracted, and the run completes. *)
Lemma unreadable_malformed_name_is_skipped :
  In "photo.jpg" (image_files ["photo.jpg"])
  /\ Py.contains "_" "photo.jpg" = false
  /\ fst Scenario.unreadable_photo_run = inr tt
  /\ printed_at 162 (log (snd Scenario.unreadable_photo_run))
     = ["[WARNING] Failed to read image: photo.jpg"]
  /\ last (log (snd Scenario.unreadable_photo_run)) = Some completed.
Proof. vm_compute. repeat split; auto. Qed.

(** C5, amended: a discovered name without an underscore whose image
    decodes is not skipped: the id extraction raises [IndexError] in
    the loop body, which leaves the world as it was, and the run ends
    with an exception. *)
Theorem malformed_name_is_fatal (E : Externals) (listing : list string)
    (f : gmap string node) (seed : N) (image_name : string) (image : ndarray) :
  Forall entry_name listing ->
  In image_name (image_files listing) ->
  Py.contains "_" image_name = false ->
  decoded E f (Py.path_join IMAGE_DIR image_name) IMREAD_COLOR = Some image ->
  (forall total w,
     decoded E (fs w) (Py.path_join IMAGE_DIR image_name) IMREAD_COLOR
     = Some image ->
     process_image E total image_name w = (inl Py.IndexError, w))
  /\ exists e, fst (run E listing f seed) = inl e.
Proof.
  intros Hall Hin Hno Himg. split.
  - intros total w Hw. apply (process_image_malformed E total _ image); auto.
    now apply base_id_of_no_underscore.
  - rewrite run_unfold.
    destruct (image_loop_fatal E listing f image_name image
                (image_files listing) Hall Hno Himg (fun x H => H) Hin
                (started listing f seed) (grows_refl f)) as [e He].
    destruct (for_each (image_files listing) _ (started listing f seed))
      as [[e'|[]] w1]; cbn [fst] in *; [eauto | discriminate].
Qed.

Lemma malformed_name_is_fatal_witness :
  exists e, fst (run (Toy.externals false) ["photo.jpg"] Toy.photo_fs 0) = inl e.
Proof.
  refine (proj2 (malformed_name_is_fatal (Toy.externals false) ["photo.jpg"]
                   Toy.photo_fs 0 "photo.jpg" Toy.colour_2x2
                   _ (or_introl eq_refl) eq_refl eq_refl)).
  apply List.Forall_cons; [reflexivity | apply List.Forall_nil].
Defined.

(** ** C7: the progress lines *)

(** C7: the run first prints the summary, whose total is the number of
    discovered images times the number of transforms, whatever is
    skipped later.  Every completed pass of the transform loop ends,
    right after its two writes, with the line
    [[k/total] Saved -> <TransformName>] for the current counter [k],
    and adds one to the counter.  So the progress lines of a run are
    numbered 1, 2, 3, ... without gap, one per mask written. *)
Theorem progress_lines_numbered (E : Externals) (listing : list string)
    (f : gmap string node) (seed : N) :
  Forall entry_name listing ->
  let out := run E listing f seed in
  let total := length (image_files listing) * length TRANSFORMATIONS in
  firstn 4 (log (snd out)) = header listing
  /\ nth_error (header listing) 2
     = Some (Print 147 ("Total outputs to be saved: " +:+ Py.str total))
  /\ (exists Ts,
        printed_at 206 (log (snd out)) = numbered total 1 Ts
        /\ Forall (fun T => In T transform_names) Ts
        /\ length Ts = length (written_at 204 (log (snd out)))
        /\ counter (snd out) = 1 + length Ts)
  /\ (forall k T names,
        numbered total k (T :: names)
        = ("[" +:+ Py.str k +:+ "/" +:+ Py.str total +:+ "] Saved -> " +:+ T)
          :: numbered total (S k) names)
  /\ (forall image_name base_id image mask t w,
        In image_name (image_files listing) -> In t TRANSFORMATIONS ->
        fst (augment_with E total image_name base_id image mask t w) = inr tt ->
        exists d1 d2 a b,
          log (snd (augment_with E total image_name base_id image mask t w))
          = log w ++ [Makedirs 185 d1; Makedirs 186 d2;
                      Imwrite 203 (out_image_path image_name (class_name t)) a;
                      Imwrite 204 (out_mask_path base_id (class_name t)) b;
                      Print 206 (progress_line (counter w) total (class_name t))]
          /\ counter (snd (augment_with E total image_name base_id image mask
                             t w))
             = S (counter w)).
Proof.
  intros Hall. cbv zeta.
  destruct (run_progresses E listing f seed Hall)
    as (_ & evs & Ts & L & P & C & N & W & _).
  cbn [log counter started] in L, P, C.
  split; [now rewrite L | split; [reflexivity|]]. split; [|split].
  - exists Ts. rewrite L, printed_at_app, written_at_app, P.
    repeat split; auto.
  - reflexivity.
  - intros image_name base_id image mask t w Hin Ht Hout.
    destruct (augment_with_summary E
                (length (image_files listing) * length TRANSFORMATIONS)
                image_name base_id image
                (images_entry_names listing image_name Hall Hin) mask t w Ht)
      as [_ [(_ & m & _ & L' & C' & _) | (e & j & R & _)]]; [|congruence].
    rewrite L', C'. unfold saved_block. eauto 10.
Qed.

Lemma progress_lines_numbered_witness :
  exists Ts,
    printed_at 206 (log (snd (run (Toy.externals false) ["image_1.jpg"]
                                Toy.paired_fs 0)))
    = numbered 5 1 Ts
    /\ length Ts
       = length (written_at 204
                   (log (snd (run (Toy.externals false) ["image_1.jpg"]
                                Toy.paired_fs 0)))).
Proof.
  assert (Hall : Forall entry_name ["image_1.jpg"]).
  { apply List.Forall_cons; [reflexivity | apply List.Forall_nil]. }
  destruct (progress_lines_numbered (Toy.externals false) ["image_1.jpg"]
              Toy.paired_fs 0 Hall) as (_ & _ & (Ts & P & _ & N & _) & _).
  exists Ts. split; [exact P | exact N].
Defined.

(** ** C9: a mask file that does not decode *)

(** C9 as stated fails.  The image decodes and the expected mask file
    exists and does not decode, but a regular file is named like the
    image output root: [os.makedirs] raises [NotADirectoryError] at
    line 185, before the transform is called.  No output directory has
    been created, nothing has been written, and the random generator
    was never drawn from; this is so whether the library rejects a
    [None] mask or hands it back. *)
Lemma blocked_directory_precedes_mask_error :
  image_files ["image_1.jpg"] = ["image_1.jpg"]
  /\ decoded (Toy.externals true) Obstacle.blocked_junk_fs "X/image_1.jpg"
       IMREAD_COLOR
     = Some Toy.colour_2x2
  /\ Os.exists_ Obstacle.blocked_junk_fs "y/mask_1.png" = true
  /\ decoded (Toy.externals true) Obstacle.blocked_junk_fs "y/mask_1.png"
       IMREAD_GRAYSCALE
     = None
  /\ (fst (Obstacle.blocked_junk_run true) = inl Py.NotADirectoryError
      /\ last (log (snd (Obstacle.blocked_junk_run true)))
         = Some (Makedirs 185 "augmented_x/RandomBrightnessContrast")
      /\ made_dirs (log (snd (Obstacle.blocked_junk_run true)))
         = ["augmented_x/RandomBrightnessContrast"]
      /\ fs (snd (Obstacle.blocked_junk_run true))
         !! "augmented_x/RandomBrightnessContrast" = None
      /\ fs (snd (Obstacle.blocked_junk_run true))
         !! "augmented_y/RandomBrightnessContrast" = None
      /\ fs (snd (Obstacle.blocked_junk_run true)) !! "augmented_y" = None
      /\ written_paths (log (snd (Obstacle.blocked_junk_run true))) = [])
  /\ (fst (Obstacle.blocked_junk_run false) = inl Py.NotADirectoryError
      /\ last (log (snd (Obstacle.blocked_junk_run false)))
         = Some (Makedirs 185 "augmented_x/RandomBrightnessContrast")
      /\ fs (snd (Obstacle.blocked_junk_run false))
         !! "augmented_x/RandomBrightnessContrast" = None
      /\ fs (snd (Obstacle.blocked_junk_run false))
         !! "augmented_y/RandomBrightnessContrast" = None
      /\ rng (snd (Obstacle.blocked_junk_run false)) = 0%N
      /\ written_paths (log (snd (Obstacle.blocked_junk_run false))) = []).
Proof. vm_compute. repeat split. Qed.

(** C9, amended: when the image decodes and the expected mask file
    exists but does not decode, and no regular file sits where an
    output directory is needed, no warning is printed and the image is
    not skipped: the first pass of the transform loop makes the two
    output directories of the first transform and then raises, in the
    transform or, if the library hands the [None] back, in the mask
    write.  Nothing is printed, no mask is written, and the exception
    ends the loop over the images. *)
Theorem undecodable_mask_is_fatal (E : Externals) (total : nat)
    (image_name base_id : string) (image : ndarray) (rest : list string)
    (w : World) :
  entry_name image_name ->
  decoded E (fs w) (Py.path_join IMAGE_DIR image_name) IMREAD_COLOR = Some image ->
  base_id_of image_name = inr base_id ->
  Os.exists_ (fs w) (Py.path_join MASK_DIR (mask_name_of base_id)) = true ->
  decoded E (fs w) (Py.path_join MASK_DIR (mask_name_of base_id))
    IMREAD_GRAYSCALE = None ->
  unobstructed (fs w) ->
  let out := process_image E total image_name w in
  exists e evs,
    fst out = inl e
    /\ (e = Py.TransformError \/ e = Py.Cv2Error)
    /\ log (snd out) = log w ++ evs
    /\ stdout evs = []
    /\ made_dirs evs
       = [Py.path_join OUT_IMAGE_ROOT "RandomBrightnessContrast";
          Py.path_join OUT_MASK_ROOT "RandomBrightnessContrast"]
    /\ written_at 204 evs = []
    /\ fs (snd out) !! "augmented_x/RandomBrightnessContrast" = Some Dir
    /\ fs (snd out) !! "augmented_y/RandomBrightnessContrast" = Some Dir
    /\ counter (snd out) = counter w
    /\ fst (for_each (image_name :: rest) (process_image E total) w) = inl e.
Proof.
  intros Hn Himg Hid Hex Hmask Hu. cbv zeta.
  assert (Hrun : forall r w1, process_image E total image_name w = (r, w1) ->
                 fst (for_each (image_name :: rest) (process_image E total) w)
                 = match r with inl e => inl e | inr _ =>
                     fst (for_each rest (process_image E total) w1) end).
  { intros r w1 H. cbn [for_each]. rewrite bind_run, H. now destruct r. }
  rewrite (process_image_paired E total image_name base_id image) in *
    by assumption.
  rewrite Hmask in *. unfold TRANSFORMATIONS in *. cbn [for_each] in *.
  rewrite bind_run in *.
  match goal with
  | |- context [augment_with E total image_name base_id image None ?t w] =>
      destruct (augment_with_none E total image_name base_id image Hn t w
                  ltac:(simpl; auto) Hu)
        as (e & j & R & Hj & L & D1 & D2 & C);
      destruct (augment_with E total image_name base_id image None t w)
        as [r w1] eqn:Hout
  end.
  cbn [fst snd class_name] in *. subst r.
  exists e, (firstn j (attempt_events E image_name image
                          Scenario.first_transform (rng w))).
  specialize (Hrun (inl e) w1 eq_refl).
  destruct Hj as [(_ & -> & ->) | (_ & -> & ->)]; cbn;
    repeat split; auto.
Qed.

Lemma undecodable_mask_is_fatal_witness :
  exists e evs,
    fst (process_image (Toy.externals false) 5 "image_1.jpg"
           (boot Toy.junk_mask_fs 0)) = inl e
    /\ (e = Py.TransformError \/ e = Py.Cv2Error)
    /\ log (snd (process_image (Toy.externals false) 5 "image_1.jpg"
                   (boot Toy.junk_mask_fs 0))) = evs
    /\ stdout evs = [].
Proof.
  assert (Hu : unobstructed Toy.junk_mask_fs).
  { intros d bytes Hd. unfold out_dirs, transform_names in Hd. simpl in Hd.
    repeat (destruct Hd as [<- | Hd]; [vm_compute; discriminate|]).
    destruct Hd. }
  destruct (undecodable_mask_is_fatal (Toy.externals false) 5 "image_1.jpg"
              "1" Toy.colour_2x2 [] (boot Toy.junk_mask_fs 0)
              eq_refl eq_refl eq_refl eq_refl eq_refl Hu)
    as (e & evs & R & He & L & S & _).
  exists e, evs. repeat split; assumption.
Defined.

(** ** C10: names with more than one underscore *)

(** C10: for a name [a_b_c] the id is the part of [b], the segment
    between the first and the second underscore, before its first dot,
    as for the name [a_b]; whatever follows the second underscore is
    ignored.  For [image_1_copy.jpg] the mask looked up is [mask_1.png]
    while the image outputs keep the stem [image_1_copy]; so it pairs
    with the same mask as [image_1.jpg], and a run over both writes the
    mask outputs of the one over those of the other. *)
Theorem id_is_second_segment (a b c : string) :
  Py.contains "_" a = false -> Py.contains "_" b = false ->
  (exists base_id tail,
     Py.split "." b = base_id :: tail
     /\ base_id_of (a +:+ "_" +:+ b +:+ "_" +:+ c) = inr base_id
     /\ base_id_of (a +:+ "_" +:+ b) = inr base_id)
  /\ base_id_of "image_1_copy.jpg" = inr "1"
  /\ base_id_of "image_1.jpg" = inr "1"
  /\ Py.path_join MASK_DIR (mask_name_of "1") = "y/mask_1.png"
  /\ map (out_image_path "image_1_copy.jpg") transform_names
     = map (fun T => "augmented_x/" +:+ T +:+ "/image_1_copy-" +:+ T +:+ ".jpg")
         transform_names
  /\ image_files ["image_1.jpg"; "image_1_copy.jpg"]
     = ["image_1.jpg"; "image_1_copy.jpg"]
  /\ fst Scenario.copies_run = inr tt
  /\ map fst (written_at 204 (log (snd Scenario.copies_run)))
     = map (out_mask_path "1") transform_names
       ++ map (out_mask_path "1") transform_names.
Proof.
  intros Ha Hb. split.
  - destruct (split_head "." b) as (base_id & tail & Hs).
    exists base_id, tail. split; [exact Hs|].
    unfold base_id_of.
    change (a +:+ "_" +:+ b +:+ "_" +:+ c)
      with (a +:+ String "_" (b +:+ String "_" c)).
    change (a +:+ "_" +:+ b) with (a +:+ String "_" b).
    rewrite !split_at_separator by assumption.
    rewrite (split_no_separator "_" b Hb). cbn [lookup list_lookup].
    rewrite Hs. now split.
  - vm_compute. repeat split.
Qed.

Lemma id_is_second_segment_witness :
  exists base_id tail,
    Py.split "." "1.5" = base_id :: tail
    /\ base_id_of ("image" +:+ "_" +:+ "1.5" +:+ "_" +:+ "copy.jpg") = inr base_id
    /\ base_id_of ("image" +:+ "_" +:+ "1.5") = inr base_id.
Proof.
  exact (proj1 (id_is_second_segment "image" "1.5" "copy.jpg" eq_refl eq_refl)).
Defined.

(** ** C8: running the script again *)

(** C8: every path written is the image or mask output path of a
    discovered name under a transform name, a function of these two
    only.  A second run on what the first run left, with the same
    listing and whatever random draws, ends the same way, prints the
    same lines, asks for the same directories and writes to the same
    paths in the same order; it adds no entry to the file system.
    After the first run, a written path that is no directory holds the
    encoding of the raster the first run wrote to it last; after the
    second run it holds the encoding of the raster the second run wrote
    to it last, so the prior output is overwritten; and every path the
    second run did not write holds what the first run left there. *)
Theorem rerun_overwrites (E : Externals) (listing : list string)
    (f : gmap string node) (seed1 seed2 : N) :
  Forall entry_name listing ->
  let first := run E listing f seed1 in
  let second := run E listing (fs (snd first)) seed2 in
  Forall (output_path listing) (written_paths (log (snd first)))
  /\ fst second = fst first
  /\ written_paths (log (snd second)) = written_paths (log (snd first))
  /\ made_dirs (log (snd second)) = made_dirs (log (snd first))
  /\ stdout (log (snd second)) = stdout (log (snd first))
  /\ dom (fs (snd second)) = dom (fs (snd first))
  /\ (forall p a, last_written (log (snd first)) p = Some a ->
        Os.isdir f p = false ->
        fs (snd first) !! p = Some (File (imencode E p a)))
  /\ (forall p a, last_written (log (snd second)) p = Some a ->
        Os.isdir f p = false ->
        fs (snd second) !! p = Some (File (imencode E p a)))
  /\ (forall p, In p (written_paths (log (snd first))) ->
        exists a, last_written (log (snd second)) p = Some a)
  /\ (forall q, ~ In q (written_paths (log (snd second))) ->
        fs (snd second) !! q = fs (snd first) !! q).
Proof.
  intros Hall. cbv zeta.
  destruct (run_progresses E listing f seed1 Hall)
    as (G1 & evs & Ts & L1 & _ & _ & _ & _ & O1).
  pose proof (run_progresses E listing (fs (snd (run E listing f seed1)))
                seed2 Hall) as (G2 & _).
  cbn [fs log started] in G1, G2, L1.
  assert (Hboot : alike (boot f seed1)
                    (boot (fs (snd (run E listing f seed1))) seed2)).
  { split; [exact G1|]. now split. }
  destruct (simulates_main E listing Hall _ _ Hboot) as (R & (_ & _ & L) & D & _).
  fold (run E listing f seed1) in R, L, D.
  fold (run E listing (fs (snd (run E listing f seed1))) seed2) in R, L, D.
  cbn [fs boot] in D.
  pose proof (run_settles E listing f seed1 Hall) as S1.
  pose proof (run_settles E listing (fs (snd (run E listing f seed1))) seed2
                Hall) as S2.
  destruct (settles_written E _ _ _ S1 eq_refl) as [W1 _].
  destruct (settles_written E _ _ _ S2 eq_refl) as [W2 F2].
  cbn [fs log boot app] in W1, W2, F2.
  assert (Hpaths : written_paths
                     (log (snd (run E listing (fs (snd (run E listing f seed1)))
                                  seed2)))
                   = written_paths (log (snd (run E listing f seed1)))).
  { now rewrite <- erase_written_paths, <- L, erase_written_paths. }
  assert (Hdom : dom (fs (snd (run E listing (fs (snd (run E listing f seed1)))
                                 seed2)))
                 = dom (fs (snd (run E listing f seed1)))).
  { apply set_eq. intros p. split; intros Hp.
    + apply D in Hp. set_solver.
    + exact (grows_dom _ _ G2 p Hp). }
  split; [|split; [|split; [|split; [|split; [|split; [|split; [|split;
    [|split]]]]]]]].
  - rewrite L1, written_paths_app. exact O1.
  - destruct (fst (run E listing f seed1)) as [e1|[]],
      (fst (run E listing (fs (snd (run E listing f seed1))) seed2))
      as [e2|[]]; cbn [alike_result] in R; congruence || contradiction.
  - exact Hpaths.
  - now rewrite <- erase_made_dirs, <- L, erase_made_dirs.
  - now rewrite <- erase_stdout, <- L, erase_stdout.
  - exact Hdom.
  - intros p a Hp Hd. rewrite (W1 p a Hp). now rewrite Hd.
  - intros p a Hp Hd. rewrite (W2 p a Hp).
    assert (Hq : ~ In p out_dirs).
    { destruct S2 as (evs2 & L2 & P2 & _). cbn [log boot app] in L2.
      rewrite Forall_forall in P2. apply P2. apply list_elem_of_In.
      rewrite <- L2. eapply last_written_path, Hp. }
    rewrite (settles_isdir E _ _ p S1 Hq). cbn [fs boot]. now rewrite Hd.
  - intros p Hp. apply written_path_last. now rewrite Hpaths.
  - intros q Hq. destruct (in_dec String.string_dec q out_dirs) as [Hin|Hout].
    + destruct G2 as (_ & G2 & _). destruct (G2 q Hin) as [H | (Hn & Hd & _)];
        [exact H|].
      exfalso. apply not_elem_of_dom in Hn. apply Hn. rewrite <- Hdom.
      apply elem_of_dom. rewrite Hd. eauto.
    + apply F2; [exact Hout|]. now apply last_written_none.
Qed.

Lemma rerun_overwrites_witness :
  dom (fs (snd (run (Toy.externals false) ["image_1.jpg"]
                  (fs (snd (run (Toy.externals false) ["image_1.jpg"]
                              Toy.paired_fs 0))) 7)))
  = dom (fs (snd (run (Toy.externals false) ["image_1.jpg"]
                    Toy.paired_fs 0))).
Proof.
  assert (Hall : Forall entry_name ["image_1.jpg"]).
  { apply List.Forall_cons; [reflexivity | apply List.Forall_nil]. }
  destruct (rerun_overwrites (Toy.externals false) ["image_1.jpg"]
              Toy.paired_fs 0 7 Hall) as (_ & _ & _ & _ & _ & D & _).
  exact D.
Defined.

(** * Further properties of the script *)

(** ** Runs in which every image is skipped *)

Section AllSkipped.

Context (E : Externals).

Lemma process_image_skip (total : nat) (image_name : string) (ev : event)
    (w : World) :
  skip_event E (fs w) image_name = Some ev ->
  process_image E total image_name w = (inr tt, with_log w (log w ++ [ev])).
Proof.
  unfold skip_event. intros H.
  destruct (decoded E (fs w) (Py.path_join IMAGE_DIR image_name) IMREAD_COLOR)
    as [image|] eqn:Himg.
  - destruct (base_id_of image_name) as [e|base_id] eqn:Hid; [discriminate|].
    destruct (Os.exists_ (fs w) (Py.path_join MASK_DIR (mask_name_of base_id)))
      eqn:Hex; [discriminate|].
    injection H as <-. now apply (process_image_no_mask E total _ base_id image).
  - injection H as <-. now apply process_image_undecodable.
Qed.

Lemma image_loop_all_skipped (total : nat) (names : list string) :
  forall w,
  (forall x, In x names -> is_Some (skip_event E (fs w) x)) ->
  for_each names (process_image E total) w
  = (inr tt, with_log w (log w ++ omap (skip_event E (fs w)) names)).
Proof.
  induction names as [|x names IH]; intros w Hall.
  - cbn. rewrite app_nil_r. now destruct w.
  - cbn [for_each]. rewrite bind_run.
    destruct (Hall x (or_introl eq_refl)) as [ev Hev].
    rewrite (process_image_skip total x ev w Hev).
    rewrite IH by (intros y Hy; apply Hall; now right).
    world_simpl. change (omap ?g (x :: names))
      with (match g x with Some y => y :: omap g names | None => omap g names end).
    rewrite Hev. unfold with_log. world_simpl. now rewrite <- app_assoc.
Qed.

End AllSkipped.

(** X1: when every discovered image fails one of the two checks (in
    particular when no image is discovered), the run completes, prints
    the summary, one warning per image in listing order and the
    completion line, and leaves the file system exactly as it was:
    no directory is created and the counter stays at 1. *)
Theorem all_skipped_run_changes_nothing (E : Externals)
    (listing : list string) (f : gmap string node) (seed : N) :
  (forall x, In x (image_files listing) -> is_Some (skip_event E f x)) ->
  run E listing f seed
  = (inr tt,
     {| fs := f;
        log := header listing
               ++ omap (skip_event E f) (image_files listing) ++ [completed];
        counter := 1;
        rng := seed |}).
Proof.
  intros Hall. rewrite run_unfold.
  rewrite (image_loop_all_skipped E _ (image_files listing)
             (started listing f seed) Hall).
  unfold with_log, started. world_simpl. now rewrite <- app_assoc.
Qed.

Lemma all_skipped_run_changes_nothing_witness :
  run (Toy.externals false) ["photo.jpg"] Toy.unreadable_photo_fs 0
  = (inr tt,
     {| fs := Toy.unreadable_photo_fs;
        log := header ["photo.jpg"]
               ++ [Print 162 "[WARNING] Failed to read image: photo.jpg";
                   completed];
        counter := 1;
        rng := 0%N |}).
Proof.
  refine (all_skipped_run_changes_nothing (Toy.externals false) ["photo.jpg"]
            Toy.unreadable_photo_fs 0 _).
  intros x [<- | []]. vm_compute. eauto.
Defined.

(** ** What a fatal error leaves behind *)

Lemma for_each_app {A} (xs ys : list A) (body : A -> M unit) (w : World) :
  for_each (xs ++ ys) body w
  = match for_each xs body w with
    | (inl e, w') => (inl e, w')
    | (inr _, w') => for_each ys body w'
    end.
Proof.
  revert w; induction xs as [|x xs IH]; intros w; [reflexivity|].
  cbn [app for_each]. rewrite !bind_run.
  destruct (body x w) as [[e|[]] w1]; [reflexivity | apply IH].
Qed.

(** X2: there is no rollback.  When the images before a readable image
    without an underscore were processed normally, the run ends with
    [IndexError] in exactly the world those images left: their outputs
    and progress lines stay, the images after it are never read, and
    the completion line is not printed. *)
Theorem fatal_name_keeps_earlier_outputs (E : Externals)
    (listing before after : list string) (bad : string) (image : ndarray)
    (f : gmap string node) (seed : N) (w1 : World) :
  Forall entry_name listing ->
  image_files listing = before ++ bad :: after ->
  for_each before
    (process_image E (length (image_files listing) * length TRANSFORMATIONS))
    (started listing f seed) = (inr tt, w1) ->
  Py.contains "_" bad = false ->
  decoded E f (Py.path_join IMAGE_DIR bad) IMREAD_COLOR = Some image ->
  run E listing f seed = (inl Py.IndexError, w1).
Proof.
  intros Hall Hfiles Hbefore Hno Himg.
  pose proof (image_loop_progresses E listing before (started listing f seed)
                Hall) as P.
  rewrite run_unfold, Hfiles, for_each_app.
  rewrite Hfiles in Hbefore, P. rewrite Hbefore in *. cbn [snd] in P.
  destruct P as [G _].
  { intros x Hx. apply in_or_app. now left. }
  cbn [for_each]. rewrite bind_run.
  rewrite (process_image_malformed E _ bad image Py.IndexError); [reflexivity | |].
  - destruct (grows_decoded E f (fs w1) _ IMREAD_COLOR G
                (image_path_outside bad)) as [-> _]. exact Himg.
  - now apply base_id_of_no_underscore.
Qed.

Lemma fatal_name_keeps_earlier_outputs_witness :
  run (Toy.externals false) ["image_1.jpg"; "photo.jpg"; "image_2.jpg"]
    Toy.photo_first_fs 0
  = (inl Py.IndexError,
     snd (for_each ["image_1.jpg"]
            (process_image (Toy.externals false) 15)
            (started ["image_1.jpg"; "photo.jpg"; "image_2.jpg"]
               Toy.photo_first_fs 0))).
Proof.
  refine (fatal_name_keeps_earlier_outputs (Toy.externals false)
            ["image_1.jpg"; "photo.jpg"; "image_2.jpg"]
            ["image_1.jpg"] ["image_2.jpg"] "photo.jpg" Toy.colour_2x2
            Toy.photo_first_fs 0 _ _ eq_refl _ eq_refl eq_refl).
  - repeat (apply List.Forall_cons; [reflexivity|]). apply List.Forall_nil.
  - vm_compute. reflexivity.
Defined.

(** ** Runs in which every image is saved *)

Section AllSaved.

Context (E : Externals).
Variables (listing : list string) (f : gmap string node).
Hypothesis listing_ok : Forall entry_name listing.
Hypothesis free : unobstructed f.

Local Abbreviation total :=
  (length (image_files listing) * length TRANSFORMATIONS).

Lemma decoded_exists (p : string) (flag : imread_flag) (a : ndarray)
    (g : gmap string node) :
  decoded E g p flag = Some a -> Os.exists_ g p = true.
Proof.
  unfold decoded, Os.exists_. now destruct (g !! p).
Qed.

Lemma image_loop_all_saved (names : list string) :
  (forall x, In x names -> In x (image_files listing) /\ saveable E f x) ->
  forall w, grows f (fs w) ->
  let out := for_each names (process_image E total) w in
  fst out = inr tt
  /\ grows f (fs (snd out))
  /\ exists evs,
       log (snd out) = log w ++ evs
       /\ stdout evs
          = numbered total (counter w)
              (flat_map (fun _ => transform_names) names)
       /\ length (written_at 203 evs) = length names * length TRANSFORMATIONS
       /\ length (written_at 204 evs) = length names * length TRANSFORMATIONS
       /\ counter (snd out) = counter w + length names * length TRANSFORMATIONS.
Proof.
  induction names as [|x names IH]; intros Hall w G; cbv zeta.
  - cbn [for_each]. unfold ret. cbn [fst snd].
    split; [reflexivity|]. split; [exact G|]. exists [].
    rewrite app_nil_r. cbn. repeat split; lia.
  - cbn [for_each]. rewrite bind_run.
    destruct (Hall x (or_introl eq_refl))
      as (Hx & image & base_id & m & Himg & Hid & Hmask).
    pose proof (images_entry_names listing x listing_ok Hx) as Hn.
    destruct (grows_decoded E f (fs w) _ IMREAD_COLOR G (image_path_outside x))
      as [Himg' _]. rewrite Himg in Himg'.
    destruct (grows_decoded E f (fs w) _ IMREAD_GRAYSCALE G
                (mask_path_outside base_id)) as [Hmask' _].
    rewrite Hmask in Hmask'.
    destruct (process_image_saved E total x base_id image m w Hn Himg' Hid
                (decoded_exists _ _ _ _ Hmask') Hmask'
                (grows_unobstructed _ _ G free)) as (R & L & C & G1 & _).
    destruct (process_image E total x w) as [r w1]; cbn [fst snd] in *.
    subst r.
    destruct (IH (fun y Hy => Hall y (or_intror Hy)) w1
                (grows_trans _ _ _ G G1)) as (R2 & G2 & evs & L2 & S2 & A2 & B2 & C2).
    split; [exact R2|]. split; [exact G2|].
    exists (saved_blocks E total x base_id image m TRANSFORMATIONS
              (counter w) (rng w) ++ evs).
    split; [rewrite L2, L; now rewrite <- app_assoc|].
    destruct (blocks_progress E total x base_id image m TRANSFORMATIONS
                (counter w) (rng w)) as [S1 _].
    pose proof (f_equal (@length _)
                  (blocks_image_writes E total x base_id image m
                     TRANSFORMATIONS (counter w) (rng w))) as A1.
    pose proof (f_equal (@length _)
                  (blocks_mask_writes E total x base_id image m
                     TRANSFORMATIONS (counter w) (rng w))) as B1.
    rewrite !length_map in A1, B1.
    split; [|split; [|split]].
    + rewrite stdout_app, S1, S2, C. cbn [flat_map].
      rewrite numbered_app. unfold transform_names. now rewrite length_map.
    + rewrite written_at_app, length_app, A1, A2. cbn [length]. lia.
    + rewrite written_at_app, length_app, B1, B2. cbn [length]. lia.
    + rewrite C2, C. cbn [length]. lia.
Qed.

End AllSaved.

(** X3: when every discovered image decodes, has an underscore in its
    name and a mask file that decodes, and no regular file is in the
    way of an output directory, the run completes: standard output is
    the summary, the progress lines [1/total] to [total/total] with the
    transform names cycling in list order, and the completion line;
    [cv2.imwrite] is called [total] times at line 203 and [total] times
    at line 204, and the counter ends at [total + 1].  Every path it
    was called on holds afterwards the encoding of the raster written to
    it last, unless a directory sits there, which stays; outside the
    output directories no other path has changed.  The calls are
    counted, not the files: a call on a directory writes nothing and
    two images can share an output path. *)
Theorem all_saved_run_reaches_total (E : Externals) (listing : list string)
    (f : gmap string node) (seed : N) :
  Forall entry_name listing ->
  unobstructed f ->
  (forall x, In x (image_files listing) -> saveable E f x) ->
  let out := run E listing f seed in
  let total := length (image_files listing) * length TRANSFORMATIONS in
  fst out = inr tt
  /\ stdout (log (snd out))
     = stdout (header listing)
       ++ numbered total 1
            (flat_map (fun _ => transform_names) (image_files listing))
       ++ stdout [completed]
  /\ length (written_at 203 (log (snd out))) = total
  /\ length (written_at 204 (log (snd out))) = total
  /\ counter (snd out) = total + 1
  /\ (forall p, In p (written_paths (log (snd out))) ->
        exists a,
          last_written (log (snd out)) p = Some a
          /\ fs (snd out) !! p
             = if Os.isdir f p then Some Dir
               else Some (File (imencode E p a)))
  /\ (forall q, ~ In q out_dirs -> ~ In q (written_paths (log (snd out))) ->
        fs (snd out) !! q = f !! q).
Proof.
  intros Hall Hfree Hgood. cbv zeta.
  pose proof (run_settles E listing f seed Hall) as S.
  destruct (settles_written E _ _ _ S eq_refl) as [W F].
  cbn [fs log boot app] in W, F.
  assert (Hfiles :
            (forall p, In p (written_paths (log (snd (run E listing f seed)))) ->
               exists a,
                 last_written (log (snd (run E listing f seed))) p = Some a
                 /\ fs (snd (run E listing f seed)) !! p
                    = if Os.isdir f p then Some Dir
                      else Some (File (imencode E p a)))
            /\ (forall q, ~ In q out_dirs ->
                   ~ In q (written_paths (log (snd (run E listing f seed)))) ->
                   fs (snd (run E listing f seed)) !! q = f !! q)).
  { split.
    - intros p Hp. apply written_path_last in Hp as [a Ha]. exists a.
      split; [exact Ha | now apply W].
    - intros q Hq Hn. apply F; [exact Hq|]. now apply last_written_none. }
  revert Hfiles. clear S W F. rewrite run_unfold.
  destruct (image_loop_all_saved E listing f Hall Hfree (image_files listing)
              (fun x Hx => conj Hx (Hgood x Hx))
              (started listing f seed) (grows_refl f))
    as (R & _ & evs & L & S & A & B & C).
  destruct (for_each (image_files listing) _ (started listing f seed))
    as [r w]; cbn [fst snd] in *. subst r.
  cbn [started log counter] in L, S, C.
  unfold with_log. world_simpl. rewrite L. intros [H1 H2].
  split; [reflexivity|]. split; [|split; [|split; [|split; [|split]]]].
  - now rewrite !stdout_app, S.
  - rewrite !written_at_app, !length_app, A. cbn. lia.
  - rewrite !written_at_app, !length_app, B. cbn. lia.
  - rewrite C. lia.
  - exact H1.
  - exact H2.
Qed.

Lemma all_saved_run_reaches_total_witness :
  fst (run (Toy.externals false) ["image_1.jpg"] Toy.paired_fs 0) = inr tt
  /\ counter (snd (run (Toy.externals false) ["image_1.jpg"] Toy.paired_fs 0))
     = (5 + 1)%nat.
Proof.
  destruct (all_saved_run_reaches_total (Toy.externals false) ["image_1.jpg"]
              Toy.paired_fs 0) as (R & _ & _ & _ & C & _).
  - apply List.Forall_cons; [reflexivity | apply List.Forall_nil].
  - exact toy_paired_unobstructed.
  - intros x [<- | []]. exists Toy.colour_2x2, "1", Toy.gray_2x2.
    repeat split.
  - split; [exact R | exact C].
Defined.

(** ** The progress counter never passes the total *)

Section CounterBound.

Context (E : Externals).
Variable total : nat.

Lemma transform_loop_counter_le (image_name base_id : string)
    (image : ndarray) (mask : option ndarray) (ts : list transform) :
  entry_name image_name ->
  (forall t, In t ts -> In t TRANSFORMATIONS) ->
  forall w,
  counter (snd (for_each ts
                  (augment_with E total image_name base_id image mask) w))
  <= counter w + length ts.
Proof.
  intros Hn. induction ts as [|t ts IH]; intros Hts w.
  - cbn. lia.
  - cbn [for_each]. rewrite bind_run.
    destruct (augment_with_summary E total image_name base_id image Hn mask t w
                (Hts t (or_introl eq_refl)))
      as [_ [(_ & _ & _ & _ & C & _) | (e & j & R & _ & _ & C & _)]];
      destruct (augment_with E total image_name base_id image mask t w)
        as [r w1]; cbn [fst snd length] in *.
    + specialize (IH (fun x H => Hts x (or_intror H)) w1).
      destruct r as [e|[]]; cbn [snd]; lia.
    + subst r. cbn [snd]. lia.
Qed.

Lemma process_image_counter_le (image_name : string) (w : World) :
  entry_name image_name ->
  counter (snd (process_image E total image_name w))
  <= counter w + length TRANSFORMATIONS.
Proof.
  intros Hn.
  destruct (decoded E (fs w) (Py.path_join IMAGE_DIR image_name) IMREAD_COLOR)
    as [image|] eqn:Himg.
  2:{ rewrite process_image_undecodable by assumption. cbn. lia. }
  destruct (base_id_of image_name) as [e|base_id] eqn:Hid.
  { rewrite (process_image_malformed E total _ image e) by assumption.
    cbn. lia. }
  destruct (Os.exists_ (fs w) (Py.path_join MASK_DIR (mask_name_of base_id)))
    eqn:Hex.
  - rewrite (process_image_paired E total _ base_id image) by assumption.
    now apply transform_loop_counter_le.
  - rewrite (process_image_no_mask E total _ base_id image) by assumption.
    cbn. lia.
Qed.

Lemma image_loop_counter_le (names : list string) :
  Forall entry_name names ->
  forall w,
  counter (snd (for_each names (process_image E total) w))
  <= counter w + length names * length TRANSFORMATIONS.
Proof.
  induction 1 as [|x names Hx _ IH]; intros w.
  - cbn. lia.
  - cbn [for_each]. rewrite bind_run.
    pose proof (process_image_counter_le x w Hx) as Cx.
    destruct (process_image E total x w) as [[e|[]] w1]; cbn [fst snd] in *.
    + cbn [length]. lia.
    + specialize (IH w1). cbn [length]. lia.
Qed.

Lemma in_numbered (k : nat) (Ts : list string) (line : string) :
  In line (numbered total k Ts) ->
  exists i T, k <= i < k + length Ts /\ In T Ts
              /\ line = progress_line i total T.
Proof.
  revert k; induction Ts as [|T Ts IH]; intros k; cbn [numbered]; [intros []|].
  intros [<- | Hin].
  - exists k, T. cbn. repeat split; auto; lia.
  - destruct (IH (S k) Hin) as (i & T' & Hi & HT & ->).
    exists i, T'. cbn [length]. repeat split; auto; try lia. now right.
Qed.

Lemma length_numbered (k : nat) (Ts : list string) :
  length (numbered total k Ts) = length Ts.
Proof.
  revert k; induction Ts as [|T Ts IH]; intros k; cbn [numbered length];
    [reflexivity | now rewrite IH].
Qed.

End CounterBound.

(** X4: in every run, however it ends, each progress line is
    [[k/total] Saved -> T] with [1 <= k <= total] and [T] a transform
    name: the numerator never passes the total printed in the summary,
    there are at most [total] progress lines, and the counter never
    ends above [total + 1]. *)
Theorem progress_never_passes_total (E : Externals) (listing : list string)
    (f : gmap string node) (seed : N) :
  Forall entry_name listing ->
  let out := run E listing f seed in
  let total := length (image_files listing) * length TRANSFORMATIONS in
  counter (snd out) <= total + 1
  /\ length (printed_at 206 (log (snd out))) <= total
  /\ forall line, In line (printed_at 206 (log (snd out))) ->
       exists k T, 1 <= k <= total /\ In T transform_names
                   /\ line = progress_line k total T.
Proof.
  intros Hall. cbv zeta.
  destruct (run_progresses E listing f seed Hall)
    as (_ & evs & Ts & L & P & C & N & _).
  cbn [log counter started] in L, P, C.
  assert (Hc : counter (snd (run E listing f seed))
               <= length (image_files listing) * length TRANSFORMATIONS + 1).
  { rewrite run_unfold.
    assert (Hnames : Forall entry_name (image_files listing)).
    { apply List.Forall_forall. intros x Hx.
      now apply (images_entry_names listing). }
    pose proof (image_loop_counter_le E
                  (length (image_files listing) * length TRANSFORMATIONS)
                  (image_files listing) Hnames (started listing f seed)) as Hle.
    destruct (for_each (image_files listing) _ (started listing f seed))
      as [[e|[]] w]; cbn [fst snd counter started with_log] in *; lia. }
  assert (Hlen : length (printed_at 206 (log (snd (run E listing f seed))))
                 = length Ts).
  { rewrite L, printed_at_app, P, length_app, length_numbered. reflexivity. }
  split; [exact Hc|]. split; [lia|].
  intros line Hin. rewrite L, printed_at_app, P in Hin.
  cbn in Hin.
  destruct (in_numbered _ _ _ _ Hin) as (i & T & Hi & HT & ->).
  exists i, T. split; [lia|]. split; [|reflexivity].
  rewrite Forall_forall in N. apply N. now apply list_elem_of_In.
Qed.

Lemma progress_never_passes_total_witness :
  counter (snd (run (Toy.externals false) ["image_1.jpg"; "image_2.jpg"]
                  Toy.paired_fs 0))
  <= 2 * 5 + 1.
Proof.
  refine (proj1 (progress_never_passes_total (Toy.externals false)
                   ["image_1.jpg"; "image_2.jpg"] Toy.paired_fs 0 _)).
  repeat (apply List.Forall_cons; [reflexivity|]). apply List.Forall_nil.
Defined.

(** ** What a run never touches *)

Lemma grows_keeps_kind (f F : gmap string node) (p : string) :
  grows f F ->
  (f !! p = Some Dir -> F !! p = Some Dir)
  /\ (forall bytes, f !! p = Some (File bytes) ->
        exists bytes', F !! p = Some (File bytes')).
Proof.
  intros (_ & A2 & A3).
  destruct (in_dec String.string_dec p out_dirs) as [Hin | Hout].
  - destruct (A2 p Hin) as [-> | (Hn & _)].
    + split; [auto | eauto].
    + rewrite Hn. split; [discriminate | intros ?; discriminate].
  - destruct (A3 p Hout) as [Hd Hs]. unfold Os.isdir in Hd. split.
    + intros Hf. rewrite Hf in Hd. destruct (F !! p) as [[|]|]; congruence.
    + intros bytes Hf. rewrite Hf in Hd, Hs.
      destruct Hs as [x Hx]; [eauto|]. rewrite Hx in *.
      destruct x; [discriminate | eauto].
Qed.

(** X5: a run, however it ends, changes nothing outside the two output
    roots: every path that does not start with [augmented_] holds after
    the run what it held before, so the input images and masks are
    never modified.  No entry is removed, a directory stays a directory
    and a regular file stays a regular file, and every path handed to
    [cv2.imwrite] starts with [augmented_]. *)
Theorem run_leaves_inputs_alone (E : Externals) (listing : list string)
    (f : gmap string node) (seed : N) :
  Forall entry_name listing ->
  let out := run E listing f seed in
  (forall p, Py.startswith p "augmented_" = false -> fs (snd out) !! p = f !! p)
  /\ dom f ⊆ dom (fs (snd out))
  /\ (forall p, f !! p = Some Dir -> fs (snd out) !! p = Some Dir)
  /\ (forall p bytes, f !! p = Some (File bytes) ->
        exists bytes', fs (snd out) !! p = Some (File bytes'))
  /\ Forall (fun p => Py.startswith p "augmented_" = true)
       (written_paths (log (snd out))).
Proof.
  intros Hall. cbv zeta.
  destruct (run_progresses E listing f seed Hall)
    as (G & evs & Ts & L & _ & _ & _ & _ & O).
  cbn [fs log started] in G, L.
  split; [apply G|]. split; [now apply grows_dom|].
  split; [intros p; now apply grows_keeps_kind|].
  split; [intros p; now apply grows_keeps_kind|].
  rewrite L, written_paths_app. cbn [written_paths header omap app].
  eapply Forall_impl; [exact O|].
  intros p (x & T & Hx & HT & [-> | (base_id & _ & ->)]).
  - apply out_image_path_under; [|exact HT].
    now apply (images_entry_names listing).
  - now apply out_mask_path_under.
Qed.

Lemma run_leaves_inputs_alone_witness :
  fs (snd (run (Toy.externals false) ["image_1.jpg"] Toy.paired_fs 0))
    !! "X/image_1.jpg"
  = Toy.paired_fs !! "X/image_1.jpg".
Proof.
  refine (proj1 (run_leaves_inputs_alone (Toy.externals false) ["image_1.jpg"]
                   Toy.paired_fs 0 _) "X/image_1.jpg" eq_refl).
  apply List.Forall_cons; [reflexivity | apply List.Forall_nil].
Defined.

(** ** The random draws and the control flow *)

(** X6: the random draws of the transforms decide pixel values only.
    Two runs on the same file system and listing with different states
    of the random generator end the same way, print the same lines,
    ask for the same directories, write to the same paths in the same
    order, leave the same set of entries and the same counter. *)
Theorem random_draws_do_not_steer (E : Externals) (listing : list string)
    (f : gmap string node) (seed1 seed2 : N) :
  Forall entry_name listing ->
  let one := run E listing f seed1 in
  let two := run E listing f seed2 in
  fst two = fst one
  /\ stdout (log (snd two)) = stdout (log (snd one))
  /\ made_dirs (log (snd two)) = made_dirs (log (snd one))
  /\ written_paths (log (snd two)) = written_paths (log (snd one))
  /\ dom (fs (snd two)) = dom (fs (snd one))
  /\ counter (snd two) = counter (snd one).
Proof.
  intros Hall. cbv zeta.
  assert (H12 : alike (boot f seed1) (boot f seed2)).
  { split; [apply grows_refl | now split]. }
  assert (H21 : alike (boot f seed2) (boot f seed1)).
  { split; [apply grows_refl | now split]. }
  destruct (simulates_main E listing Hall _ _ H12)
    as (R & (_ & C & L) & D & D1).
  destruct (simulates_main E listing Hall _ _ H21) as (_ & _ & D' & D1').
  fold (run E listing f seed1) in *. fold (run E listing f seed2) in *.
  cbn [fs boot] in D, D1, D', D1'.
  split; [|split; [|split; [|split; [|split]]]].
  - destruct (fst (run E listing f seed1)) as [e1|[]],
      (fst (run E listing f seed2)) as [e2|[]];
      cbn [alike_result] in R; congruence || contradiction.
  - now rewrite <- erase_stdout, <- L, erase_stdout.
  - now rewrite <- erase_made_dirs, <- L, erase_made_dirs.
  - now rewrite <- erase_written_paths, <- L, erase_written_paths.
  - apply set_eq. intros p. split; intros Hp.
    + apply D in Hp. set_solver.
    + apply D' in Hp. set_solver.
  - now symmetry.
Qed.

Lemma random_draws_do_not_steer_witness :
  written_paths (log (snd (run (Toy.externals false) ["image_1.jpg"]
                             Toy.paired_fs 9)))
  = written_paths (log (snd (run (Toy.externals false) ["image_1.jpg"]
                               Toy.paired_fs 0))).
Proof.
  refine (proj1 (proj2 (proj2 (proj2
            (random_draws_do_not_steer (Toy.externals false) ["image_1.jpg"]
               Toy.paired_fs 0 9 _))))).
  apply List.Forall_cons; [reflexivity | apply List.Forall_nil].
Defined.

(** ** The id of an image *)

Section Ids.

Lemma contains_append (c : ascii) (a b : string) :
  Py.contains c (a +:+ b) = Py.contains c a || Py.contains c b.
Proof.
  induction a as [|x a IH]; [reflexivity|].
  change (String x a +:+ b) with (String x (a +:+ b)).
  cbn [Py.contains]. now rewrite IH, orb_assoc.
Qed.

(** No piece of [s.split(sep)] contains the separator. *)
Lemma split_pieces_clean (sep : ascii) (s : string) :
  Forall (fun piece => Py.contains sep piece = false) (Py.split sep s).
Proof.
  induction s as [|c s IH]; cbn [Py.split].
  - now constructor.
  - destruct (Ascii.eqb c sep) eqn:Hc; [now constructor|].
    destruct (Py.split sep s) as [|h t]; [now constructor; [cbn; rewrite Hc|]|].
    inversion IH as [|? ? Hh Ht]; subst. constructor; [|exact Ht].
    cbn [Py.contains]. now rewrite Hc, Hh.
Qed.

(** A character absent from [s] is absent from every piece. *)
Lemma split_pieces_without (c sep : ascii) (s : string) :
  Py.contains c s = false ->
  Forall (fun piece => Py.contains c piece = false) (Py.split sep s).
Proof.
  induction s as [|x s IH]; cbn [Py.split Py.contains]; intros H.
  - now constructor.
  - apply orb_false_iff in H as [Hx Hs]. specialize (IH Hs).
    destruct (Ascii.eqb x sep); [now constructor|].
    destruct (Py.split sep s) as [|h t]; [now constructor; [cbn; rewrite Hx|]|].
    inversion IH as [|? ? Hh Ht]; subst. constructor; [|exact Ht].
    cbn [Py.contains]. now rewrite Hx, Hh.
Qed.

Lemma base_id_of_shape (a base_id ext : string) :
  Py.contains "_" a = false ->
  Py.contains "_" base_id = false -> Py.contains "." base_id = false ->
  Py.contains "_" ext = false ->
  base_id_of (a +:+ "_" +:+ base_id +:+ "." +:+ ext) = inr base_id.
Proof.
  intros Ha Hi Hd He. unfold base_id_of.
  change (a +:+ "_" +:+ base_id +:+ "." +:+ ext)
    with (a +:+ String "_" (base_id +:+ String "." ext)).
  rewrite split_at_separator by assumption.
  rewrite split_no_separator.
  - cbn [lookup list_lookup]. now rewrite split_at_separator.
  - rewrite contains_append, Hi. cbn [Py.contains orb]. exact He.
Qed.

Lemma lower_append (a b : string) :
  Py.lower (a +:+ b) = Py.lower a +:+ Py.lower b.
Proof.
  induction a as [|c a IH]; [reflexivity|].
  change (String c a +:+ b) with (String c (a +:+ b)).
  cbn [Py.lower]. now rewrite IH.
Qed.

Lemma endswith_append (a suffix : string) :
  Py.endswith (a +:+ suffix) suffix = true.
Proof.
  induction a as [|c a IH].
  - change ("" +:+ suffix) with suffix. destruct suffix; cbn [Py.endswith];
      now rewrite String.eqb_refl.
  - change (String c a +:+ suffix) with (String c (a +:+ suffix)).
    cbn [Py.endswith]. rewrite IH. now destruct (String.eqb _ suffix).
Qed.

End Ids.

(** X7: an id the script extracts from a name contains neither an
    underscore nor a dot.  The name of the mask it then looks up,
    [mask_<id>.png], yields the same id when read by the same rule, and
    so does any name [<prefix>_<id>.<ext>] whose prefix and extension
    are free of underscores: the text before the first underscore
    never matters. *)
Theorem extracted_id_is_clean (image_name base_id : string) :
  base_id_of image_name = inr base_id ->
  Py.contains "_" base_id = false
  /\ Py.contains "." base_id = false
  /\ base_id_of (mask_name_of base_id) = inr base_id
  /\ forall a ext,
       Py.contains "_" a = false -> Py.contains "_" ext = false ->
       base_id_of (a +:+ "_" +:+ base_id +:+ "." +:+ ext) = inr base_id.
Proof.
  unfold base_id_of at 1. intros H.
  destruct (Py.split "_" image_name !! 1%nat) as [segment|] eqn:Hseg;
    [|discriminate].
  destruct (Py.split "." segment !! 0%nat) as [x|] eqn:Hx; [|discriminate].
  injection H as ->.
  assert (Hsegment : Py.contains "_" segment = false).
  { pose proof (split_pieces_clean "_" image_name) as Hall.
    rewrite Forall_forall in Hall. apply Hall.
    eapply list_elem_of_lookup_2; exact Hseg. }
  assert (Hu : Py.contains "_" base_id = false).
  { pose proof (split_pieces_without "_" "." segment Hsegment) as Hall.
    rewrite Forall_forall in Hall. apply Hall.
    eapply list_elem_of_lookup_2; exact Hx. }
  assert (Hd : Py.contains "." base_id = false).
  { pose proof (split_pieces_clean "." segment) as Hall.
    rewrite Forall_forall in Hall. apply Hall.
    eapply list_elem_of_lookup_2; exact Hx. }
  split; [exact Hu|]. split; [exact Hd|]. split.
  - exact (base_id_of_shape "mask" base_id "png" eq_refl Hu Hd eq_refl).
  - intros a ext Ha He. now apply base_id_of_shape.
Qed.

Lemma extracted_id_is_clean_witness :
  Py.contains "_" "1" = false
  /\ Py.contains "." "1" = false
  /\ base_id_of (mask_name_of "1") = inr "1".
Proof.
  destruct (extracted_id_is_clean "image_1_copy.v2.jpg" "1" eq_refl)
    as (Hu & Hd & Hm & _).
  repeat split; assumption.
Defined.

(** X8: the naming convention of the script's header works for every
    id without underscore and dot: the name [image_<id>.jpg] is
    discovered, yields the id [<id>] and is paired with
    [y/mask_<id>.png], and the stem its image outputs are named after
    is [image_<id>]. *)
Theorem naming_convention_pairs (base_id : string) :
  Py.contains "_" base_id = false -> Py.contains "." base_id = false ->
  let image_name := "image_" +:+ base_id +:+ ".jpg" in
  image_files [image_name] = [image_name]
  /\ base_id_of image_name = inr base_id
  /\ Py.path_join MASK_DIR (mask_name_of base_id)
     = "y/mask_" +:+ base_id +:+ ".png"
  /\ Py.drop_last 4 image_name = "image_" +:+ base_id.
Proof.
  intros Hu Hd. cbv zeta. split; [|split; [|split]].
  - unfold image_files. cbn [List.filter].
    change ("image_" +:+ base_id +:+ ".jpg")
      with (("image_" +:+ base_id) +:+ ".jpg") at 1.
    rewrite lower_append.
    change (Py.lower ".jpg") with IMAGE_EXTENSION.
    now rewrite endswith_append.
  - exact (base_id_of_shape "image" base_id "jpg" eq_refl Hu Hd eq_refl).
  - reflexivity.
  - unfold Py.drop_last.
    change ("image_" +:+ base_id +:+ ".jpg")
      with (("image_" +:+ base_id) +:+ ".jpg").
    rewrite length_append. cbn [String.length].
    replace (String.length ("image_" +:+ base_id) + 4 - 4)
      with (String.length ("image_" +:+ base_id)) by lia.
    generalize ("image_" +:+ base_id). intros s.
    induction s as [|c s IH]; [reflexivity|].
    change (String c s +:+ ".jpg") with (String c (s +:+ ".jpg")).
    cbn [String.length Py.take]. now rewrite IH.
Qed.

Lemma naming_convention_pairs_witness :
  base_id_of ("image_" +:+ "0042" +:+ ".jpg") = inr "0042".
Proof.
  exact (proj1 (proj2 (naming_convention_pairs "0042" eq_refl eq_refl))).
Defined.

(** ** Which outputs share a path *)

(** X9: distinct transforms never write to the same path, and an image
    output never shares a path with a mask output.  Two image outputs
    share a path exactly when the transform is the same and the names
    agree up to their last four characters; two mask outputs exactly
    when transform and id are the same.  So [image_1.jpg] and
    [image_1.JPG], both discovered, are written to the same files, the
    later over the earlier. *)
Theorem outputs_collide_only_on_stem (n1 n2 T1 T2 : string) :
  entry_name n1 -> entry_name n2 ->
  In T1 transform_names -> In T2 transform_names ->
  (out_image_path n1 T1 = out_image_path n2 T2
   <-> T1 = T2 /\ Py.drop_last 4 n1 = Py.drop_last 4 n2)
  /\ (forall i1 i2,
        out_mask_path i1 T1 = out_mask_path i2 T2 <-> T1 = T2 /\ i1 = i2)
  /\ (forall i, out_image_path n1 T1 <> out_mask_path i T2)
  /\ image_files ["image_1.jpg"; "image_1.JPG"] = ["image_1.jpg"; "image_1.JPG"]
  /\ map (out_image_path "image_1.JPG") transform_names
     = map (out_image_path "image_1.jpg") transform_names.
Proof.
  intros Hn1 Hn2 HT1 HT2.
  pose proof (transform_names_no_slash T1 HT1) as S1.
  pose proof (transform_names_no_slash T2 HT2) as S2.
  split; [|split; [|split; [|split; reflexivity]]].
  - rewrite !out_image_path_spec by assumption. unfold image_output. split.
    + intros H. apply (append_inj_l "augmented_x/") in H.
      apply first_slash_unique in H as [-> H]; [|assumption..].
      split; [reflexivity|]. now apply append_inj_r in H.
    + now intros [-> ->].
  - intros i1 i2. rewrite !out_mask_path_spec by assumption.
    unfold mask_output. split.
    + intros H. apply (append_inj_l "augmented_y/") in H.
      apply first_slash_unique in H as [-> H]; [|assumption..].
      split; [reflexivity|]. apply (append_inj_l "mask_") in H.
      now apply append_inj_r in H.
    + now intros [-> ->].
  - intros i. rewrite out_image_path_spec, out_mask_path_spec by assumption.
    unfold image_output, mask_output. intros H.
    apply (append_inj_l "augmented_") in H. cbn in H. discriminate.
Qed.

Lemma outputs_collide_only_on_stem_witness :
  out_image_path "image_1.jpg" "Defocus" = out_image_path "image_1.JPG" "Defocus"
  <-> "Defocus" = "Defocus"
      /\ Py.drop_last 4 "image_1.jpg" = Py.drop_last 4 "image_1.JPG".
Proof.
  refine (proj1 (outputs_collide_only_on_stem "image_1.jpg" "image_1.JPG"
                   "Defocus" "Defocus" eq_refl eq_refl _ _));
    unfold transform_names; cbn; tauto.
Defined.

(** ** Making the output directories *)

(** X10: for each transform, making its output directory (lines
    182-186) succeeds unless a regular file sits at the directory's
    path, or the directory is missing and a regular file sits at the
    output root.  After a success the path is a directory, nothing
    that existed was changed, and making it again succeeds without any
    change: the loop can ask for the same directory for every image. *)
Theorem output_directory_is_ensured (root T : string)
    (f : gmap string node) :
  In root [OUT_IMAGE_ROOT; OUT_MASK_ROOT] -> In T transform_names ->
  (fst (Os.makedirs (Py.path_join root T) f) = inr tt
   <-> ~ (exists bytes, f !! Py.path_join root T = Some (File bytes))
       /\ ~ (f !! Py.path_join root T = None
             /\ exists bytes, f !! root = Some (File bytes)))
  /\ (forall p x, f !! p = Some x ->
        snd (Os.makedirs (Py.path_join root T) f) !! p = Some x)
  /\ (fst (Os.makedirs (Py.path_join root T) f) = inr tt ->
      snd (Os.makedirs (Py.path_join root T) f) !! Py.path_join root T
      = Some Dir
      /\ Os.makedirs (Py.path_join root T)
           (snd (Os.makedirs (Py.path_join root T) f))
         = (inr tt, snd (Os.makedirs (Py.path_join root T) f))).
Proof.
  intros Hr HT. split; [now apply makedirs_out_ok_iff|].
  split; [intros p x; now apply makedirs_out_extends|].
  intros Hok. split.
  - now apply makedirs_out_made.
  - now apply makedirs_out_again.
Qed.

Lemma output_directory_is_ensured_witness :
  Os.makedirs (Py.path_join OUT_IMAGE_ROOT "Defocus")
    (snd (Os.makedirs (Py.path_join OUT_IMAGE_ROOT "Defocus") Toy.paired_fs))
  = (inr tt,
     snd (Os.makedirs (Py.path_join OUT_IMAGE_ROOT "Defocus") Toy.paired_fs)).
Proof.
  refine (proj2 (proj2 (proj2 (output_directory_is_ensured OUT_IMAGE_ROOT
                                 "Defocus" Toy.paired_fs _ _)) eq_refl)).
  - simpl; auto.
  - unfold transform_names; cbn; tauto.
Defined.

(** ** A pass of the transform loop that raises *)

(** X11: a pass of the transform loop that raises prints nothing and
    leaves the counter alone; it has asked for one or both directories
    of its transform, has written no mask and at most the one image of
    its transform.  With a decoded mask it has written nothing at all,
    and the cause is a regular file in the way of an output directory. *)
Theorem failed_pass_writes_no_pair (E : Externals) (total : nat)
    (image_name base_id : string) (image : ndarray) (mask : option ndarray)
    (t : transform) (w : World) (e : Py.exn) (evs : list event) :
  entry_name image_name -> In t TRANSFORMATIONS ->
  fst (augment_with E total image_name base_id image mask t w) = inl e ->
  log (snd (augment_with E total image_name base_id image mask t w))
  = log w ++ evs ->
  counter (snd (augment_with E total image_name base_id image mask t w))
  = counter w
  /\ stdout evs = []
  /\ written_at 204 evs = []
  /\ length (written_at 203 evs) <= 1
  /\ 1 <= length (made_dirs evs) <= 2
  /\ (mask <> None -> written_paths evs = [] /\ ~ unobstructed (fs w)).
Proof.
  intros Hn Ht Hout Hlog.
  destruct (augment_with_summary E total image_name base_id image Hn mask t w Ht)
    as [_ [(R & _) | (e' & j & _ & Hj & L & C & Hno)]]; [congruence|].
  rewrite L in Hlog. apply app_inv_head in Hlog. subst evs.
  split; [exact C|].
  destruct j as [|[|[|[|j]]]]; try lia; cbn;
    (split; [reflexivity|]); (split; [reflexivity|]);
    (split; [lia|]); (split; [lia|]);
    intros Hm; destruct (Hno Hm) as [Hle Hobs];
    (split; [reflexivity || lia | exact Hobs]).
Qed.

Lemma failed_pass_writes_no_pair_witness :
  counter (snd (augment_with (Toy.externals false) 5 "image_1.jpg" "1"
                  Toy.colour_2x2 None Scenario.first_transform
                  (boot Toy.junk_mask_fs 0)))
  = 0%nat
  /\ written_at 204
       (attempt_events (Toy.externals false) "image_1.jpg" Toy.colour_2x2
          Scenario.first_transform 0)
     = [].
Proof.
  destruct (failed_pass_writes_no_pair (Toy.externals false) 5 "image_1.jpg"
              "1" Toy.colour_2x2 None Scenario.first_transform
              (boot Toy.junk_mask_fs 0) Py.Cv2Error
              (attempt_events (Toy.externals false) "image_1.jpg"
                 Toy.colour_2x2 Scenario.first_transform 0)
              eq_refl (or_introl eq_refl) eq_refl eq_refl)
    as (C & _ & W & _).
  split; [exact C | exact W].
Defined.

(** ** Which directory entries are images *)

(** X12: an entry of the image directory is discovered exactly when it
    is some text followed by four characters that spell [.jpg] in any
    mix of upper and lower case; nothing else about the name is looked
    at, so even the bare name [.JPG] is discovered.  Discovery keeps
    the order and the repetitions of the listing. *)
Theorem discovery_is_by_extension (listing : list string) (x : string) :
  (In x (image_files listing)
   <-> In x listing
       /\ exists stem ext, x = stem +:+ ext /\ Py.lower ext = ".jpg")
  /\ (forall a b, image_files (a ++ b) = image_files a ++ image_files b)
  /\ image_files [".JPG"; "jpg"; "a.jpeg"; "b.jpg.txt"; "c.Jpg"]
     = [".JPG"; "c.Jpg"].
Proof.
  split; [|split; [|reflexivity]].
  - unfold image_files. rewrite filter_In. split.
    + intros [Hin Hext]. split; [exact Hin|].
      destruct (discovered_stem x Hext) as [Hx Hl]. eauto.
    + intros [Hin (stem & ext & -> & Hl)]. split; [exact Hin|].
      rewrite lower_append, Hl. apply endswith_append.
  - intros a b. unfold image_files. apply List.filter_app.
Qed.
